(** * svgToDataURI: the favicon encoder and its history store

    A shallow embedding of the two script variants of the repository,
    [src/main.ts] and the second page script (called [part_001] below), and
    the properties of the encoder pipeline ([processInput]) and of the
    history store ([saveHistory], [getHistory], the export listener).
    The listeners of the page ([init], the Generate and Paste buttons,
    [fetchUrl], loading an entry of the history, [switchTab]) and the
    texts [renderHistory] builds for an entry are modelled as well.

    JavaScript strings are sequences of UTF-16 code units; a code unit is a
    [Z] in the range [0, 65536).  The built-ins the scripts call
    ([String.prototype.trim], [startsWith], [replace], [match],
    [encodeURIComponent], [decodeURIComponent], [JSON.parse],
    [JSON.stringify]) are modelled after ECMA-262. *)

From Stdlib Require Import String Ascii ZArith Lia List Bool.
From Stdlib Require Import DecimalZ DecimalPos DecimalFacts.
From stdpp Require Import base option list gmap.

Ltac Zify.zify_post_hook ::= Z.div_mod_to_equations.

Set Warnings "-register-all".

Local Open Scope Z_scope.

(** ** Strings *)

Abbreviation jsstring := (list Z).

(** An ASCII literal of the source as a sequence of code units. *)
Definition lit (s : string) : jsstring :=
  map (fun a => Z.of_N (N_of_ascii a)) (list_ascii_of_string s).

Definition code_unit (c : Z) : Prop := 0 <= c < 65536.
Definition wf_string (s : jsstring) : Prop := Forall code_unit s.

Fixpoint str_eqb (a b : jsstring) : bool :=
  match a, b with
  | [], [] => true
  | x :: a', y :: b' => (x =? y) && str_eqb a' b'
  | _, _ => false
  end.

(** ** Completions: a call returns normally or throws *)

Inductive error := URIError | SyntaxError | TypeError.

Inductive completion (A : Type) :=
| Normal (a : A)
| Throw (e : error).
Arguments Normal {A} a.
Arguments Throw {A} e.

Definition cbind {A B} (c : completion A) (k : A -> completion B) : completion B :=
  match c with
  | Normal a => k a
  | Throw e => Throw e
  end.

Notation "'let*' x ':=' c 'in' k" := (cbind c (fun x => k))
  (at level 10, x pattern, c at level 100, k at level 200).

(** ** Character classes *)

(** WhiteSpace and LineTerminator of ECMA-262: what [trim] strips and what
    the regular-expression class [\s] matches. *)
Definition isWhiteSpace (c : Z) : bool :=
  (c =? 9) || (c =? 10) || (c =? 11) || (c =? 12) || (c =? 13) || (c =? 32)
  || (c =? 160) || (c =? 5760) || ((8192 <=? c) && (c <=? 8202))
  || (c =? 8232) || (c =? 8233) || (c =? 8239) || (c =? 8287)
  || (c =? 12288) || (c =? 65279).

Definition isHighSurrogate (c : Z) : bool := (55296 <=? c) && (c <=? 56319).
Definition isLowSurrogate (c : Z) : bool := (56320 <=? c) && (c <=? 57343).

Definition isAlnum (c : Z) : bool :=
  ((48 <=? c) && (c <=? 57)) || ((65 <=? c) && (c <=? 90))
  || ((97 <=? c) && (c <=? 122)).

(** uriUnescaped of [encodeURIComponent]: alphanumerics and [-_.!~*'()]. *)
Definition uriUnescaped (c : Z) : bool :=
  isAlnum c || (c =? 45) || (c =? 95) || (c =? 46) || (c =? 33) || (c =? 126)
  || (c =? 42) || (c =? 39) || (c =? 40) || (c =? 41).

(** ** String.prototype methods *)

Fixpoint trimStart (s : jsstring) : jsstring :=
  match s with
  | [] => []
  | c :: r => if isWhiteSpace c then trimStart r else s
  end.

Definition trimEnd (s : jsstring) : jsstring := rev (trimStart (rev s)).

Definition trim (s : jsstring) : jsstring := trimEnd (trimStart s).

Fixpoint startsWith (p s : jsstring) : bool :=
  match p, s with
  | [], _ => true
  | a :: p', b :: s' => (a =? b) && startsWith p' s'
  | _ :: _, [] => false
  end.

(** [s.replace(pat, rep)] with a string pattern: the first occurrence only. *)
Fixpoint replaceFirst (pat rep s : jsstring) : jsstring :=
  if startsWith pat s then rep ++ drop (length pat) s
  else match s with
       | [] => []
       | c :: r => c :: replaceFirst pat rep r
       end.

(** [s.includes(pat)]. *)
Fixpoint includes (pat s : jsstring) : bool :=
  startsWith pat s
  || match s with
     | [] => false
     | _ :: r => includes pat r
     end.

(** [s.replace(/c/g, rep)] for a single literal character [c]. *)
Definition replaceAllChar (c : Z) (rep s : jsstring) : jsstring :=
  flat_map (fun x => if x =? c then rep else [x]) s.

(** [s.replace(/\r?\n|\r/g, empty)].  At a carriage return the first
    alternative takes the pair CR LF when a line feed follows, otherwise the
    second alternative takes the CR alone. *)
Fixpoint removeLineBreaks (s : jsstring) : jsstring :=
  match s with
  | [] => []
  | c :: r =>
      if c =? 13 then
        match r with
        | d :: r' => if d =? 10 then removeLineBreaks r' else removeLineBreaks r
        | [] => []
        end
      else if c =? 10 then removeLineBreaks r
      else c :: removeLineBreaks r
  end.

(** [s.replace(/\s+/g, space)]: [inRun] tells that the previous code unit
    belongs to the run being replaced. *)
Fixpoint collapseRuns (inRun : bool) (s : jsstring) : jsstring :=
  match s with
  | [] => []
  | c :: r =>
      if isWhiteSpace c
      then (if inRun then collapseRuns true r else 32 :: collapseRuns true r)
      else c :: collapseRuns false r
  end.

Definition collapseWhitespace (s : jsstring) : jsstring := collapseRuns false s.

(** The text before the first double quote, when there is one. *)
Fixpoint upToQuote (s : jsstring) : option jsstring :=
  match s with
  | [] => None
  | c :: r => if c =? 34 then Some [] else option_map (cons c) (upToQuote r)
  end.

(** The literal prefix [href=] followed by a double quote. *)
Definition HREF_OPEN : jsstring := Eval cbv in (lit "href=" ++ [34]).

(** [s.match(re)] for the expression [href=], a double quote, a greedy run
    of code units other than the double quote (capture group 1) and a
    closing double quote: the capture of the leftmost match. *)
Fixpoint match_href (s : jsstring) : option jsstring :=
  match s with
  | [] => None
  | _ :: r =>
      if startsWith HREF_OPEN s then
        match upToQuote (drop 6 s) with
        | Some cap => Some cap
        | None => match_href r
        end
      else match_href r
  end.

(** ** URI encoding and decoding (ECMA-262, Encode and Decode) *)

Definition hexDigitUpper (d : Z) : Z := if d <? 10 then 48 + d else 55 + d.

Definition hexValue (c : Z) : option Z :=
  if (48 <=? c) && (c <=? 57) then Some (c - 48)
  else if (65 <=? c) && (c <=? 70) then Some (c - 55)
  else if (97 <=? c) && (c <=? 102) then Some (c - 87)
  else None.

(** The escape of one octet: a percent sign and two upper-case hex digits. *)
Definition percentEncode (b : Z) : jsstring :=
  [37; hexDigitUpper (b / 16); hexDigitUpper (b mod 16)].

(** The UTF-8 octets of a code point. *)
Definition utf8Encode (v : Z) : list Z :=
  if v <? 128 then [v]
  else if v <? 2048 then [192 + v / 64; 128 + v mod 64]
  else if v <? 65536 then [224 + v / 4096; 128 + (v / 64) mod 64; 128 + v mod 64]
  else [240 + v / 262144; 128 + (v / 4096) mod 64; 128 + (v / 64) mod 64;
        128 + v mod 64].

(** The code point of a surrogate pair. *)
Definition pairCodePoint (hi lo : Z) : Z :=
  (hi - 55296) * 1024 + (lo - 56320) + 65536.

(** The code units of a code point. *)
Definition utf16Encode (v : Z) : jsstring :=
  if v <? 65536 then [v]
  else [(v - 65536) / 1024 + 55296; (v - 65536) mod 1024 + 56320].

Definition escapeCodePoint (v : Z) : jsstring :=
  flat_map percentEncode (utf8Encode v).

(** Encode: a code unit of the unescaped set is copied; any other code point
    is replaced by the escapes of its UTF-8 octets; an unpaired surrogate
    throws a URIError. *)
Fixpoint Encode (unescapedSet : Z -> bool) (s : jsstring) : completion jsstring :=
  match s with
  | [] => Normal []
  | c :: r =>
      if unescapedSet c then
        let* t := Encode unescapedSet r in Normal (c :: t)
      else if isLowSurrogate c then Throw URIError
      else if negb (isHighSurrogate c) then
        let* t := Encode unescapedSet r in Normal (escapeCodePoint c ++ t)
      else
        match r with
        | [] => Throw URIError
        | k :: r' =>
            if isLowSurrogate k then
              let* t := Encode unescapedSet r' in
              Normal (escapeCodePoint (pairCodePoint c k) ++ t)
            else Throw URIError
        end
  end.

Definition encodeURIComponent (s : jsstring) : completion jsstring :=
  Encode uriUnescaped s.

Definition hexByte (a b : Z) : option Z :=
  match hexValue a, hexValue b with
  | Some x, Some y => Some (16 * x + y)
  | _, _ => None
  end.

(** An escape whose octet has the two top bits 10. *)
Definition continuationByte (p a b : Z) : option Z :=
  if p =? 37 then
    match hexByte a b with
    | Some B => if (128 <=? B) && (B <=? 191) then Some B else None
    | None => None
    end
  else None.

(** Decode with an empty reserved set, as [decodeURIComponent] calls it.  An
    escape that is not followed by two hex digits, a leading octet that
    announces one or more than four octets, a missing or wrong continuation
    octet, and octets that are not the UTF-8 encoding of a code point
    (overlong forms, surrogates, values above 0x10FFFF) throw a URIError. *)
Fixpoint Decode (s : jsstring) : completion jsstring :=
  match s with
  | [] => Normal []
  | c :: r =>
      if negb (c =? 37) then let* t := Decode r in Normal (c :: t)
      else
        match r with
        | a :: b :: r1 =>
            match hexByte a b with
            | None => Throw URIError
            | Some B =>
                if B <? 128 then let* t := Decode r1 in Normal (B :: t)
                else if B <? 192 then Throw URIError
                else if B <? 224 then
                  match r1 with
                  | p2 :: a2 :: b2 :: r2 =>
                      match continuationByte p2 a2 b2 with
                      | Some B2 =>
                          let v := (B - 192) * 64 + (B2 - 128) in
                          if v <? 128 then Throw URIError
                          else let* t := Decode r2 in Normal (utf16Encode v ++ t)
                      | None => Throw URIError
                      end
                  | _ => Throw URIError
                  end
                else if B <? 240 then
                  match r1 with
                  | p2 :: a2 :: b2 :: p3 :: a3 :: b3 :: r3 =>
                      match continuationByte p2 a2 b2, continuationByte p3 a3 b3 with
                      | Some B2, Some B3 =>
                          let v := (B - 224) * 4096 + (B2 - 128) * 64 + (B3 - 128) in
                          if (v <? 2048) || ((55296 <=? v) && (v <=? 57343))
                          then Throw URIError
                          else let* t := Decode r3 in Normal (utf16Encode v ++ t)
                      | _, _ => Throw URIError
                      end
                  | _ => Throw URIError
                  end
                else if B <? 248 then
                  match r1 with
                  | p2 :: a2 :: b2 :: p3 :: a3 :: b3 :: p4 :: a4 :: b4 :: r4 =>
                      match continuationByte p2 a2 b2, continuationByte p3 a3 b3,
                            continuationByte p4 a4 b4 with
                      | Some B2, Some B3, Some B4 =>
                          let v := (B - 240) * 262144 + (B2 - 128) * 4096
                                   + (B3 - 128) * 64 + (B4 - 128) in
                          if (v <? 65536) || (1114111 <? v) then Throw URIError
                          else let* t := Decode r4 in Normal (utf16Encode v ++ t)
                      | _, _, _ => Throw URIError
                      end
                  | _ => Throw URIError
                  end
                else Throw URIError
            end
        | _ => Throw URIError
        end
  end.

Definition decodeURIComponent (s : jsstring) : completion jsstring := Decode s.

(** ** The encoder: the steps of [processInput] *)

Definition LINK_PREFIX : jsstring := Eval cbv in lit "<link".
Definition DATA_PREFIX : jsstring := Eval cbv in lit "data:image/svg+xml,".

(** The locals of [processInput] once it has encoded the text: [cleanSvg] is
    the minimised source (the canonical source of the specification),
    [dataUri] the data URI and [tag] the link tag. *)
Record Encoded := {
  cleanSvg : jsstring;
  dataUri : jsstring;
  tag : jsstring
}.

Inductive Output :=
| Empty
| Generated (e : Encoded).

(** The pasted link tag: [raw] becomes the capture when the expression
    matches. *)
Definition unwrapLink (raw : jsstring) : jsstring :=
  if startsWith LINK_PREFIX raw then
    match match_href raw with
    | Some m => m
    | None => raw
    end
  else raw.

(** The existing data URI: the flag tells that the branch was taken (the
    script then writes the decoded text back to the input field). *)
Definition unwrapDataUri (raw : jsstring) : completion (jsstring * bool) :=
  if startsWith DATA_PREFIX raw then
    let* raw := decodeURIComponent (replaceFirst DATA_PREFIX [] raw) in
    Normal (raw, true)
  else Normal (raw, false).

(** The value of [raw] after the two unwrapping steps. *)
Definition unwrap (raw : jsstring) : completion (jsstring * bool) :=
  unwrapDataUri (unwrapLink raw).

Definition minimize (raw : jsstring) : jsstring :=
  collapseWhitespace (removeLineBreaks raw).

Definition linkTag (dataUri : jsstring) : jsstring :=
  lit "<link rel=" ++ [34] ++ lit "icon" ++ [34] ++ lit " type=" ++ [34]
  ++ lit "image/svg+xml" ++ [34] ++ lit " href=" ++ [34] ++ dataUri ++ [34]
  ++ lit " />".

Definition PCT27 : jsstring := Eval cbv in lit "%27".
Definition PCT22 : jsstring := Eval cbv in lit "%22".

Definition generate (raw : jsstring) : completion Encoded :=
  let cleanSvg := minimize raw in
  let* encoded := encodeURIComponent cleanSvg in
  let encoded := replaceAllChar 34 PCT22 (replaceAllChar 39 PCT27 encoded) in
  let dataUri := DATA_PREFIX ++ encoded in
  Normal {| cleanSvg := cleanSvg; dataUri := dataUri; tag := linkTag dataUri |}.

(** The encoder as a function of the text of the input field: what
    [processInput] computes from [els.svgInput.value] (the operation the
    specification calls normalize). *)
Definition normalize (rawInput : jsstring) : completion Output :=
  let raw := trim rawInput in
  match raw with
  | [] => Normal Empty
  | _ :: _ =>
      let* u := unwrap raw in
      let* e := generate (fst u) in
      Normal (Generated e)
  end.


(** ** JSON values, [JSON.stringify] and [JSON.parse] *)

(** A number is an integer when its token has neither a fraction nor an
    exponent; this is exact for the safe integers (absolute value below
    2^53), among them the time values of [Date.now()].  The token of any
    other number is kept as written: its rounding to binary64 is not
    modelled. *)
Inductive json :=
| JNull
| JBool (b : bool)
| JNum (z : Z)
| JReal (token : jsstring)
| JStr (s : jsstring)
| JArr (items : list json)
| JObj (members : list (jsstring * json)).

Definition hexDigitLower (d : Z) : Z := if d <? 10 then 48 + d else 87 + d.

Definition unicodeEscape (c : Z) : jsstring :=
  [92; 117; hexDigitLower (c / 4096); hexDigitLower ((c / 256) mod 16);
   hexDigitLower ((c / 16) mod 16); hexDigitLower (c mod 16)].

(** QuoteJSONString on a code point below 0x10000. *)
Definition quoteUnit (c : Z) : jsstring :=
  if c =? 8 then [92; 98]
  else if c =? 9 then [92; 116]
  else if c =? 10 then [92; 110]
  else if c =? 12 then [92; 102]
  else if c =? 13 then [92; 114]
  else if c =? 34 then [92; 34]
  else if c =? 92 then [92; 92]
  else if (c <? 32) || isHighSurrogate c || isLowSurrogate c then unicodeEscape c
  else [c].

(** A surrogate pair is one code point and is copied; an unpaired surrogate
    is escaped. *)
Fixpoint quoteChars (s : jsstring) : jsstring :=
  match s with
  | [] => []
  | c :: r =>
      if isHighSurrogate c then
        match r with
        | d :: r' =>
            if isLowSurrogate d then c :: d :: quoteChars r'
            else quoteUnit c ++ quoteChars r
        | [] => quoteUnit c
        end
      else quoteUnit c ++ quoteChars r
  end.

Definition QuoteJSONString (s : jsstring) : jsstring :=
  [34] ++ quoteChars s ++ [34].

Definition digitChar (d : Z) : Z := 48 + d.

Fixpoint digitsOfUint (u : Decimal.uint) : jsstring :=
  match u with
  | Decimal.Nil => []
  | Decimal.D0 u => digitChar 0 :: digitsOfUint u
  | Decimal.D1 u => digitChar 1 :: digitsOfUint u
  | Decimal.D2 u => digitChar 2 :: digitsOfUint u
  | Decimal.D3 u => digitChar 3 :: digitsOfUint u
  | Decimal.D4 u => digitChar 4 :: digitsOfUint u
  | Decimal.D5 u => digitChar 5 :: digitsOfUint u
  | Decimal.D6 u => digitChar 6 :: digitsOfUint u
  | Decimal.D7 u => digitChar 7 :: digitsOfUint u
  | Decimal.D8 u => digitChar 8 :: digitsOfUint u
  | Decimal.D9 u => digitChar 9 :: digitsOfUint u
  end.

(** Number::toString of an integer: its decimal digits. *)
Definition numberToString (z : Z) : jsstring :=
  match Z.to_int z with
  | Decimal.Pos u => digitsOfUint u
  | Decimal.Neg u => 45 :: digitsOfUint u
  end.

Definition LIT_NULL : jsstring := Eval cbv in lit "null".
Definition LIT_TRUE : jsstring := Eval cbv in lit "true".
Definition LIT_FALSE : jsstring := Eval cbv in lit "false".

Fixpoint JSON_stringify (v : json) : jsstring :=
  match v with
  | JNull => LIT_NULL
  | JBool true => LIT_TRUE
  | JBool false => LIT_FALSE
  | JNum z => numberToString z
  | JReal token => token
  | JStr s => QuoteJSONString s
  | JArr items =>
      [91] ++
      (fix elements (l : list json) : jsstring :=
         match l with
         | [] => []
         | [x] => JSON_stringify x
         | x :: r => JSON_stringify x ++ [44] ++ elements r
         end) items
      ++ [93]
  | JObj members =>
      [123] ++
      (fix properties (l : list (jsstring * json)) : jsstring :=
         match l with
         | [] => []
         | [(k, x)] => QuoteJSONString k ++ [58] ++ JSON_stringify x
         | (k, x) :: r =>
             QuoteJSONString k ++ [58] ++ JSON_stringify x ++ [44] ++ properties r
         end) members
      ++ [125]
  end.

(** The outcome of a parsing function: a value and the rest of the text, a
    syntax error, or not enough fuel. *)
Inductive parsed (A : Type) :=
| Parsed (a : A) (rest : jsstring)
| NoParse
| OutOfFuel.
Arguments Parsed {A} a rest.
Arguments NoParse {A}.
Arguments OutOfFuel {A}.

Definition pbind {A B} (p : parsed A) (k : A -> jsstring -> parsed B) : parsed B :=
  match p with
  | Parsed a rest => k a rest
  | NoParse => NoParse
  | OutOfFuel => OutOfFuel
  end.

(** JSON white space: tab, line feed, carriage return, space. *)
Definition isJsonWs (c : Z) : bool :=
  (c =? 9) || (c =? 10) || (c =? 13) || (c =? 32).

Fixpoint skipWs (s : jsstring) : jsstring :=
  match s with
  | [] => []
  | c :: r => if isJsonWs c then skipWs r else s
  end.

Definition isDigit (c : Z) : bool := (48 <=? c) && (c <=? 57).

Fixpoint spanDigits (s : jsstring) : jsstring * jsstring :=
  match s with
  | [] => ([], [])
  | c :: r =>
      if isDigit c then let '(ds, r') := spanDigits r in (c :: ds, r')
      else ([], s)
  end.

Fixpoint uintOfDigits (ds : jsstring) : Decimal.uint :=
  match ds with
  | [] => Decimal.Nil
  | c :: r =>
      let u := uintOfDigits r in
      if c =? 48 then Decimal.D0 u
      else if c =? 49 then Decimal.D1 u
      else if c =? 50 then Decimal.D2 u
      else if c =? 51 then Decimal.D3 u
      else if c =? 52 then Decimal.D4 u
      else if c =? 53 then Decimal.D5 u
      else if c =? 54 then Decimal.D6 u
      else if c =? 55 then Decimal.D7 u
      else if c =? 56 then Decimal.D8 u
      else Decimal.D9 u
  end.

(** The optional fraction of a number token: a dot and at least one digit. *)
Definition spanFraction (s : jsstring) : option (jsstring * jsstring) :=
  match s with
  | c :: r =>
      if c =? 46 then
        match spanDigits r with
        | ([], _) => None
        | (ds, r') => Some (c :: ds, r')
        end
      else Some ([], s)
  | [] => Some ([], s)
  end.

(** The optional exponent: [e] or [E], an optional sign, at least one digit. *)
Definition spanExponent (s : jsstring) : option (jsstring * jsstring) :=
  match s with
  | c :: r =>
      if (c =? 101) || (c =? 69) then
        let '(sign, r1) :=
          match r with
          | g :: r1 => if (g =? 43) || (g =? 45) then ([g], r1) else ([], r)
          | [] => ([], r)
          end in
        match spanDigits r1 with
        | ([], _) => None
        | (ds, r') => Some (c :: sign ++ ds, r')
        end
      else Some ([], s)
  | [] => Some ([], s)
  end.

(** A number token: an optional minus, an integer part without a leading
    zero, an optional fraction and an optional exponent. *)
Definition parseNumber (s : jsstring) : parsed json :=
  let '(minus, s1) :=
    match s with
    | c :: r => if c =? 45 then (true, r) else (false, s)
    | [] => (false, s)
    end in
  match spanDigits s1 with
  | ([], _) => NoParse
  | (d :: ds, s2) =>
      if (d =? 48) && negb (bool_decide (ds = [])) then NoParse
      else
        match spanFraction s2 with
        | None => NoParse
        | Some (frac, s3) =>
            match spanExponent s3 with
            | None => NoParse
            | Some (ex, s4) =>
                match frac, ex with
                | [], [] =>
                    let u := uintOfDigits (d :: ds) in
                    Parsed (JNum (Z.of_int (if minus then Decimal.Neg u
                                            else Decimal.Pos u))) s4
                | _, _ =>
                    Parsed (JReal ((if minus then [45] else []) ++ (d :: ds)
                                   ++ frac ++ ex)) s4
                end
            end
        end
  end.

Definition hex4 (a b c d : Z) : option Z :=
  match hexValue a, hexValue b, hexValue c, hexValue d with
  | Some w, Some x, Some y, Some z => Some (4096 * w + 256 * x + 16 * y + z)
  | _, _, _, _ => None
  end.

(** The single-character escapes of a JSON string. *)
Definition simpleEscape (e : Z) : option Z :=
  if e =? 34 then Some 34
  else if e =? 92 then Some 92
  else if e =? 47 then Some 47
  else if e =? 98 then Some 8
  else if e =? 102 then Some 12
  else if e =? 110 then Some 10
  else if e =? 114 then Some 13
  else if e =? 116 then Some 9
  else None.

(** The characters of a string token after its opening quote, up to and
    including the closing quote. *)
Fixpoint parseChars (s : jsstring) : parsed jsstring :=
  match s with
  | [] => NoParse
  | c :: r =>
      if c =? 34 then Parsed [] r
      else if c =? 92 then
        match r with
        | [] => NoParse
        | e :: r1 =>
            if e =? 117 then
              match r1 with
              | h1 :: h2 :: h3 :: h4 :: r2 =>
                  match hex4 h1 h2 h3 h4 with
                  | Some u => pbind (parseChars r2) (fun t rest => Parsed (u :: t) rest)
                  | None => NoParse
                  end
              | _ => NoParse
              end
            else
              match simpleEscape e with
              | Some u => pbind (parseChars r1) (fun t rest => Parsed (u :: t) rest)
              | None => NoParse
              end
        end
      else if c <? 32 then NoParse
      else pbind (parseChars r) (fun t rest => Parsed (c :: t) rest)
  end.

(** A property key that is an array index: a canonical numeric string below
    2^32 - 1.  Such keys come first, in ascending order, in the property
    order of an object. *)
Definition arrayIndex (k : jsstring) : option Z :=
  match k with
  | [] => None
  | d :: ds =>
      if forallb isDigit k && negb ((d =? 48) && negb (bool_decide (ds = []))) then
        let i := Z.of_uint (uintOfDigits k) in
        if i <? 4294967295 then Some i else None
      else None
  end.

(** The place of a new array-index key [i]: before the first member whose key
    is not an array index or is a larger one. *)
Fixpoint insertIndexed (i : Z) (k : jsstring) (v : json)
    (members : list (jsstring * json)) : list (jsstring * json) :=
  match members with
  | [] => [(k, v)]
  | (k', v') :: r =>
      match arrayIndex k' with
      | Some j => if j <? i then (k', v') :: insertIndexed i k v r
                  else (k, v) :: members
      | None => (k, v) :: members
      end
  end.

Fixpoint hasKey (k : jsstring) (members : list (jsstring * json)) : bool :=
  match members with
  | [] => false
  | (k', _) :: r => str_eqb k k' || hasKey k r
  end.

Fixpoint replaceValue (k : jsstring) (v : json)
    (members : list (jsstring * json)) : list (jsstring * json) :=
  match members with
  | [] => []
  | (k', v') :: r =>
      if str_eqb k k' then (k', v) :: r else (k', v') :: replaceValue k v r
  end.

(** CreateDataProperty on the object under construction: an existing key
    keeps its place and takes the new value; a new key is added in property
    order. *)
Definition defineProperty (members : list (jsstring * json)) (kv : jsstring * json)
    : list (jsstring * json) :=
  let '(k, v) := kv in
  if hasKey k members then replaceValue k v members
  else match arrayIndex k with
       | Some i => insertIndexed i k v members
       | None => members ++ [(k, v)]
       end.

Definition objectOf (pairs : list (jsstring * json)) : json :=
  JObj (fold_left defineProperty pairs []).

(** After a value of an array: a comma and the other elements, or the
    closing bracket. *)
Definition afterElement (more : jsstring -> parsed (list json)) (v : json)
    (r : jsstring) : parsed (list json) :=
  match skipWs r with
  | d :: r' =>
      if d =? 44 then pbind (more r') (fun vs rest => Parsed (v :: vs) rest)
      else if d =? 93 then Parsed [v] r'
      else NoParse
  | [] => NoParse
  end.

(** After a member of an object: a comma and the other members, or the
    closing brace. *)
Definition afterMember (more : jsstring -> parsed (list (jsstring * json)))
    (k : jsstring) (v : json) (r : jsstring) : parsed (list (jsstring * json)) :=
  match skipWs r with
  | d :: r' =>
      if d =? 44 then pbind (more r') (fun kvs rest => Parsed ((k, v) :: kvs) rest)
      else if d =? 125 then Parsed [(k, v)] r'
      else NoParse
  | [] => NoParse
  end.

(** The JSON grammar by recursive descent.  Every call consumes fuel;
    [JSON_parse] supplies enough of it for the whole text. *)
Fixpoint parseValue (fuel : nat) (s : jsstring) : parsed json :=
  match fuel with
  | O => OutOfFuel
  | S fuel =>
      match skipWs s with
      | [] => NoParse
      | c :: r =>
          if c =? 91 then
            match skipWs r with
            | d :: r' =>
                if d =? 93 then Parsed (JArr []) r'
                else pbind (parseElements fuel r)
                       (fun items rest => Parsed (JArr items) rest)
            | [] => NoParse
            end
          else if c =? 123 then
            match skipWs r with
            | d :: r' =>
                if d =? 125 then Parsed (JObj []) r'
                else pbind (parseMembers fuel r)
                       (fun pairs rest => Parsed (objectOf pairs) rest)
            | [] => NoParse
            end
          else if c =? 34 then
            pbind (parseChars r) (fun t rest => Parsed (JStr t) rest)
          else if startsWith LIT_NULL (c :: r) then Parsed JNull (drop 4 (c :: r))
          else if startsWith LIT_TRUE (c :: r) then Parsed (JBool true) (drop 4 (c :: r))
          else if startsWith LIT_FALSE (c :: r) then
            Parsed (JBool false) (drop 5 (c :: r))
          else parseNumber (c :: r)
      end
  end
with parseElements (fuel : nat) (s : jsstring) : parsed (list json) :=
  match fuel with
  | O => OutOfFuel
  | S fuel => pbind (parseValue fuel s) (afterElement (parseElements fuel))
  end
with parseMembers (fuel : nat) (s : jsstring) : parsed (list (jsstring * json)) :=
  match fuel with
  | O => OutOfFuel
  | S fuel =>
      match skipWs s with
      | q :: r0 =>
          if q =? 34 then
            pbind (parseChars r0) (fun k r1 =>
              match skipWs r1 with
              | colon :: r2 =>
                  if colon =? 58 then
                    pbind (parseValue fuel r2) (afterMember (parseMembers fuel) k)
                  else NoParse
              | [] => NoParse
              end)
          else NoParse
      | [] => NoParse
      end
  end.

(** [JSON.parse(text)]: one value, white space around it, nothing else;
    otherwise a SyntaxError. *)
Definition JSON_parse (text : jsstring) : completion json :=
  match parseValue (2 * length text + 1) text with
  | Parsed v rest =>
      match skipWs rest with
      | [] => Normal v
      | _ :: _ => Throw SyntaxError
      end
  | NoParse => Throw SyntaxError
  | OutOfFuel => Throw SyntaxError
  end.

(** ** The page: the fields the scripts read and write *)

Definition STORAGE_KEY : jsstring := Eval cbv in lit "favicon_history_v1".
Definition EMPTY_ARRAY : jsstring := Eval cbv in lit "[]".

(** The value a textarea gives back (its API value, HTML standard): the
    text it holds with the newlines normalised, every pair CR LF and every
    other CR being read as LF. *)
Fixpoint normalizeNewlines (s : jsstring) : jsstring :=
  match s with
  | [] => []
  | c :: r =>
      if c =? 13 then
        match r with
        | d :: r' =>
            if d =? 10 then 10 :: normalizeNewlines r' else 10 :: normalizeNewlines r
        | [] => [10]
        end
      else c :: normalizeNewlines r
  end.

(** [svgInput], [outputCode] and [previewImg] stand for [els.svgInput.value],
    [els.outputCode.value] and [els.previewImg.src]; [pageLink] is the
    [href] of the icon link of the document, when the document has one;
    [localStorage] maps keys to texts.  The input field is a textarea:
    [svgInput] is the text the scripts read from it. *)
Record Page := {
  svgInput : jsstring;
  outputCode : jsstring;
  previewImg : jsstring;
  pageLink : option jsstring;
  localStorage : gmap (list Z) (list Z)
}.

(** The assignment [els.svgInput.value = v]: the field then reads [v] with
    its newlines normalised. *)
Definition setSvgInput (v : jsstring) (p : Page) : Page :=
  {| svgInput := normalizeNewlines v; outputCode := outputCode p;
     previewImg := previewImg p; pageLink := pageLink p;
     localStorage := localStorage p |}.

(** The assignments [els.outputCode.value = code] and
    [els.previewImg.src = src].  The output field is a textarea as well;
    the scripts write to it the empty text and generated tags only, which
    hold no carriage return, so that the field reads what was written. *)
Definition setOutput (code src : jsstring) (p : Page) : Page :=
  {| svgInput := svgInput p; outputCode := code; previewImg := src;
     pageLink := pageLink p; localStorage := localStorage p |}.

Definition setPageLink (href : jsstring) (p : Page) : Page :=
  {| svgInput := svgInput p; outputCode := outputCode p; previewImg := previewImg p;
     pageLink := Some href; localStorage := localStorage p |}.

Definition getItem (k : jsstring) (p : Page) : option jsstring :=
  localStorage p !! k.

Definition setItem (k v : jsstring) (p : Page) : Page :=
  {| svgInput := svgInput p; outputCode := outputCode p; previewImg := previewImg p;
     pageLink := pageLink p; localStorage := <[k := v]> (localStorage p) |}.

Definition removeItem (k : jsstring) (p : Page) : Page :=
  {| svgInput := svgInput p; outputCode := outputCode p; previewImg := previewImg p;
     pageLink := pageLink p; localStorage := delete k (localStorage p) |}.

(** [x || d] for [x] a string or null: null and the empty string are falsy. *)
Definition orElse (x : option jsstring) (d : jsstring) : jsstring :=
  match x with
  | Some (c :: r) => c :: r
  | Some [] => d
  | None => d
  end.

(** [try { return c } catch { return d }]. *)
Definition tryCatch {A} (c : completion A) (d : A) : A :=
  match c with
  | Normal a => a
  | Throw _ => d
  end.

(** The page after a call, which returned or threw. *)
Inductive outcome :=
| Returns (p : Page)
| Raises (e : error) (p : Page).

(** [processInput], with the last step, which differs between the two
    scripts, as a parameter. *)
Definition processInputWith (updateFavicon : jsstring -> Page -> Page) (p : Page)
    : outcome :=
  let raw := trim (svgInput p) in
  match raw with
  | [] => Returns (setOutput [] [] p)
  | _ :: _ =>
      match unwrap raw with
      | Throw e => Raises e p
      | Normal (raw, isDataUri) =>
          let p := if isDataUri then setSvgInput raw p else p in
          match generate raw with
          | Throw e => Raises e p
          | Normal e =>
              Returns (updateFavicon (dataUri e) (setOutput (tag e) (dataUri e) p))
          end
      end
  end.

(** ** The history store *)

Record HistoryItem := {
  id : Z;
  svg : jsstring;
  code : jsstring;
  date : jsstring
}.

Definition KEY_ID : jsstring := Eval cbv in lit "id".
Definition KEY_SVG : jsstring := Eval cbv in lit "svg".
Definition KEY_CODE : jsstring := Eval cbv in lit "code".
Definition KEY_DATE : jsstring := Eval cbv in lit "date".

(** The object of an entry, with its properties in the order of the object
    literal of [saveHistory]. *)
Definition itemJson (e : HistoryItem) : json :=
  JObj [(KEY_ID, JNum (id e)); (KEY_SVG, JStr (svg e)); (KEY_CODE, JStr (code e));
        (KEY_DATE, JStr (date e))].

Fixpoint lookupKey (k : jsstring) (members : list (jsstring * json)) : option json :=
  match members with
  | [] => None
  | (k', v) :: r => if str_eqb k k' then Some v else lookupKey k r
  end.

(** [getHistory]: the parsed text of the storage key, or the empty array
    when parsing throws. *)
Definition getHistory (p : Page) : json :=
  tryCatch (JSON_parse (orElse (getItem STORAGE_KEY p) EMPTY_ARRAY)) (JArr []).

(** The text the export listener puts into the downloaded file. *)
Definition exportData (p : Page) : jsstring :=
  orElse (getItem STORAGE_KEY p) EMPTY_ARRAY.

(** The clear listener, once the user has confirmed. *)
Definition clearHistory (p : Page) : Page := removeItem STORAGE_KEY p.

(** [history.find((x) => x.id === id)] on an array of entries. *)
Definition findById (i : Z) (history : list HistoryItem) : option HistoryItem :=
  find (fun x => id x =? i) history.

(** [history.unshift(entry); if (history.length > 50) history.pop()]. *)
Definition pushEntry (entry : json) (history : list json) : list json :=
  let history := entry :: history in
  if (50 <? Z.of_nat (length history)) then removelast history else history.

(** [history[0].svg === currentSvg] for a non-empty array: reading a
    property of null throws; a value that is not an object has no such
    property. *)
Definition headHasSvg (history : list json) (currentSvg : jsstring) : completion bool :=
  match history with
  | [] => Normal false
  | JNull :: _ => Throw TypeError
  | JObj members :: _ =>
      match lookupKey KEY_SVG members with
      | Some (JStr s) => Normal (str_eqb s currentSvg)
      | _ => Normal false
      end
  | _ :: _ => Normal false
  end.

(** [saveHistory] is modelled by the page it leaves, whether it returns or
    throws: [now] and [dateString] are the values of [Date.now()] and of
    [new Date().toLocaleString()] at the call.  When the stored value is not
    an array the call throws or returns before it writes the storage.  The
    closing call of [renderHistory] rebuilds the history panel from the
    storage; the panel is not part of the page. *)

(** The script [src/main.ts]. *)
Module MainTs.

(** [processInput] ends by pointing the icon link of the document to the
    data URI. *)
Definition processInput (p : Page) : outcome := processInputWith setPageLink p.

Definition saveHistory (now : Z) (dateString : jsstring) (p : Page) : Page :=
  let currentSvg := trim (svgInput p) in
  let currentOutput := trim (outputCode p) in
  match currentSvg with
  | [] => p
  | _ :: _ =>
      let entry := {| id := now; svg := currentSvg; code := currentOutput;
                      date := dateString |} in
      match getHistory p with
      | JArr history =>
          let history := pushEntry (itemJson entry) history in
          setItem STORAGE_KEY (JSON_stringify (JArr history)) p
      | _ => p
      end
  end.

End MainTs.

(** The second page script, [part_001]: the update of the icon link is
    commented out, and [saveHistory] first looks at the head entry. *)
Module Part001.

Definition processInput (p : Page) : outcome := processInputWith (fun _ p => p) p.

Definition saveHistory (now : Z) (dateString : jsstring) (p : Page) : Page :=
  let currentSvg := trim (svgInput p) in
  let currentOutput := trim (outputCode p) in
  match currentSvg with
  | [] => p
  | _ :: _ =>
      let entry := {| id := now; svg := currentSvg; code := currentOutput;
                      date := dateString |} in
      match getHistory p with
      | JArr history =>
          match headHasSvg history currentSvg with
          | Normal true => p
          | Throw _ => p
          | Normal false =>
              let history := pushEntry (itemJson entry) history in
              setItem STORAGE_KEY (JSON_stringify (JArr history)) p
          end
      | _ => p
      end
  end.

End Part001.

(** * The rest of the page scripts *)

(** ** The history panel: [renderHistory] *)

Definition LT_ENTITY : jsstring := Eval cbv in lit "&lt;".
Definition ELLIPSIS : jsstring := Eval cbv in lit "...".

(** The line of text shown for an entry:
    [item.svg.substring(0, 40).replace(/</g, LT_ENTITY) + ELLIPSIS]. *)
Definition snippet (svg : jsstring) : jsstring :=
  replaceAllChar 60 LT_ENTITY (take 40 svg) ++ ELLIPSIS.

(** The value of the [data-code] attribute of the copy button of an entry
    (part_001): [encodeURIComponent(item.code)], written between double
    quotes into the markup of the entry. *)
Definition dataCode (code : jsstring) : completion jsstring :=
  encodeURIComponent code.

(** What the listener of the copy button hands to the clipboard:
    [decodeURIComponent(target.dataset.code || empty)]. *)
Definition copiedCode (datasetCode : option jsstring) : completion jsstring :=
  decodeURIComponent (orElse datasetCode []).

(** ** Entries read back from the storage *)

(** A parsed value as a [HistoryItem]: an object with a number under [id]
    and strings under [svg], [code] and [date]. *)
Definition asItem (v : json) : option HistoryItem :=
  match v with
  | JObj members =>
      match lookupKey KEY_ID members, lookupKey KEY_SVG members,
            lookupKey KEY_CODE members, lookupKey KEY_DATE members with
      | Some (JNum i), Some (JStr s), Some (JStr c), Some (JStr d) =>
          Some {| id := i; svg := s; code := c; date := d |}
      | _, _, _, _ => None
      end
  | _ => None
  end.

Fixpoint asItemList (l : list json) : option (list HistoryItem) :=
  match l with
  | [] => Some []
  | v :: r =>
      match asItem v, asItemList r with
      | Some e, Some es => Some (e :: es)
      | _, _ => None
      end
  end.

(** The value of [getHistory()] at its declared type [HistoryItem[]]; there
    is none when the stored value is not an array of entries. *)
Definition asItems (v : json) : option (list HistoryItem) :=
  match v with
  | JArr l => asItemList l
  | _ => None
  end.

(** ** The listeners *)

(** The answer to a request: [ok] is [res.ok] and [body] the text
    [res.text()] resolves to. *)
Record Response := {
  ok : bool;
  body : jsstring
}.

(** The two alerts of [fetchUrl] in [src/main.ts]. *)
Inductive notice :=
| Fetched
| Failed.

Definition SVG_OPEN : jsstring := Eval cbv in lit "<svg".

Section Listeners.

Variable processInput : Page -> outcome.
Variable saveHistory : Z -> jsstring -> Page -> Page.

(** The click on the Generate button: [processInput(); saveHistory();].
    As [saveHistory], the listener is modelled by the page it leaves: when
    [processInput] throws, [saveHistory] is not called. *)
Definition generateClickWith (now : Z) (dateString : jsstring) (p : Page) : Page :=
  match processInput p with
  | Returns p1 => saveHistory now dateString p1
  | Raises _ p1 => p1
  end.

(** The click on the Paste button: [clipboard] is the text
    [navigator.clipboard.readText()] resolves to, or [None] when it rejects.
    The result is the page the listener leaves and whether its [catch]
    clause showed the alert. *)
Definition pasteClickWith (clipboard : option jsstring) (p : Page) : Page * bool :=
  match clipboard with
  | None => (p, true)
  | Some text =>
      match processInput (setSvgInput text p) with
      | Returns p1 => (p1, false)
      | Raises _ p1 => (p1, true)
      end
  end.

(** Loading an entry of the history: [els.svgInput.value = item.svg;
    processInput();]. *)
Definition loadItemWith (item : HistoryItem) (p : Page) : outcome :=
  processInput (setSvgInput (svg item) p).

(** The first two steps of [init]: an empty input field is filled with the
    decoded default, then [processInput] runs.  The calls of
    [renderHistory] and [setupListeners] that follow, which do not write
    the page, are not modelled. *)
Definition initWith (defaultHref : jsstring) (p : Page) : outcome :=
  match svgInput p with
  | [] =>
      match decodeURIComponent (replaceFirst DATA_PREFIX [] defaultHref) with
      | Normal v => processInput (setSvgInput v p)
      | Throw e => Raises e p
      end
  | _ :: _ => processInput p
  end.

End Listeners.

(** The listeners of [src/main.ts]. *)
Module MainTsPage.

Definition DEFAULT_SVG_HREF : jsstring :=
  Eval cbv in lit "data:image/svg+xml,%3Csvg xmlns='http://www.w3.org/2000/svg' viewBox='0 0 100 100'%3E%3Crect width='100' height='100' rx='20' fill='%231f2937'/%3E%3Ctext x='50' y='50' font-size='50' fill='%23ffffff' text-anchor='middle' dy='.3em' font-family='Poppins, sans-serif' font-weight='bold'%3ERJ%3C/text%3E%3C/svg%3E".

Definition init (p : Page) : outcome :=
  initWith MainTs.processInput DEFAULT_SVG_HREF p.

Definition generateClick (now : Z) (dateString : jsstring) (p : Page) : Page :=
  generateClickWith MainTs.processInput MainTs.saveHistory now dateString p.

Definition pasteClick (clipboard : option jsstring) (p : Page) : Page * bool :=
  pasteClickWith MainTs.processInput clipboard p.

(** The Load button of an entry of the history panel. *)
Definition loadItem (item : HistoryItem) (p : Page) : outcome :=
  loadItemWith MainTs.processInput item p.

(** [fetchUrl]: [url] is the text of the URL field and [respond] gives the
    answer to a request, [None] when [fetch] or [res.text()] rejects.  The
    listener catches every exception: the result is the page it leaves and
    the alert it shows, none when the URL is blank. *)
Definition fetchUrl (url : jsstring) (respond : jsstring -> option Response) (p : Page)
    : Page * option notice :=
  match trim url with
  | [] => (p, None)
  | c :: r =>
      match respond (c :: r) with
      | None => (p, Some Failed)
      | Some res =>
          if negb (ok res) then (p, Some Failed)
          else if negb (includes SVG_OPEN (body res)) then (p, Some Failed)
          else
            match MainTs.processInput (setSvgInput (body res) p) with
            | Returns p1 => (p1, Some Fetched)
            | Raises _ p1 => (p1, Some Failed)
            end
      end
  end.

End MainTsPage.

(** The listeners of part_001. *)
Module Part001Page.

Definition DEFAULT_SVG_HREF : jsstring :=
  Eval cbv in lit "data:image/svg+xml,%3Csvg xmlns='http://www.w3.org/2000/svg' viewBox='0 0 100 100'%3E%3Crect width='100' height='100' rx='20' fill='%23000000'/%3E%3Ctext x='50' y='50' font-size='50' fill='%23ffffff' text-anchor='middle' dy='.3em' font-family='Poppins, sans-serif' font-weight='bold'%3ESG%3C/text%3E%3C/svg%3E".

Definition CORS_PROXY : jsstring :=
  Eval cbv in lit "https://api.allorigins.win/raw?url=".

Definition init (p : Page) : outcome :=
  initWith Part001.processInput DEFAULT_SVG_HREF p.

Definition generateClick (now : Z) (dateString : jsstring) (p : Page) : Page :=
  generateClickWith Part001.processInput Part001.saveHistory now dateString p.

Definition pasteClick (clipboard : option jsstring) (p : Page) : Page * bool :=
  pasteClickWith Part001.processInput clipboard p.

(** The listener of the [loadHistory] event: [detail] is the id the clicked
    entry dispatched.  The history is read at its declared type; the
    listener is not modelled on a stored value that is not an array of
    entries. *)
Definition loadHistory (detail : Z) (p : Page) : option outcome :=
  match asItems (getHistory p) with
  | Some history =>
      Some match findById detail history with
           | Some item => loadItemWith Part001.processInput item p
           | None => Returns p
           end
  | None => None
  end.

(** The address [fetchUrl] requests: the proxy followed by the escaped
    URL. *)
Definition targetUrl (url : jsstring) : completion jsstring :=
  let* q := encodeURIComponent url in Normal (CORS_PROXY ++ q).

Section Fetch.

(** [String.prototype.toLowerCase], which follows the case mappings of
    Unicode, is left as a parameter. *)
Variable toLowerCase : jsstring -> jsstring.

(** [fetchUrl], modelled by the page it leaves: every exception is caught,
    and a fetched text is processed and then recorded as by the Generate
    button. *)
Definition fetchUrl (now : Z) (dateString : jsstring) (url : jsstring)
    (respond : jsstring -> option Response) (p : Page) : Page :=
  match trim url with
  | [] => p
  | c :: r =>
      match targetUrl (c :: r) with
      | Throw _ => p
      | Normal target =>
          match respond target with
          | None => p
          | Some res =>
              if negb (ok res) then p
              else if negb (includes SVG_OPEN (toLowerCase (body res))) then p
              else generateClick now dateString (setSvgInput (body res) p)
          end
      end
  end.

End Fetch.

End Part001Page.

(** ** Class lists and [switchTab] *)

(** A class list ([DOMTokenList]) is an ordered set of tokens. *)
Definition contains (t : string) (l : list string) : bool :=
  existsb (String.eqb t) l.

(** [classList.add(t)]. *)
Definition classAdd (t : string) (l : list string) : list string :=
  if contains t l then l else l ++ [t].

(** [classList.remove(t)]. *)
Definition classRemove (t : string) (l : list string) : list string :=
  List.filter (fun x => negb (String.eqb x t)) l.

(** Replacing within an ordered set: the first instance of either token
    becomes the new token, every other instance is removed. *)
Fixpoint replaceWithin (old new : string) (l : list string) : list string :=
  match l with
  | [] => []
  | x :: r =>
      if String.eqb x old || String.eqb x new
      then new :: classRemove old (classRemove new r)
      else x :: replaceWithin old new r
  end.

(** [classList.replace(old, new)]: nothing happens when [old] is not in the
    list. *)
Definition classReplace (old new : string) (l : list string) : list string :=
  if contains old l then replaceWithin old new l else l.

(** The class lists of the two tab buttons and of the two input groups. *)
Record Tabs := {
  tabCode : list string;
  tabUrl : list string;
  groupCode : list string;
  groupUrl : list string
}.

(** The argument of [switchTab]. *)
Inductive tab :=
| TabCode
| TabUrl.

Module MainTsTabs.

Definition switchTab (t : tab) (x : Tabs) : Tabs :=
  match t with
  | TabCode =>
      {| tabCode :=
           classAdd "border-b-2"
             (classReplace "border-transparent" "border-blue-500"
                (classReplace "text-zinc-400" "text-blue-400" (tabCode x)));
         tabUrl :=
           classRemove "border-blue-500"
             (classRemove "border-b-2"
                (classReplace "text-blue-400" "text-zinc-400" (tabUrl x)));
         groupCode := classRemove "hidden" (groupCode x);
         groupUrl := classAdd "hidden" (groupUrl x) |}
  | TabUrl =>
      {| tabUrl :=
           classAdd "border-blue-500"
             (classAdd "border-b-2"
                (classReplace "text-zinc-400" "text-blue-400" (tabUrl x)));
         tabCode :=
           classRemove "border-blue-500"
             (classRemove "border-b-2"
                (classReplace "text-blue-400" "text-zinc-400" (tabCode x)));
         groupUrl := classRemove "hidden" (groupUrl x);
         groupCode := classAdd "hidden" (groupCode x) |}
  end.

End MainTsTabs.

(** In part_001 the URL tab button is commented out. *)
Module Part001Tabs.

Definition switchTab (t : tab) (x : Tabs) : Tabs :=
  match t with
  | TabCode =>
      {| tabCode :=
           classReplace "border-transparent" "border-blue-500"
             (classReplace "text-zinc-400" "text-blue-400" (tabCode x));
         tabUrl := tabUrl x;
         groupCode := classRemove "hidden" (groupCode x);
         groupUrl := classAdd "hidden" (groupUrl x) |}
  | TabUrl =>
      {| tabCode :=
           classReplace "border-blue-500" "border-transparent"
             (classReplace "text-blue-400" "text-zinc-400" (tabCode x));
         tabUrl := tabUrl x;
         groupUrl := classRemove "hidden" (groupUrl x);
         groupCode := classAdd "hidden" (groupCode x) |}
  end.

End Part001Tabs.

(** * Statements: predicates and sample data *)

(** The two replacements [generate] applies to the escaped text. *)
Definition requote (e : jsstring) : jsstring :=
  replaceAllChar 34 PCT22 (replaceAllChar 39 PCT27 e).

(** Well-formed UTF-16: every surrogate belongs to a pair. *)
Fixpoint wellFormed (s : jsstring) : bool :=
  match s with
  | [] => true
  | c :: r =>
      if isLowSurrogate c then false
      else if isHighSurrogate c then
        match r with
        | k :: r' => isLowSurrogate k && wellFormed r'
        | [] => false
        end
      else wellFormed r
  end.

(** Every white-space code unit is a space, and no two are adjacent. *)
Fixpoint singleSpaces (afterSpace : bool) (s : jsstring) : bool :=
  match s with
  | [] => true
  | c :: r =>
      if isWhiteSpace c then (c =? 32) && negb afterSpace && singleSpaces true r
      else singleSpaces false r
  end.

Definition noLineBreaks (s : jsstring) : bool :=
  forallb (fun c => negb ((c =? 10) || (c =? 13))) s.

(** A canonical string: no line breaks, no runs of white space other than
    single spaces, already trimmed. *)
Definition canonical (s : jsstring) : bool :=
  noLineBreaks s && singleSpaces false s && str_eqb (trim s) s.

Definition noWhiteSpace (s : jsstring) : bool :=
  forallb (fun c => negb (isWhiteSpace c)) s.

(** Whether the text ends inside a run of white space. *)
Fixpoint endsInRun (inRun : bool) (s : jsstring) : bool :=
  match s with
  | [] => inRun
  | c :: r => endsInRun (isWhiteSpace c) r
  end.

Definition noQuote (s : jsstring) : bool := forallb (fun c => negb (c =? 34)) s.

(** The icon link of the example of the specification, around an
    arbitrary [href] value. *)
Definition iconLink (x : jsstring) : jsstring :=
  lit "<link rel=" ++ [34] ++ lit "icon" ++ [34] ++ lit " href=" ++ [34] ++ x
  ++ [34] ++ lit " />".

(** A link tag with two attributes whose names end in [href]: the value of
    [data-href] is [A], the value of [href] is [B]. *)
Definition twoHrefLink : jsstring :=
  Eval cbv in (lit "<link data-href=" ++ [34] ++ lit "A" ++ [34] ++ lit " href="
               ++ [34] ++ lit "B" ++ [34] ++ lit ">").

(** A page with the given input text, no output and an empty storage. *)
Definition pageWith (input : jsstring) : Page :=
  {| svgInput := input; outputCode := []; previewImg := []; pageLink := None;
     localStorage := ∅ |}.

(** A successful parse leaves a strictly shorter text. *)
Definition consumes {A} (n : nat) (p : parsed A) : Prop :=
  forall a r, p = Parsed a r -> (length r < n)%nat.

(** More fuel does not change a verdict. *)
Definition stable {A} (p q : parsed A) : Prop := p <> OutOfFuel -> q = p.

(** The digits of a number start with a digit, and with a zero only when
    they are that zero alone. *)
Definition integerDigits (ds : jsstring) : Prop :=
  exists d r, ds = d :: r /\ isDigit d = true
              /\ (d =? 48) && negb (bool_decide (r = [])) = false.

(** The strings of an entry are sequences of code units. *)
Definition wf_item (e : HistoryItem) : Prop :=
  wf_string (svg e) /\ wf_string (code e) /\ wf_string (date e).

(** The elements of an array, separated by commas. *)
Fixpoint elementsText (l : list json) : jsstring :=
  match l with
  | [] => []
  | [x] => JSON_stringify x
  | x :: r => JSON_stringify x ++ [44] ++ elementsText r
  end.

(** The array after [unshift] and the conditional [pop], on entries. *)
Definition recordItem (entry : HistoryItem) (items : list HistoryItem)
    : list HistoryItem :=
  let items := entry :: items in
  if 50 <? Z.of_nat (length items) then removelast items else items.

(** The texts of the two fields are sequences of code units. *)
Definition wf_page (p : Page) : Prop :=
  wf_string (svgInput p) /\ wf_string (outputCode p).

(** The entry [saveHistory] builds. *)
Definition newEntry (now : Z) (dateString : jsstring) (p : Page) : HistoryItem :=
  {| id := now; svg := trim (svgInput p); code := trim (outputCode p);
     date := dateString |}.

(** What the history is after a call of [saveHistory] (part_001). *)
Definition recorded (now : Z) (dateString : jsstring) (p : Page)
    (items : list HistoryItem) : list HistoryItem :=
  match trim (svgInput p) with
  | [] => items
  | _ :: _ =>
      if match items with
         | [] => false
         | e :: _ => str_eqb (svg e) (trim (svgInput p))
         end
      then items
      else recordItem (newEntry now dateString p) items
  end.

(** One recording: the text in the input field, the clock reading and the
    date string at the call. *)
Record Call := {
  text : jsstring;
  clock : Z;
  stamp : jsstring
}.

(** The page [p] once the user has edited the input field, which now
    reads [t]. *)
Definition withInput (t : jsstring) (p : Page) : Page :=
  {| svgInput := t; outputCode := outputCode p; previewImg := previewImg p;
     pageLink := pageLink p; localStorage := localStorage p |}.

(** The user sets the input field and [saveHistory] runs, call after
    call (part_001). *)
Definition recordAll (calls : list Call) (p : Page) : Page :=
  fold_left (fun p c => Part001.saveHistory (clock c) (stamp c) (withInput (text c) p))
    calls p.

(** The entry a call records, [output] being the text of the output field. *)
Definition entryOf (output : jsstring) (c : Call) : HistoryItem :=
  {| id := clock c; svg := trim (text c); code := trim output; date := stamp c |}.

(** The text is not blank; text and date string are sequences of code
    units. *)
Definition validCall (c : Call) : Prop :=
  trim (text c) <> [] /\ wf_string (text c) /\ wf_string (stamp c).

(** No text equals the one recorded just before it. *)
Fixpoint noRepeat (prev : option jsstring) (svgs : list jsstring) : Prop :=
  match svgs with
  | [] => True
  | s :: r => prev <> Some s /\ noRepeat (Some s) r
  end.

Definition isCodeUnits (s : jsstring) : bool :=
  forallb (fun c => (0 <=? c) && (c <? 65536)) s.



Definition sampleCall (s : string) (t : Z) : Call :=
  {| text := lit s; clock := t; stamp := lit "today" |}.

(** A page whose storage holds the given text under the history key. *)
Definition pageStoring (t : jsstring) : Page := setItem STORAGE_KEY t (pageWith []).

Definition sampleItem : HistoryItem :=
  {| id := 1000; svg := lit "<svg/>"; code := lit "<link />"; date := lit "today" |}.

(** The code units [encodeURIComponent] can write: the unescaped set and the
    percent sign of an escape. *)
Definition uriOutput (c : Z) : bool := uriUnescaped c || (c =? 37).

(** The code units of the text after the prefix of a generated data URI:
    alphanumerics, the marks [-_.!~*()] and the percent sign. *)
Definition dataUriChar (c : Z) : bool :=
  isAlnum c || (c =? 45) || (c =? 95) || (c =? 46) || (c =? 33) || (c =? 126)
  || (c =? 42) || (c =? 40) || (c =? 41) || (c =? 37).

(** The page after [processInput], up to the icon link, when the encoder
    gave the result [e] and the unwrapping steps gave [decoded], the flag
    telling that the input was a data URI. *)
Definition processed (e : Encoded) (decoded : jsstring) (isDataUri : bool) (p : Page)
    : Page :=
  setOutput (tag e) (dataUri e) (if isDataUri then setSvgInput decoded p else p).

(** The id of the entry is a safe integer, which [JSON.stringify] writes
    and [JSON.parse] reads back exactly. *)
Definition safeId (e : HistoryItem) : Prop :=
  - 9007199254740991 <= id e <= 9007199254740991.

(** * Proofs *)

(** ** Strings *)

Lemma str_eqb_eq (a b : jsstring) : str_eqb a b = true <-> a = b.
Proof.
  revert b; induction a as [|x a IH]; intros [|y b]; simpl; try easy.
  rewrite andb_true_iff, Z.eqb_eq, IH. split; [intros [-> ->]|intros [= -> ->]]; auto.
Qed.

Lemma str_eqb_refl (a : jsstring) : str_eqb a a = true.
Proof. by apply str_eqb_eq. Qed.

Lemma str_eqb_neq (a b : jsstring) : a <> b -> str_eqb a b = false.
Proof.
  intros H. destruct (str_eqb a b) eqn:E; [|done]. by apply str_eqb_eq in E.
Qed.

Lemma startsWith_app (p t : jsstring) : startsWith p (p ++ t) = true.
Proof. induction p as [|a p IH]; simpl; [done|]. by rewrite Z.eqb_refl. Qed.

Lemma startsWith_inv (p s : jsstring) :
  startsWith p s = true -> s = p ++ drop (length p) s.
Proof.
  revert s; induction p as [|a p IH]; intros [|b s]; simpl; try easy.
  rewrite andb_true_iff, Z.eqb_eq. intros [-> H]. f_equal. by apply IH.
Qed.

Lemma replaceFirst_prefix (p rep t : jsstring) :
  replaceFirst p rep (p ++ t) = rep ++ t.
Proof.
  destruct (p ++ t) eqn:E; simpl.
  - destruct p; [|done]. simpl in *. by subst.
  - rewrite <- E, startsWith_app. by rewrite drop_app_length.
Qed.

Lemma trimStart_keep (c : Z) (r : jsstring) :
  isWhiteSpace c = false -> trimStart (c :: r) = c :: r.
Proof. simpl. by intros ->. Qed.

Lemma trimEnd_keep (s : jsstring) (c : Z) :
  isWhiteSpace c = false -> trimEnd (s ++ [c]) = s ++ [c].
Proof.
  intros H. unfold trimEnd. rewrite rev_app_distr. simpl. rewrite H.
  simpl. by rewrite rev_involutive.
Qed.

Lemma trimStart_all_ws (s : jsstring) :
  trimStart s = [] <-> forallb isWhiteSpace s = true.
Proof.
  induction s as [|c s IH]; simpl; [done|].
  destruct (isWhiteSpace c); simpl; [done|]. split; discriminate.
Qed.

Lemma trimStart_head (s r : jsstring) (c : Z) :
  trimStart s = c :: r -> isWhiteSpace c = false.
Proof.
  induction s as [|x s IH]; simpl; [done|].
  destruct (isWhiteSpace x) eqn:E; [done|]. by intros [= <- _].
Qed.

Lemma forallb_rev {A} (f : A -> bool) (l : list A) :
  forallb f (rev l) = forallb f l.
Proof.
  induction l as [|x l IH]; simpl; [done|].
  rewrite forallb_app, IH. simpl. rewrite andb_true_r. apply andb_comm.
Qed.

Lemma trim_all_ws (s : jsstring) :
  trim s = [] <-> forallb isWhiteSpace s = true.
Proof.
  unfold trim, trimEnd. rewrite <- trimStart_all_ws. split.
  - intros H. apply (f_equal (@rev Z)) in H. rewrite rev_involutive in H. simpl in H.
    apply trimStart_all_ws in H. rewrite forallb_rev in H.
    destruct (trimStart s) as [|c r] eqn:E; [done|].
    apply trimStart_head in E. simpl in H. by rewrite E in H.
  - by intros ->.
Qed.

Lemma trim_no_ws (s : jsstring) :
  forallb (fun c => negb (isWhiteSpace c)) s = true -> trim s = s.
Proof.
  intros H. unfold trim.
  assert (Hs : trimStart s = s).
  { destruct s as [|c r]; [done|]. simpl in *.
    apply andb_true_iff in H as [H _]. by destruct (isWhiteSpace c). }
  rewrite Hs. destruct (rev s) as [|c r] eqn:E.
  - unfold trimEnd. rewrite E. simpl. apply (f_equal (@rev Z)) in E.
    by rewrite rev_involutive in E.
  - apply (f_equal (@rev Z)) in E. rewrite rev_involutive in E. simpl in E.
    subst s. apply trimEnd_keep. rewrite forallb_app in H. simpl in H.
    apply andb_true_iff in H as [_ H]. by destruct (isWhiteSpace c).
Qed.

(** ** Percent escapes *)

Ltac zbool :=
  repeat match goal with
    | |- context [Z.ltb ?a ?b] => destruct (Z.ltb_spec a b); try lia
    | |- context [Z.leb ?a ?b] => destruct (Z.leb_spec a b); try lia
    | |- context [Z.eqb ?a ?b] => destruct (Z.eqb_spec a b); try lia
    end.

Lemma hexValue_upper (d : Z) : 0 <= d < 16 -> hexValue (hexDigitUpper d) = Some d.
Proof.
  intros H. unfold hexValue, hexDigitUpper. zbool; simpl; f_equal; lia.
Qed.

Lemma hexByte_percentEncode (b : Z) :
  0 <= b < 256 ->
  hexByte (hexDigitUpper (b / 16)) (hexDigitUpper (b mod 16)) = Some b.
Proof.
  intros H. unfold hexByte. rewrite !hexValue_upper by lia. f_equal. lia.
Qed.

Lemma continuationByte_percentEncode (b : Z) :
  128 <= b <= 191 ->
  continuationByte 37 (hexDigitUpper (b / 16)) (hexDigitUpper (b mod 16)) = Some b.
Proof.
  intros H. unfold continuationByte. simpl. rewrite hexByte_percentEncode by lia.
  zbool. done.
Qed.

Lemma Decode_literal (c : Z) (r : jsstring) :
  c <> 37 -> Decode (c :: r) = let* t := Decode r in Normal (c :: t).
Proof. intros H. simpl. destruct (Z.eqb_spec c 37); [done|]. done. Qed.

Lemma Decode_escape1 (b : Z) (r : jsstring) :
  0 <= b < 128 ->
  Decode (percentEncode b ++ r) = let* t := Decode r in Normal (b :: t).
Proof.
  intros H. unfold percentEncode. simpl. rewrite hexByte_percentEncode by lia.
  zbool. done.
Qed.

Lemma Decode_escape2 (b1 b2 : Z) (r : jsstring) :
  194 <= b1 < 224 -> 128 <= b2 <= 191 ->
  Decode (percentEncode b1 ++ percentEncode b2 ++ r) =
  let* t := Decode r in Normal (utf16Encode ((b1 - 192) * 64 + (b2 - 128)) ++ t).
Proof.
  intros H1 H2. unfold percentEncode. simpl.
  rewrite hexByte_percentEncode by lia.
  rewrite continuationByte_percentEncode by lia.
  zbool. done.
Qed.

Lemma Decode_escape3 (b1 b2 b3 : Z) (r : jsstring) :
  224 <= b1 < 240 -> 128 <= b2 <= 191 -> 128 <= b3 <= 191 ->
  let v := (b1 - 224) * 4096 + (b2 - 128) * 64 + (b3 - 128) in
  2048 <= v -> ~ 55296 <= v <= 57343 ->
  Decode (percentEncode b1 ++ percentEncode b2 ++ percentEncode b3 ++ r) =
  let* t := Decode r in Normal (utf16Encode v ++ t).
Proof.
  intros H1 H2 H3 v Hv Hs. unfold percentEncode. simpl.
  rewrite hexByte_percentEncode by lia.
  rewrite !continuationByte_percentEncode by lia.
  fold v. zbool; simpl; try done; lia.
Qed.

Lemma Decode_escape4 (b1 b2 b3 b4 : Z) (r : jsstring) :
  240 <= b1 < 248 -> 128 <= b2 <= 191 -> 128 <= b3 <= 191 -> 128 <= b4 <= 191 ->
  let v := (b1 - 240) * 262144 + (b2 - 128) * 4096 + (b3 - 128) * 64 + (b4 - 128) in
  65536 <= v <= 1114111 ->
  Decode (percentEncode b1 ++ percentEncode b2 ++ percentEncode b3
          ++ percentEncode b4 ++ r) =
  let* t := Decode r in Normal (utf16Encode v ++ t).
Proof.
  intros H1 H2 H3 H4 v Hv. unfold percentEncode. simpl.
  rewrite hexByte_percentEncode by lia.
  rewrite !continuationByte_percentEncode by lia.
  fold v. zbool; simpl; try done; lia.
Qed.

(** A code point that is not a surrogate decodes to itself. *)
Lemma Decode_escapeCodePoint (v : Z) (r : jsstring) :
  0 <= v <= 1114111 -> ~ 55296 <= v <= 57343 ->
  Decode (escapeCodePoint v ++ r) =
  let* t := Decode r in Normal (utf16Encode v ++ t).
Proof.
  intros Hv Hs. unfold escapeCodePoint, utf8Encode.
  destruct (Z.ltb_spec v 128); [|destruct (Z.ltb_spec v 2048);
    [|destruct (Z.ltb_spec v 65536)]]; cbn [flat_map]; rewrite ?app_nil_r, <- ?app_assoc.
  - rewrite Decode_escape1 by lia. unfold utf16Encode. zbool. done.
  - rewrite Decode_escape2 by lia.
    by replace ((192 + v / 64 - 192) * 64 + (128 + v mod 64 - 128)) with v by lia.
  - rewrite Decode_escape3 by lia.
    by replace ((224 + v / 4096 - 224) * 4096 + (128 + (v / 64) mod 64 - 128) * 64
                + (128 + v mod 64 - 128)) with v by lia.
  - rewrite Decode_escape4 by lia.
    by replace ((240 + v / 262144 - 240) * 262144
                + (128 + (v / 4096) mod 64 - 128) * 4096
                + (128 + (v / 64) mod 64 - 128) * 64
                + (128 + v mod 64 - 128)) with v by lia.
Qed.

Lemma utf16Encode_unit (c : Z) : c < 65536 -> utf16Encode c = [c].
Proof. intros H. unfold utf16Encode. zbool. done. Qed.

Lemma utf16Encode_pair (hi lo : Z) :
  isHighSurrogate hi = true -> isLowSurrogate lo = true ->
  utf16Encode (pairCodePoint hi lo) = [hi; lo].
Proof.
  unfold isHighSurrogate, isLowSurrogate, utf16Encode, pairCodePoint.
  rewrite !andb_true_iff, !Z.leb_le. intros [? ?] [? ?]. zbool.
  f_equal; [|f_equal]; lia.
Qed.

(** ** The encoding step and its inverse *)

Lemma requote_app (x y : jsstring) : requote (x ++ y) = requote x ++ requote y.
Proof. unfold requote, replaceAllChar. by rewrite !flat_map_app. Qed.

Lemma requote_cons (c : Z) (t : jsstring) : requote (c :: t) = requote [c] ++ requote t.
Proof. apply (requote_app [c] t). Qed.

Lemma hexDigitUpper_range (d : Z) :
  0 <= d < 16 -> 48 <= hexDigitUpper d <= 57 \/ 65 <= hexDigitUpper d <= 70.
Proof. intros H. unfold hexDigitUpper. zbool; lia. Qed.

Lemma requote_plain (c : Z) : c <> 34 -> c <> 39 -> requote [c] = [c].
Proof.
  intros H1 H2. unfold requote, replaceAllChar. simpl.
  destruct (Z.eqb_spec c 39); [done|]. simpl.
  destruct (Z.eqb_spec c 34); [done|]. done.
Qed.

Lemma requote_percentEncode (b : Z) :
  0 <= b < 256 -> requote (percentEncode b) = percentEncode b.
Proof.
  intros H. unfold percentEncode.
  pose proof (hexDigitUpper_range (b / 16) ltac:(lia)).
  pose proof (hexDigitUpper_range (b mod 16) ltac:(lia)).
  rewrite requote_cons, (requote_cons (hexDigitUpper (b / 16))).
  rewrite !requote_plain by lia. done.
Qed.

Lemma requote_escapeCodePoint (v : Z) :
  0 <= v <= 1114111 -> requote (escapeCodePoint v) = escapeCodePoint v.
Proof.
  intros H. unfold escapeCodePoint, utf8Encode.
  zbool; cbn [flat_map]; rewrite ?requote_app, ?requote_percentEncode by lia; done.
Qed.

Lemma uriUnescaped_cases (c : Z) :
  uriUnescaped c = true ->
  c <> 37 /\ c <> 34 /\ isHighSurrogate c = false /\ isLowSurrogate c = false
  /\ isWhiteSpace c = false.
Proof.
  unfold uriUnescaped, isAlnum, isHighSurrogate, isLowSurrogate, isWhiteSpace.
  intros H. repeat split; zbool; simpl in *; try done; lia.
Qed.

Lemma Decode_requote_unescaped (c : Z) (r : jsstring) :
  uriUnescaped c = true ->
  Decode (requote [c] ++ r) = let* t := Decode r in Normal (c :: t).
Proof.
  intros H. apply uriUnescaped_cases in H as (H37 & H34 & _).
  destruct (Z.eq_dec c 39) as [->|H39].
  - apply (Decode_escape1 39). lia.
  - rewrite requote_plain by done. by apply Decode_literal.
Qed.

Lemma list_pair_ind {A} (P : list A -> Prop) :
  P [] ->
  (forall x l, P l -> (forall y l', l = y :: l' -> P l') -> P (x :: l)) ->
  forall l, P l.
Proof.
  intros H0 Hstep l.
  enough (H : P l /\ (forall y l', l = y :: l' -> P l')) by apply H.
  induction l as [|x l [IH1 IH2]]; split; try done.
  - by apply Hstep.
  - by intros y l' [= <- <-].
Qed.

Lemma list_strong_ind {A} (P : list A -> Prop) :
  (forall l, (forall l', (length l' < length l)%nat -> P l') -> P l) ->
  forall l, P l.
Proof.
  intros H l. remember (length l) as n eqn:E. revert l E.
  induction n as [n IH] using lt_wf_ind. intros l ->. apply H.
  intros l' Hl. by apply (IH (length l')).
Qed.

Lemma surrogate_bounds (c : Z) :
  (isHighSurrogate c = true <-> 55296 <= c <= 56319)
  /\ (isLowSurrogate c = true <-> 56320 <= c <= 57343).
Proof. unfold isHighSurrogate, isLowSurrogate. rewrite !andb_true_iff, !Z.leb_le. done. Qed.

(** Decoding inverts the encoding step of [generate]. *)
Lemma Decode_requote_encode (s : jsstring) :
  wf_string s -> forall e, encodeURIComponent s = Normal e ->
  Decode (requote e) = Normal s.
Proof.
  unfold encodeURIComponent.
  induction s as [|c s IH1 IH2] using list_pair_ind; intros Hwf e He.
  - simpl in He. by injection He as <-.
  - apply Forall_cons in Hwf as [Hc Hwf]. unfold code_unit in Hc. simpl in He.
    destruct (uriUnescaped c) eqn:Eu.
    { destruct (Encode uriUnescaped s) as [t|] eqn:Et; [|done].
      simpl in He. injection He as <-.
      rewrite requote_cons, Decode_requote_unescaped by done.
      by rewrite (IH1 Hwf t eq_refl). }
    destruct (isLowSurrogate c) eqn:El; [done|].
    destruct (isHighSurrogate c) eqn:Eh; simpl in He.
    + destruct s as [|k r]; [done|].
      destruct (isLowSurrogate k) eqn:Ek; [|done].
      destruct (Encode uriUnescaped r) as [t|] eqn:Et; [|done].
      simpl in He. injection He as <-.
      apply Forall_cons in Hwf as [Hk Hwf].
      pose proof (proj1 (proj1 (surrogate_bounds c)) Eh).
      pose proof (proj1 (proj2 (surrogate_bounds k)) Ek).
      rewrite requote_app, requote_escapeCodePoint by (unfold pairCodePoint; lia).
      rewrite Decode_escapeCodePoint by (unfold pairCodePoint; lia).
      rewrite (IH2 k r eq_refl Hwf t Et). simpl.
      by rewrite utf16Encode_pair.
    + destruct (Encode uriUnescaped s) as [t|] eqn:Et; [|done].
      simpl in He. injection He as <-.
      assert (~ 55296 <= c <= 57343).
      { intros Hr. destruct (Z.le_gt_cases c 56319).
        - assert (isHighSurrogate c = true) by (apply surrogate_bounds; lia). congruence.
        - assert (isLowSurrogate c = true) by (apply surrogate_bounds; lia). congruence. }
      rewrite requote_app, requote_escapeCodePoint by lia.
      rewrite Decode_escapeCodePoint by lia.
      rewrite (IH1 Hwf t eq_refl). simpl.
      by rewrite utf16Encode_unit by lia.
Qed.

(** [encodeURIComponent] throws exactly on an unpaired surrogate. *)
Lemma encodeURIComponent_wellFormed (s : jsstring) :
  wellFormed s = true <-> exists e, encodeURIComponent s = Normal e.
Proof.
  unfold encodeURIComponent.
  induction s as [|c s IH1 IH2] using list_pair_ind; simpl.
  - split; eauto.
  - destruct (uriUnescaped c) eqn:Eu.
    { apply uriUnescaped_cases in Eu as (_ & _ & -> & -> & _). rewrite IH1.
      split; intros [e He].
      - rewrite He. simpl. eauto.
      - destruct (Encode uriUnescaped s); [eauto|done]. }
    destruct (isLowSurrogate c); [split; [done|by intros [? ?]]|].
    destruct (isHighSurrogate c); simpl.
    + destruct s as [|k r]; [split; [done|by intros [? ?]]|].
      destruct (isLowSurrogate k); simpl; [|split; [done|by intros [? ?]]].
      rewrite (IH2 k r eq_refl). split; intros [e He].
      * rewrite He. simpl. eauto.
      * destruct (Encode uriUnescaped r); [eauto|done].
    + rewrite IH1. split; intros [e He].
      * rewrite He. simpl. eauto.
      * destruct (Encode uriUnescaped s); [eauto|done].
Qed.

Lemma noWhiteSpace_app (x y : jsstring) :
  noWhiteSpace (x ++ y) = noWhiteSpace x && noWhiteSpace y.
Proof. apply forallb_app. Qed.

Lemma noWhiteSpace_percentEncode (b : Z) :
  0 <= b < 256 -> noWhiteSpace (percentEncode b) = true.
Proof.
  intros H. unfold percentEncode, noWhiteSpace. simpl.
  pose proof (hexDigitUpper_range (b / 16) ltac:(lia)).
  pose proof (hexDigitUpper_range (b mod 16) ltac:(lia)).
  unfold isWhiteSpace; zbool; done.
Qed.

Lemma noWhiteSpace_escapeCodePoint (v : Z) :
  0 <= v <= 1114111 -> noWhiteSpace (escapeCodePoint v) = true.
Proof.
  intros H. unfold escapeCodePoint, utf8Encode.
  zbool; cbn [flat_map]; rewrite ?noWhiteSpace_app, ?noWhiteSpace_percentEncode by lia;
    done.
Qed.

Lemma noWhiteSpace_requote_unescaped (c : Z) :
  uriUnescaped c = true -> noWhiteSpace (requote [c]) = true.
Proof.
  intros H. apply uriUnescaped_cases in H as (H37 & H34 & _ & _ & Hw).
  destruct (Z.eq_dec c 39) as [->|H39]; [done|].
  rewrite requote_plain by done. unfold noWhiteSpace. simpl. by rewrite Hw.
Qed.

(** The escaped text holds no white space. *)
Lemma noWhiteSpace_requote_encode (s : jsstring) :
  wf_string s -> forall e, encodeURIComponent s = Normal e ->
  noWhiteSpace (requote e) = true.
Proof.
  unfold encodeURIComponent.
  induction s as [|c s IH1 IH2] using list_pair_ind; intros Hwf e He.
  - simpl in He. by injection He as <-.
  - apply Forall_cons in Hwf as [Hc Hwf]. unfold code_unit in Hc. simpl in He.
    destruct (uriUnescaped c) eqn:Eu.
    { destruct (Encode uriUnescaped s) as [t|] eqn:Et; [|done].
      simpl in He. injection He as <-.
      rewrite requote_cons, noWhiteSpace_app, noWhiteSpace_requote_unescaped by done.
      by rewrite (IH1 Hwf t eq_refl). }
    destruct (isLowSurrogate c) eqn:El; [done|].
    destruct (isHighSurrogate c) eqn:Eh; simpl in He.
    + destruct s as [|k r]; [done|].
      destruct (isLowSurrogate k) eqn:Ek; [|done].
      destruct (Encode uriUnescaped r) as [t|] eqn:Et; [|done].
      simpl in He. injection He as <-.
      apply Forall_cons in Hwf as [Hk Hwf].
      pose proof (proj1 (proj1 (surrogate_bounds c)) Eh).
      pose proof (proj1 (proj2 (surrogate_bounds k)) Ek).
      rewrite requote_app, requote_escapeCodePoint by (unfold pairCodePoint; lia).
      rewrite noWhiteSpace_app, noWhiteSpace_escapeCodePoint
        by (unfold pairCodePoint; lia).
      by rewrite (IH2 k r eq_refl Hwf t Et).
    + destruct (Encode uriUnescaped s) as [t|] eqn:Et; [|done].
      simpl in He. injection He as <-.
      rewrite requote_app, requote_escapeCodePoint by lia.
      rewrite noWhiteSpace_app, noWhiteSpace_escapeCodePoint by lia.
      by rewrite (IH1 Hwf t eq_refl).
Qed.

(** ** Minimising *)

Lemma removeLineBreaks_filter (s : jsstring) :
  removeLineBreaks s = filter (fun c => c <> 10 /\ c <> 13) s.
Proof.
  induction s as [|c s IH1 IH2] using list_pair_ind; [done|].
  simpl. destruct (Z.eqb_spec c 13) as [->|H13].
  - rewrite filter_cons_False by lia. destruct s as [|d r]; [done|].
    destruct (Z.eqb_spec d 10) as [->|H10].
    + rewrite filter_cons_False by lia. apply (IH2 _ _ eq_refl).
    + done.
  - destruct (Z.eqb_spec c 10) as [->|H10].
    + by rewrite filter_cons_False by lia.
    + rewrite filter_cons_True by lia. by f_equal.
Qed.

Lemma removeLineBreaks_id (s : jsstring) :
  noLineBreaks s = true -> removeLineBreaks s = s.
Proof.
  intros H. rewrite removeLineBreaks_filter.
  induction s as [|c s IH]; [done|]. simpl in H.
  apply andb_true_iff in H as [Hc H].
  rewrite filter_cons_True; [by rewrite IH|].
  destruct (Z.eqb_spec c 10), (Z.eqb_spec c 13); simpl in *; try done; lia.
Qed.

Lemma collapseRuns_id (b : bool) (s : jsstring) :
  singleSpaces b s = true -> collapseRuns b s = s.
Proof.
  revert b; induction s as [|c s IH]; intros b; simpl; [done|].
  destruct (isWhiteSpace c).
  - rewrite !andb_true_iff, Z.eqb_eq, negb_true_iff. intros [[-> ->] H].
    by rewrite IH.
  - intros H. by rewrite IH.
Qed.

Lemma minimize_canonical (s : jsstring) : canonical s = true -> minimize s = s.
Proof.
  unfold canonical, minimize, collapseWhitespace.
  rewrite !andb_true_iff. intros [[H1 H2] _].
  rewrite removeLineBreaks_id by done. by apply collapseRuns_id.
Qed.

Lemma collapseRuns_app (f : bool) (a b : jsstring) :
  collapseRuns f (a ++ b) = collapseRuns f a ++ collapseRuns (endsInRun f a) b.
Proof.
  revert f; induction a as [|c a IH]; intros f; [done|]. simpl.
  destruct (isWhiteSpace c).
  - rewrite IH. by destruct f.
  - by rewrite IH.
Qed.

Lemma collapseRuns_skip (w b : jsstring) :
  forallb isWhiteSpace w = true -> collapseRuns true (w ++ b) = collapseRuns true b.
Proof.
  induction w as [|c w IH]; [done|]. simpl.
  rewrite andb_true_iff. intros [-> H]. by apply IH.
Qed.

(** Text without white space is left as it is. *)
Lemma collapseWhitespace_plain (s : jsstring) :
  noWhiteSpace s = true -> collapseWhitespace s = s.
Proof.
  unfold collapseWhitespace, noWhiteSpace. induction s as [|c s IH]; [done|]. simpl.
  rewrite andb_true_iff, negb_true_iff. intros [-> H]. by rewrite IH.
Qed.

(** A maximal run of white space [w], between a text [a] that does not end
    with white space and a text [b] that does not start with white space,
    becomes one space. *)
Lemma collapseWhitespace_run (a w b : jsstring) :
  w <> [] -> forallb isWhiteSpace w = true ->
  endsInRun false a = false ->
  match b with [] => True | c :: _ => isWhiteSpace c = false end ->
  collapseWhitespace (a ++ w ++ b)
  = collapseWhitespace a ++ 32 :: collapseWhitespace b.
Proof.
  intros Hne Hw Ha Hb. unfold collapseWhitespace.
  rewrite collapseRuns_app, Ha. f_equal.
  destruct w as [|c w]; [done|]. simpl in *.
  apply andb_true_iff in Hw as [-> Hw]. rewrite collapseRuns_skip by done.
  f_equal. destruct b as [|d b]; [done|]. simpl. by rewrite Hb.
Qed.

Lemma collapseRuns_singleSpaces (b : bool) (s : jsstring) :
  singleSpaces b (collapseRuns b s) = true.
Proof.
  revert b; induction s as [|c s IH]; intros b; simpl; [done|].
  destruct (isWhiteSpace c) eqn:E.
  - destruct b; [apply IH|]. simpl. apply IH.
  - simpl. rewrite E. apply IH.
Qed.

Lemma trim_keep (c d : Z) (m : jsstring) :
  isWhiteSpace c = false -> isWhiteSpace d = false ->
  trim (c :: m ++ [d]) = c :: m ++ [d].
Proof.
  intros Hc Hd. unfold trim. rewrite trimStart_keep by done.
  by apply (trimEnd_keep (c :: m) d).
Qed.

(** *** Canonical strings are the fixed points of trimming and minimising *)

Lemma trimStart_suffix (s : jsstring) : exists w, s = w ++ trimStart s.
Proof.
  induction s as [|c s [w IH]]; [by exists []|]. simpl.
  destruct (isWhiteSpace c); [|by exists []].
  exists (c :: w). simpl. by rewrite <- IH.
Qed.

(** A trimmed text is empty, or one code unit that is not white space, or
    it starts and ends with such code units. *)
Lemma trim_shape (s : jsstring) :
  trim s = []
  \/ (exists h, trim s = [h] /\ isWhiteSpace h = false)
  \/ (exists h m l, trim s = h :: m ++ [l]
                    /\ isWhiteSpace h = false /\ isWhiteSpace l = false).
Proof.
  unfold trim, trimEnd.
  destruct (trimStart_suffix (rev (trimStart s))) as [w Hw].
  destruct (trimStart (rev (trimStart s))) as [|l v] eqn:Ev; [by left|].
  right. pose proof (trimStart_head _ _ _ Ev) as Hl.
  apply (f_equal (@rev Z)) in Hw. rewrite rev_involutive, rev_app_distr in Hw.
  cbn [rev] in *. destruct (rev v) as [|h m] eqn:Er.
  - left. exists l. by split.
  - right. exists h, m, l. split; [done|]. split; [|done].
    rewrite <- !app_assoc in Hw. by apply trimStart_head in Hw.
Qed.

Lemma noLineBreaks_collapseRuns (f : bool) (s : jsstring) :
  noLineBreaks (collapseRuns f s) = true.
Proof.
  revert f; induction s as [|c s IH]; intros f; [done|]. simpl.
  destruct (isWhiteSpace c) eqn:E.
  - destruct f; [apply IH|]. simpl. apply IH.
  - simpl. rewrite IH, andb_true_r. unfold isWhiteSpace in E.
    destruct (Z.eqb_spec c 10) as [->|]; [done|].
    destruct (Z.eqb_spec c 13) as [->|]; done.
Qed.

Lemma removeLineBreaks_app (a b : jsstring) :
  removeLineBreaks (a ++ b) = removeLineBreaks a ++ removeLineBreaks b.
Proof. rewrite !removeLineBreaks_filter. apply filter_app. Qed.

Lemma not_ws_not_line_break (c : Z) :
  isWhiteSpace c = false -> c <> 10 /\ c <> 13.
Proof. intros H. split; by intros ->. Qed.

Lemma minimize_keeps_ends (h l : Z) (m : jsstring) :
  isWhiteSpace h = false -> isWhiteSpace l = false ->
  exists m', minimize (h :: m ++ [l]) = h :: m' ++ [l].
Proof.
  intros Hh Hl. unfold minimize, collapseWhitespace.
  pose proof (not_ws_not_line_break h Hh) as [? ?].
  pose proof (not_ws_not_line_break l Hl) as [? ?].
  change (h :: m ++ [l]) with ([h] ++ m ++ [l]).
  rewrite !removeLineBreaks_app.
  assert (E1 : removeLineBreaks [h] = [h]).
  { rewrite removeLineBreaks_filter. by rewrite filter_cons_True. }
  assert (E2 : removeLineBreaks [l] = [l]).
  { rewrite removeLineBreaks_filter. by rewrite filter_cons_True. }
  rewrite E1, E2. simpl. rewrite Hh. rewrite collapseRuns_app. simpl. rewrite Hl.
  by eexists.
Qed.

Lemma minimize_unit (h : Z) : isWhiteSpace h = false -> minimize [h] = [h].
Proof.
  intros Hh. pose proof (not_ws_not_line_break h Hh) as [? ?].
  unfold minimize, collapseWhitespace. rewrite removeLineBreaks_filter.
  rewrite filter_cons_True by done. simpl. by rewrite Hh.
Qed.

Lemma trim_minimize_trim (s : jsstring) : trim (minimize (trim s)) = minimize (trim s).
Proof.
  destruct (trim_shape s) as [->|[(h & -> & Hh)|(h & m & l & -> & Hh & Hl)]].
  - done.
  - rewrite minimize_unit by done. unfold trim, trimEnd. simpl. rewrite Hh. simpl.
    by rewrite Hh.
  - destruct (minimize_keeps_ends h l m Hh Hl) as [m' ->]. by apply trim_keep.
Qed.

(** The canonical strings are exactly the texts that trimming and
    minimising leave as they are. *)
Lemma canonical_iff (c : jsstring) : canonical c = true <-> minimize (trim c) = c.
Proof.
  split.
  - intros H. pose proof (minimize_canonical c H) as Hm.
    unfold canonical in H. rewrite !andb_true_iff in H. destruct H as [_ Ht].
    apply str_eqb_eq in Ht. by rewrite Ht.
  - intros E. unfold canonical. rewrite !andb_true_iff. repeat split.
    + rewrite <- E. apply noLineBreaks_collapseRuns.
    + rewrite <- E. apply collapseRuns_singleSpaces.
    + apply str_eqb_eq. rewrite <- E at 1 2. by rewrite E, <- E, trim_minimize_trim.
Qed.

(** ** The encoder *)

Lemma normalize_nonempty (s : jsstring) (c : Z) (r : jsstring) :
  trim s = c :: r ->
  normalize s =
  let* u := unwrap (c :: r) in let* e := generate (fst u) in Normal (Generated e).
Proof. unfold normalize. by intros ->. Qed.

Lemma upToQuote_app (x post : jsstring) :
  noQuote x = true -> upToQuote (x ++ 34 :: post) = Some x.
Proof.
  induction x as [|c x IH]; simpl; [done|].
  rewrite andb_true_iff, negb_true_iff. intros [-> H]. by rewrite IH.
Qed.

Lemma match_href_found (pre x post : jsstring) :
  forallb (fun c => negb (c =? 104)) pre = true -> noQuote x = true ->
  match_href (pre ++ HREF_OPEN ++ x ++ 34 :: post) = Some x.
Proof.
  intros Hpre Hx. induction pre as [|c pre IH].
  - cbn. by rewrite drop_0, upToQuote_app.
  - simpl in Hpre. apply andb_true_iff in Hpre as [Hc Hpre].
    apply negb_true_iff in Hc. cbn [app match_href startsWith HREF_OPEN].
    rewrite Z.eqb_sym, Hc. cbn [andb]. by apply IH.
Qed.

Lemma match_href_no_quote (s : jsstring) : noQuote s = true -> match_href s = None.
Proof.
  induction s as [|c s IH]; [done|]. intros H.
  assert (Hs : noQuote s = true) by (simpl in H; by apply andb_true_iff in H as [_ ?]).
  cbn [match_href]. destruct (startsWith HREF_OPEN (c :: s)) eqn:E; [|by apply IH].
  apply startsWith_inv in E. rewrite E in H. unfold noQuote in H.
  rewrite forallb_app in H. by apply andb_true_iff in H as [? _].
Qed.

Lemma unwrapLink_no_quote (s : jsstring) : noQuote s = true -> unwrapLink s = s.
Proof.
  intros H. unfold unwrapLink. rewrite match_href_no_quote by done.
  by destruct (startsWith LINK_PREFIX s).
Qed.

Lemma startsWith_link_not_data (s : jsstring) :
  startsWith LINK_PREFIX s = true -> startsWith DATA_PREFIX s = false.
Proof. intros H. apply startsWith_inv in H. by rewrite H. Qed.

Lemma iconLink_shape (x : jsstring) :
  iconLink x =
  (lit "<link rel=" ++ [34] ++ lit "icon" ++ [34; 32]) ++ HREF_OPEN ++ x
  ++ 34 :: lit " />".
Proof. reflexivity. Qed.

Lemma trim_iconLink (x : jsstring) : trim (iconLink x) = iconLink x.
Proof.
  change (iconLink x) with
    (60 :: (lit "link rel=" ++ [34] ++ lit "icon" ++ [34] ++ lit " href=" ++ [34])
       ++ x ++ [34; 32; 47; 62]).
  change [34; 32; 47; 62] with ([34; 32; 47] ++ [62]).
  rewrite !app_assoc. by apply trim_keep.
Qed.

Lemma normalize_iconLink (x : jsstring) :
  noQuote x = true ->
  normalize (iconLink x) =
  let* u := unwrapDataUri x in let* e := generate (fst u) in Normal (Generated e).
Proof.
  intros Hx.
  assert (Hm : match_href (iconLink x) = Some x).
  { rewrite iconLink_shape. by apply match_href_found. }
  assert (Hu : unwrapLink (iconLink x) = x).
  { unfold unwrapLink. by rewrite Hm. }
  pose proof (trim_iconLink x) as Ht.
  change (iconLink x) with (60 :: tl (iconLink x)) in Ht at 2.
  rewrite (normalize_nonempty _ _ _ Ht). unfold unwrap.
  change (60 :: tl (iconLink x)) with (iconLink x). by rewrite Hu.
Qed.

Lemma normalize_trimmed_no_quote (x : jsstring) :
  x <> [] -> trim x = x -> noQuote x = true ->
  normalize x =
  let* u := unwrapDataUri x in let* e := generate (fst u) in Normal (Generated e).
Proof.
  intros Hne Ht Hx. destruct x as [|c r]; [done|].
  rewrite (normalize_nonempty _ _ _ Ht). unfold unwrap.
  by rewrite unwrapLink_no_quote.
Qed.

Lemma generate_wellFormed (raw : jsstring) :
  wellFormed (minimize raw) = true ->
  exists e, generate raw = Normal e /\ cleanSvg e = minimize raw
            /\ tag e = linkTag (dataUri e)
            /\ exists t, encodeURIComponent (minimize raw) = Normal t
                         /\ dataUri e = DATA_PREFIX ++ requote t.
Proof.
  intros H. apply encodeURIComponent_wellFormed in H as [t Ht].
  unfold generate. rewrite Ht. simpl. eexists. repeat split. eauto.
Qed.

Lemma generate_throws (raw : jsstring) :
  wellFormed (minimize raw) = false -> generate raw = Throw URIError.
Proof.
  intros H. unfold generate.
  destruct (encodeURIComponent (minimize raw)) as [t|e] eqn:E.
  - assert (wellFormed (minimize raw) = true)
      by (apply encodeURIComponent_wellFormed; eauto). congruence.
  - simpl. f_equal. clear H. revert e E. unfold encodeURIComponent.
    generalize (minimize raw) as s.
    induction s as [|c s IH1 IH2] using list_pair_ind; intros e; simpl; [done|].
    destruct (uriUnescaped c).
    { destruct (Encode uriUnescaped s) eqn:E; simpl; [done|]. intros [= <-]. by apply IH1. }
    destruct (isLowSurrogate c); [by intros [= <-]|].
    destruct (isHighSurrogate c); simpl.
    + destruct s as [|k r]; [by intros [= <-]|].
      destruct (isLowSurrogate k); [|by intros [= <-]].
      destruct (Encode uriUnescaped r) eqn:E; simpl; [done|]. intros [= <-].
      by apply (IH2 k r eq_refl).
    + destruct (Encode uriUnescaped s) eqn:E; simpl; [done|]. intros [= <-]. by apply IH1.
Qed.

(** How [processInput] follows [normalize]. *)
Lemma processInputWith_Empty f (p : Page) :
  normalize (svgInput p) = Normal Empty ->
  processInputWith f p = Returns (setOutput [] [] p).
Proof.
  unfold normalize, processInputWith. destruct (trim (svgInput p)); [done|].
  destruct (unwrap _) as [[raw b]|]; simpl; [|done].
  by destruct (generate raw).
Qed.

Lemma processInputWith_Throw f (p : Page) (e : error) :
  normalize (svgInput p) = Throw e ->
  exists p', processInputWith f p = Raises e p' /\ localStorage p' = localStorage p
             /\ outputCode p' = outputCode p /\ previewImg p' = previewImg p.
Proof.
  unfold normalize, processInputWith. destruct (trim (svgInput p)); [done|].
  destruct (unwrap _) as [[raw b]|]; simpl.
  - destruct (generate raw); simpl; [done|]. intros [= ->].
    eexists; split; [done|]. by destruct b.
  - intros [= ->]. by eexists.
Qed.

Lemma processInputWith_Generated f (p : Page) (e : Encoded) :
  normalize (svgInput p) = Normal (Generated e) ->
  exists p', processInputWith f p = Returns (f (dataUri e) (setOutput (tag e) (dataUri e) p'))
             /\ localStorage p' = localStorage p.
Proof.
  unfold normalize, processInputWith. destruct (trim (svgInput p)); [done|].
  destruct (unwrap _) as [[raw b]|]; simpl; [|done].
  destruct (generate raw); simpl; [|done]. intros [= ->].
  eexists; split; [done|]. by destruct b.
Qed.

(** C8: an input that is empty after trimming yields the Empty result, and
    [processInput] clears the output and returns (both scripts). *)
Theorem blank_input_is_Empty (s : jsstring) :
  trim s = [] ->
  normalize s = Normal Empty
  /\ forall p, svgInput p = s ->
       Part001.processInput p = Returns (setOutput [] [] p)
       /\ MainTs.processInput p = Returns (setOutput [] [] p).
Proof.
  intros H. assert (Hn : normalize s = Normal Empty) by (unfold normalize; by rewrite H).
  split; [done|]. intros p <-. split; by apply processInputWith_Empty.
Qed.

Lemma blank_input_is_Empty_witness :
  trim (lit "   ") = []
  /\ normalize (lit "   ") = Normal Empty
  /\ Part001.processInput (pageWith (lit "   ")) = Returns (setOutput [] [] (pageWith (lit "   "))).
Proof.
  split; [reflexivity|].
  destruct (blank_input_is_Empty (lit "   ") eq_refl) as [Hn Hp].
  split; [exact Hn|]. exact (proj1 (Hp (pageWith (lit "   ")) eq_refl)).
Defined.

Example normalize_empty_string : normalize [] = Normal Empty.
Proof. reflexivity. Qed.

(** C1 (amended): when the trimmed input is not empty, starts with neither
    prefix and holds no unpaired surrogate once minimised, [normalize]
    returns a result whose canonical source is the trimmed input with its
    line breaks removed and its runs of white space collapsed. *)
Theorem canonicalSource_minimize_trim (s : jsstring) :
  trim s <> [] ->
  startsWith LINK_PREFIX (trim s) = false ->
  startsWith DATA_PREFIX (trim s) = false ->
  wellFormed (minimize (trim s)) = true ->
  exists e, normalize s = Normal (Generated e)
            /\ cleanSvg e = collapseWhitespace (removeLineBreaks (trim s)).
Proof.
  intros Hne Hl Hd Hw. destruct (trim s) as [|c r] eqn:Ht; [done|].
  rewrite (normalize_nonempty _ _ _ Ht). unfold unwrap, unwrapLink, unwrapDataUri.
  rewrite Hl, Hd. simpl.
  destruct (generate_wellFormed _ Hw) as (e & -> & He & _). simpl. eauto.
Qed.

Lemma canonicalSource_minimize_trim_witness :
  trim (lit "<svg>" ++ [13; 10] ++ lit "</svg>") <> []
  /\ startsWith LINK_PREFIX (trim (lit "<svg>" ++ [13; 10] ++ lit "</svg>")) = false
  /\ startsWith DATA_PREFIX (trim (lit "<svg>" ++ [13; 10] ++ lit "</svg>")) = false
  /\ wellFormed (minimize (trim (lit "<svg>" ++ [13; 10] ++ lit "</svg>"))) = true
  /\ exists e, normalize (lit "<svg>" ++ [13; 10] ++ lit "</svg>") = Normal (Generated e)
               /\ cleanSvg e = lit "<svg></svg>".
Proof.
  assert (Hne : trim (lit "<svg>" ++ [13; 10] ++ lit "</svg>") <> []) by discriminate.
  split; [exact Hne|]. do 3 (split; [reflexivity|]).
  exact (canonicalSource_minimize_trim (lit "<svg>" ++ [13; 10] ++ lit "</svg>")
           Hne eq_refl eq_refl eq_refl).
Defined.

(** C1, as stated, fails: the Windows line break is removed, not turned into
    a space; a blank input has no canonical source; the prefixes are looked
    for after trimming; an unpaired surrogate makes the encoder throw. *)
Lemma canonicalSource_counterexample :
  (exists e, normalize (lit "<svg>" ++ [13; 10] ++ lit "</svg>") = Normal (Generated e)
             /\ cleanSvg e = lit "<svg></svg>"
             /\ cleanSvg e <> lit "<svg> </svg>")
  /\ (lit "   " <> [] /\ startsWith LINK_PREFIX (lit "   ") = false
      /\ startsWith DATA_PREFIX (lit "   ") = false
      /\ normalize (lit "   ") = Normal Empty)
  /\ (startsWith LINK_PREFIX (lit " <link href=" ++ [34] ++ lit "X" ++ [34; 62]) = false
      /\ startsWith DATA_PREFIX (lit " <link href=" ++ [34] ++ lit "X" ++ [34; 62]) = false
      /\ exists e, normalize (lit " <link href=" ++ [34] ++ lit "X" ++ [34; 62])
                   = Normal (Generated e)
                   /\ cleanSvg e = lit "X"
                   /\ cleanSvg e
                      <> minimize (trim (lit " <link href=" ++ [34] ++ lit "X" ++ [34; 62])))
  /\ ([55296] <> [] /\ startsWith LINK_PREFIX [55296] = false
      /\ startsWith DATA_PREFIX [55296] = false
      /\ normalize [55296] = Throw URIError).
Proof.
  split; [|split; [|split]].
  - eexists. split; [reflexivity|]. split; [reflexivity|discriminate].
  - repeat split; discriminate.
  - do 2 (split; [reflexivity|]). eexists. split; [reflexivity|].
    split; [reflexivity|discriminate].
  - repeat split; discriminate.
Qed.

Lemma normalize_data_uri (q c : jsstring) :
  noWhiteSpace q = true -> Decode q = Normal c ->
  normalize (DATA_PREFIX ++ q) = let* e := generate c in Normal (Generated e).
Proof.
  intros Hq Hc.
  assert (Ht : trim (DATA_PREFIX ++ q) = DATA_PREFIX ++ q).
  { apply trim_no_ws. unfold noWhiteSpace in *. rewrite forallb_app, Hq. reflexivity. }
  change (DATA_PREFIX ++ q) with (100 :: (tl DATA_PREFIX ++ q)) in Ht at 2.
  rewrite (normalize_nonempty _ _ _ Ht).
  change (100 :: (tl DATA_PREFIX ++ q)) with (DATA_PREFIX ++ q).
  unfold unwrap.
  assert (Hl : unwrapLink (DATA_PREFIX ++ q) = DATA_PREFIX ++ q) by reflexivity.
  rewrite Hl. unfold unwrapDataUri, decodeURIComponent.
  rewrite startsWith_app, replaceFirst_prefix. simpl app. rewrite Hc. reflexivity.
Qed.

(** C2 (amended): the data URI of a canonical string [c] without unpaired
    surrogate, that is the prefix followed by the escaped text of [c] with
    apostrophes as [%27] and double quotes as [%22], fed back to
    [normalize], gives back [c] as canonical source (and the same data URI
    and tag). *)
Theorem data_uri_round_trip (c : jsstring) :
  wf_string c -> canonical c = true -> wellFormed c = true ->
  exists e t,
    generate c = Normal e
    /\ encodeURIComponent c = Normal t
    /\ dataUri e = DATA_PREFIX ++ replaceAllChar 34 PCT22 (replaceAllChar 39 PCT27 t)
    /\ cleanSvg e = c
    /\ normalize (dataUri e) = Normal (Generated e).
Proof.
  intros Hwf Hcan Hw. pose proof (minimize_canonical c Hcan) as Hmin.
  rewrite <- Hmin in Hw.
  destruct (generate_wellFormed c Hw) as (e & Hg & Hsrc & _ & t & Ht & Hu).
  rewrite Hmin in *. exists e, t. do 4 (split; [done|]).
  rewrite Hu, (normalize_data_uri (requote t) c).
  - by rewrite Hg.
  - by apply (noWhiteSpace_requote_encode c).
  - by apply Decode_requote_encode.
Qed.

Lemma data_uri_round_trip_witness :
  wf_string (lit "<svg a='1'> x</svg>")
  /\ canonical (lit "<svg a='1'> x</svg>") = true
  /\ wellFormed (lit "<svg a='1'> x</svg>") = true
  /\ exists e t,
       generate (lit "<svg a='1'> x</svg>") = Normal e
       /\ encodeURIComponent (lit "<svg a='1'> x</svg>") = Normal t
       /\ dataUri e = DATA_PREFIX ++ replaceAllChar 34 PCT22 (replaceAllChar 39 PCT27 t)
       /\ cleanSvg e = lit "<svg a='1'> x</svg>"
       /\ normalize (dataUri e) = Normal (Generated e).
Proof.
  assert (Hwf : wf_string (lit "<svg a='1'> x</svg>")).
  { unfold wf_string, code_unit. repeat constructor; vm_compute; discriminate. }
  split; [exact Hwf|]. do 2 (split; [reflexivity|]).
  exact (data_uri_round_trip (lit "<svg a='1'> x</svg>") Hwf eq_refl eq_refl).
Defined.

(** C2, as stated, fails: a canonical string can hold an unpaired
    surrogate, and then it has no data URI, since [encodeURIComponent]
    throws; no input of [normalize] has it as canonical source. *)
Lemma data_uri_round_trip_counterexample :
  canonical [55296] = true
  /\ wf_string [55296]
  /\ encodeURIComponent [55296] = Throw URIError
  /\ generate [55296] = Throw URIError
  /\ (forall u e, normalize u = Normal (Generated e) -> cleanSvg e <> [55296]).
Proof.
  split; [reflexivity|]. split.
  { apply List.Forall_cons; [unfold code_unit; lia|apply List.Forall_nil]. }
  do 2 (split; [reflexivity|]).
  intros u e. unfold normalize. destruct (trim u); [done|].
  destruct (unwrap _) as [[raw b]|]; [|done]. simpl. unfold generate.
  destruct (encodeURIComponent (minimize raw)) as [t|] eqn:Et; [|done]. simpl.
  intros [= <-]. simpl. intros E. rewrite E in Et. discriminate Et.
Qed.

(** *** Which text the expression captures *)

Lemma upToQuote_Some (x cap : jsstring) :
  upToQuote x = Some cap -> exists post, x = cap ++ 34 :: post /\ noQuote cap = true.
Proof.
  revert cap. induction x as [|c x IH]; intros cap; simpl; [done|].
  destruct (Z.eqb_spec c 34) as [->|Hc].
  - intros [= <-]. by exists x.
  - destruct (upToQuote x) as [cap'|]; [|done]. intros [= <-].
    destruct (IH cap' eq_refl) as (post & -> & Hq). exists post. split; [done|].
    simpl. rewrite Hq. by destruct (Z.eqb_spec c 34).
Qed.

Lemma upToQuote_None (x : jsstring) : upToQuote x = None <-> noQuote x = true.
Proof.
  induction x as [|c x IH]; simpl; [done|].
  destruct (Z.eqb_spec c 34) as [->|Hc]; simpl; [done|].
  rewrite <- IH. by destruct (upToQuote x).
Qed.

Lemma startsWith_app_long (p x y : jsstring) :
  (length p <= length x)%nat -> startsWith p (x ++ y) = startsWith p x.
Proof.
  revert x. induction p as [|a p IH]; intros [|c x] H; simpl in *; try done; try lia.
  rewrite IH by lia. done.
Qed.

Lemma leftmost_cons (c : Z) (pre : jsstring) :
  includes HREF_OPEN ((c :: pre) ++ lit "href=") = false ->
  (forall rest, startsWith HREF_OPEN ((c :: pre) ++ HREF_OPEN ++ rest) = false)
  /\ includes HREF_OPEN (pre ++ lit "href=") = false.
Proof.
  intros H. change ((c :: pre) ++ lit "href=") with (c :: (pre ++ lit "href=")) in H.
  cbn [includes] in H. apply orb_false_iff in H as [H1 H2]. split; [|done].
  intros rest.
  change ((c :: pre) ++ HREF_OPEN ++ rest)
    with ((c :: pre) ++ (lit "href=" ++ [34]) ++ rest).
  rewrite <- app_assoc, (app_assoc (c :: pre)).
  rewrite startsWith_app_long; [done|].
  rewrite length_app. simpl. lia.
Qed.

(** The capture is the text between the leftmost occurrence of the
    characters of [HREF_OPEN] and the next double quote. *)
Lemma match_href_leftmost (pre m post : jsstring) :
  includes HREF_OPEN (pre ++ lit "href=") = false -> noQuote m = true ->
  match_href (pre ++ HREF_OPEN ++ m ++ 34 :: post) = Some m.
Proof.
  intros Hpre Hm. induction pre as [|c pre IH].
  - cbn. by rewrite drop_0, upToQuote_app.
  - apply leftmost_cons in Hpre as [Hs Hpre].
    change ((c :: pre) ++ HREF_OPEN ++ m ++ 34 :: post)
      with (c :: (pre ++ HREF_OPEN ++ m ++ 34 :: post)).
    cbn [match_href].
    change (c :: (pre ++ HREF_OPEN ++ m ++ 34 :: post))
      with ((c :: pre) ++ HREF_OPEN ++ m ++ 34 :: post).
    rewrite Hs. by apply IH.
Qed.

Lemma noQuote_app (x y : jsstring) : noQuote (x ++ y) = noQuote x && noQuote y.
Proof. apply forallb_app. Qed.

Lemma match_href_Some (s m : jsstring) :
  match_href s = Some m ->
  exists pre post, s = pre ++ HREF_OPEN ++ m ++ 34 :: post
                   /\ includes HREF_OPEN (pre ++ lit "href=") = false
                   /\ noQuote m = true.
Proof.
  induction s as [|c s IH]; [done|]. cbn [match_href].
  destruct (startsWith HREF_OPEN (c :: s)) eqn:Es.
  - destruct (upToQuote (drop 6 (c :: s))) as [cap|] eqn:Eq.
    + intros [= <-]. apply upToQuote_Some in Eq as (post & Eq & Hq).
      exists [], post. apply startsWith_inv in Es.
      change (length HREF_OPEN) with 6%nat in Es. rewrite Eq in Es. by rewrite Es.
    + intros H. destruct (IH H) as (pre & post & -> & _ & _).
      apply upToQuote_None in Eq.
      assert (Hd : exists x, drop 6 (c :: pre ++ HREF_OPEN ++ m ++ 34 :: post)
                             = x ++ 34 :: m ++ 34 :: post).
      { change (HREF_OPEN ++ m ++ 34 :: post)
          with (lit "href=" ++ 34 :: m ++ 34 :: post).
        rewrite app_assoc, app_comm_cons.
        exists (drop 6 (c :: pre ++ lit "href=")).
        rewrite drop_app_le; [done|]. simpl. rewrite length_app. simpl. lia. }
      destruct Hd as [x Hd]. rewrite Hd, noQuote_app in Eq.
      by apply andb_true_iff in Eq as [_ ?].
  - intros H. destruct (IH H) as (pre & post & -> & Hpre & Hm).
    exists (c :: pre), post. split; [done|]. split; [|done].
    change ((c :: pre) ++ lit "href=") with (c :: (pre ++ lit "href=")).
    cbn [includes]. rewrite Hpre, orb_false_r.
    change (c :: pre ++ HREF_OPEN ++ m ++ 34 :: post)
      with ((c :: pre) ++ (lit "href=" ++ [34]) ++ m ++ 34 :: post) in Es.
    rewrite <- app_assoc, (app_assoc (c :: pre)) in Es.
    rewrite startsWith_app_long in Es; [done|]. rewrite length_app. simpl. lia.
Qed.

Lemma match_href_occurrence (pre rest : jsstring) :
  noQuote rest = false -> match_href (pre ++ HREF_OPEN ++ rest) <> None.
Proof.
  intros Hq. induction pre as [|c pre IH].
  - cbn. rewrite drop_0. destruct (upToQuote rest) eqn:E; [done|].
    apply upToQuote_None in E. congruence.
  - change ((c :: pre) ++ HREF_OPEN ++ rest) with (c :: (pre ++ HREF_OPEN ++ rest)).
    cbn [match_href]. destruct (startsWith HREF_OPEN _); [|done].
    by destruct (upToQuote _).
Qed.

(** There is no capture exactly when no occurrence of the characters of
    [HREF_OPEN] is followed by a double quote. *)
Lemma match_href_None (s : jsstring) :
  match_href s = None <-> forall pre m post, s <> pre ++ HREF_OPEN ++ m ++ 34 :: post.
Proof.
  split.
  - intros H pre m post ->. apply (match_href_occurrence pre (m ++ 34 :: post)); [|done].
    rewrite noQuote_app. simpl. apply andb_false_r.
  - intros H. destruct (match_href s) as [m|] eqn:E; [|done].
    apply match_href_Some in E as (pre & post & -> & _). by destruct (H pre m post).
Qed.

Lemma normalize_link_capture (s m : jsstring) :
  startsWith LINK_PREFIX (trim s) = true -> match_href (trim s) = Some m ->
  normalize s =
  let* u := unwrapDataUri m in let* e := generate (fst u) in Normal (Generated e).
Proof.
  intros Hl Hm. destruct (trim s) as [|c r] eqn:Ht; [done|].
  rewrite (normalize_nonempty _ _ _ Ht). unfold unwrap, unwrapLink. by rewrite Hl, Hm.
Qed.

(** C5 (amended): when the trimmed input starts with the link prefix and
    holds the characters of [HREF_OPEN] followed, somewhere, by a double
    quote, [normalize] proceeds on the text between the leftmost such
    occurrence and the next double quote, as it is: not trimmed, not tested
    for emptiness, whatever attribute name the characters end.  A pasted
    icon link around a non-empty, trimmed value [x] without double quote
    thus gives what [x] gives.  When no occurrence is followed by a double
    quote (a single-quoted value, no [href] at all) the expression does not
    match and the trimmed text itself is encoded. *)
Theorem link_href_unwrapped :
  (forall x, x <> [] -> trim x = x -> noQuote x = true ->
             normalize (iconLink x) = normalize x)
  /\ (forall s, startsWith LINK_PREFIX (trim s) = true ->
                match_href (trim s) = None ->
                normalize s = let* e := generate (trim s) in Normal (Generated e))
  /\ (forall s pre m post,
        startsWith LINK_PREFIX (trim s) = true ->
        trim s = pre ++ HREF_OPEN ++ m ++ 34 :: post ->
        includes HREF_OPEN (pre ++ lit "href=") = false -> noQuote m = true ->
        match_href (trim s) = Some m
        /\ normalize s =
           let* u := unwrapDataUri m in let* e := generate (fst u) in
           Normal (Generated e))
  /\ (forall s pre m post,
        trim s = pre ++ HREF_OPEN ++ m ++ 34 :: post ->
        exists pre' m' post',
          trim s = pre' ++ HREF_OPEN ++ m' ++ 34 :: post'
          /\ includes HREF_OPEN (pre' ++ lit "href=") = false
          /\ noQuote m' = true)
  /\ (forall s, startsWith LINK_PREFIX (trim s) = true ->
                (forall pre m post, trim s <> pre ++ HREF_OPEN ++ m ++ 34 :: post) ->
                match_href (trim s) = None
                /\ normalize s = let* e := generate (trim s) in Normal (Generated e)).
Proof.
  assert (Hnone : forall s, startsWith LINK_PREFIX (trim s) = true ->
                            match_href (trim s) = None ->
                            normalize s = let* e := generate (trim s) in
                                          Normal (Generated e)).
  { intros s Hl Hm. destruct (trim s) as [|c r] eqn:Ht; [done|].
    rewrite (normalize_nonempty _ _ _ Ht). unfold unwrap, unwrapLink, unwrapDataUri.
    by rewrite Hl, Hm, (startsWith_link_not_data _ Hl). }
  split; [|split; [done|split; [|split]]].
  - intros x Hne Ht Hq.
    by rewrite normalize_iconLink, normalize_trimmed_no_quote.
  - intros s pre m post Hl Hs Hpre Hm.
    assert (Hc : match_href (trim s) = Some m)
      by (rewrite Hs; by apply match_href_leftmost).
    split; [done|]. by apply normalize_link_capture.
  - intros s pre m post Hs.
    destruct (match_href (trim s)) as [m'|] eqn:E.
    + apply match_href_Some in E as (pre' & post' & E & Hpre & Hm).
      by exists pre', m', post'.
    + by destruct (proj1 (match_href_None (trim s)) E pre m post).
  - intros s Hl Hno. assert (E : match_href (trim s) = None)
      by (by apply match_href_None).
    split; [done|]. by apply Hnone.
Qed.

Lemma link_href_unwrapped_witness :
  (lit "X" <> [] /\ trim (lit "X") = lit "X" /\ noQuote (lit "X") = true
   /\ normalize (iconLink (lit "X")) = normalize (lit "X"))
  /\ (startsWith LINK_PREFIX (trim (lit "<link rel='icon' href='X' />")) = true
      /\ match_href (trim (lit "<link rel='icon' href='X' />")) = None
      /\ normalize (lit "<link rel='icon' href='X' />")
         = let* e := generate (trim (lit "<link rel='icon' href='X' />")) in
           Normal (Generated e))
  /\ (startsWith LINK_PREFIX (trim twoHrefLink) = true
      /\ trim twoHrefLink
         = lit "<link data-" ++ HREF_OPEN ++ lit "A"
           ++ 34 :: (lit " href=" ++ [34] ++ lit "B" ++ [34] ++ lit ">")
      /\ includes HREF_OPEN (lit "<link data-" ++ lit "href=") = false
      /\ match_href (trim twoHrefLink) = Some (lit "A")
      /\ normalize twoHrefLink
         = let* u := unwrapDataUri (lit "A") in let* e := generate (fst u) in
           Normal (Generated e)).
Proof.
  split; [|split].
  - assert (Hne : lit "X" <> []) by discriminate.
    split; [exact Hne|]. do 2 (split; [reflexivity|]).
    exact (proj1 link_href_unwrapped (lit "X") Hne eq_refl eq_refl).
  - do 2 (split; [reflexivity|]).
    exact (proj1 (proj2 link_href_unwrapped) (lit "<link rel='icon' href='X' />")
             eq_refl eq_refl).
  - do 3 (split; [reflexivity|]).
    exact (proj1 (proj2 (proj2 link_href_unwrapped)) twoHrefLink (lit "<link data-")
             (lit "A") (lit " href=" ++ [34] ++ lit "B" ++ [34] ++ lit ">")
             eq_refl eq_refl eq_refl eq_refl).
Defined.

(** C5, as stated, fails: a single-quoted [href] is not extracted; the
    extracted value is neither trimmed nor checked for emptiness; and the
    value taken is not always that of the [href] attribute: in a tag with
    a [data-href] attribute before it, the value of [data-href] is taken. *)
Lemma link_href_counterexample :
  (startsWith LINK_PREFIX (trim (lit "<link rel='icon' href='X' />")) = true
   /\ exists e e', normalize (lit "<link rel='icon' href='X' />") = Normal (Generated e)
        /\ cleanSvg e = lit "<link rel='icon' href='X' />"
        /\ normalize (lit "X") = Normal (Generated e')
        /\ cleanSvg e' = lit "X"
        /\ normalize (lit "<link rel='icon' href='X' />") <> normalize (lit "X"))
  /\ (exists e, normalize (iconLink []) = Normal (Generated e)
                /\ cleanSvg e = []
                /\ normalize [] = Normal Empty)
  /\ (exists e e', normalize (iconLink (lit " X")) = Normal (Generated e)
                   /\ cleanSvg e = lit " X"
                   /\ normalize (lit " X") = Normal (Generated e')
                   /\ cleanSvg e' = lit "X")
  /\ (exists e e', normalize twoHrefLink = Normal (Generated e)
                   /\ cleanSvg e = lit "A"
                   /\ normalize (lit "B") = Normal (Generated e')
                   /\ cleanSvg e' = lit "B"
                   /\ normalize twoHrefLink <> normalize (lit "B")).
Proof.
  split; [|split; [|split]].
  - split; [reflexivity|]. do 2 eexists.
    split; [reflexivity|]. split; [reflexivity|]. split; [reflexivity|].
    split; [reflexivity|]. discriminate.
  - eexists. split; [reflexivity|]. split; reflexivity.
  - do 2 eexists. split; [reflexivity|]. split; [reflexivity|].
    split; reflexivity.
  - do 2 eexists. split; [reflexivity|]. split; [reflexivity|].
    split; [reflexivity|]. split; [reflexivity|]. discriminate.
Qed.

(** C10: a data URI with a malformed escape makes [processInput] throw a
    URIError out of [decodeURIComponent]; so does an unpaired surrogate, out
    of [encodeURIComponent]. *)
Theorem malformed_data_uri_raises :
  normalize (lit "data:image/svg+xml,%") = Throw URIError
  /\ Part001.processInput (pageWith (lit "data:image/svg+xml,%"))
     = Raises URIError (pageWith (lit "data:image/svg+xml,%"))
  /\ MainTs.processInput (pageWith (lit "data:image/svg+xml,%"))
     = Raises URIError (pageWith (lit "data:image/svg+xml,%"))
  /\ normalize [55296] = Throw URIError
  /\ Part001.processInput (pageWith [55296]) = Raises URIError (pageWith [55296]).
Proof. repeat split. Qed.

(** ** The only exception is the URIError of the two built-ins *)

Lemma cbind_Throw {A B} (c : completion A) (k : A -> completion B) (e : error) :
  cbind c k = Throw e -> c = Throw e \/ exists a, c = Normal a /\ k a = Throw e.
Proof. destruct c as [a|e']; simpl; [eauto|]. intros [= ->]. by left. Qed.

Lemma Decode_Throw (s : jsstring) (e : error) : Decode s = Throw e -> e = URIError.
Proof.
  induction s as [s IH] using list_strong_ind. destruct s as [|c r]; [done|].
  assert (Hk : forall (t : jsstring) (f : jsstring -> jsstring),
             (length t < length (c :: r))%nat ->
             (let* x := Decode t in Normal (f x)) = Throw e -> e = URIError).
  { intros t f Hlen H. apply cbind_Throw in H as [H|(a & _ & H)]; [|done].
    by apply (IH t). }
  simpl. repeat case_match; subst; simpl in *;
    first [ by intros [= <-] | apply Hk; simpl; lia ].
Qed.

Lemma Encode_Throw (s : jsstring) (e : error) :
  encodeURIComponent s = Throw e -> e = URIError.
Proof.
  unfold encodeURIComponent. induction s as [s IH] using list_strong_ind.
  destruct s as [|c r]; [done|].
  assert (Hk : forall (t : jsstring) (f : jsstring -> jsstring),
             (length t < length (c :: r))%nat ->
             (let* x := Encode uriUnescaped t in Normal (f x)) = Throw e -> e = URIError).
  { intros t f Hlen H. apply cbind_Throw in H as [H|(a & _ & H)]; [|done].
    by apply (IH t). }
  simpl. repeat case_match; subst; simpl in *;
    first [ by intros [= <-] | apply Hk; simpl; lia ].
Qed.

(** Whatever the input, [normalize] returns or throws a URIError. *)
Lemma normalize_Throw (s : jsstring) (e : error) : normalize s = Throw e -> e = URIError.
Proof.
  unfold normalize. destruct (trim s) as [|c r]; [done|].
  intros H. apply cbind_Throw in H as [H|(u & _ & H)].
  - unfold unwrap, unwrapDataUri in H. case_match; [|done].
    apply cbind_Throw in H as [H|(a & _ & H)]; [|done]. by apply Decode_Throw in H.
  - apply cbind_Throw in H as [H|(a & _ & H)]; [|done].
    unfold generate in H. apply cbind_Throw in H as [H|(a & _ & H)]; [|done].
    by apply Encode_Throw in H.
Qed.

(** ** JSON.parse: the fuel is enough *)

Lemma consumes_pbind {A B} (n : nat) (p : parsed A) (k : A -> jsstring -> parsed B) :
  consumes n p ->
  (forall a r, (length r < n)%nat -> forall b r', k a r = Parsed b r' ->
               (length r' <= length r)%nat) ->
  consumes n (pbind p k).
Proof.
  intros Hp Hk b r'. destruct p as [a r| |]; simpl; [|done..].
  intros H. pose proof (Hp a r eq_refl). pose proof (Hk a r H0 b r' H). lia.
Qed.

Lemma consumes_weaken {A} (n m : nat) (p : parsed A) :
  (n <= m)%nat -> consumes n p -> consumes m p.
Proof. intros Hle H a r E. specialize (H a r E). lia. Qed.

Lemma skipWs_length (s : jsstring) : (length (skipWs s) <= length s)%nat.
Proof.
  induction s as [|c s IH]; simpl; [lia|]. destruct (isJsonWs c); simpl; lia.
Qed.

Lemma spanDigits_length (s ds r : jsstring) :
  spanDigits s = (ds, r) -> length s = (length ds + length r)%nat.
Proof.
  revert ds r; induction s as [|c s IH]; intros ds r; simpl.
  - by intros [= <- <-].
  - destruct (isDigit c).
    + destruct (spanDigits s) as [ds' r'] eqn:E. intros [= <- <-].
      simpl. by rewrite (IH ds' r' eq_refl).
    + by intros [= <- <-].
Qed.

Lemma spanFraction_length (s f r : jsstring) :
  spanFraction s = Some (f, r) -> (length r <= length s)%nat.
Proof.
  unfold spanFraction. destruct s as [|c s]; [by intros [= <- <-]|].
  destruct (c =? 46); [|by intros [= <- <-]].
  destruct (spanDigits s) as [ds r'] eqn:E. apply spanDigits_length in E.
  destruct ds; [done|]. intros [= <- <-]. simpl in *. lia.
Qed.

Lemma spanExponent_length (s f r : jsstring) :
  spanExponent s = Some (f, r) -> (length r <= length s)%nat.
Proof.
  unfold spanExponent. destruct s as [|c s]; [by intros [= <- <-]|].
  destruct ((c =? 101) || (c =? 69)); [|by intros [= <- <-]].
  destruct (match s with
            | [] => ([], s)
            | g :: r1 => if (g =? 43) || (g =? 45) then ([g], r1) else ([], s)
            end) as [sign r1] eqn:Es.
  assert (length r1 <= length s)%nat.
  { destruct s as [|g s']; [by injection Es as <- <-|].
    destruct ((g =? 43) || (g =? 45)); injection Es as <- <-; simpl; lia. }
  destruct (spanDigits r1) as [ds r'] eqn:E. apply spanDigits_length in E.
  destruct ds; [done|]. intros [= <- <-]. simpl in *. lia.
Qed.

Lemma parseNumber_verdict (s : jsstring) : parseNumber s <> OutOfFuel.
Proof.
  unfold parseNumber.
  destruct (match s with
            | [] => (false, s)
            | c :: r => if c =? 45 then (true, r) else (false, s)
            end) as [minus s1].
  destruct (spanDigits s1) as [[|d ds] s2]; [done|].
  destruct ((d =? 48) && negb (bool_decide (ds = []))); [done|].
  destruct (spanFraction s2) as [[frac s3]|]; [|done].
  destruct (spanExponent s3) as [[ex s4]|]; [|done].
  by destruct frac, ex.
Qed.

Lemma parseNumber_consumes (s : jsstring) : consumes (length s) (parseNumber s).
Proof.
  intros v r. unfold parseNumber.
  destruct (match s with
            | [] => (false, s)
            | c :: r => if c =? 45 then (true, r) else (false, s)
            end) as [minus s1] eqn:Es.
  assert (length s1 <= length s)%nat.
  { destruct s as [|c s']; [by injection Es as <- <-|].
    destruct (c =? 45); injection Es as <- <-; simpl; lia. }
  destruct (spanDigits s1) as [[|d ds] s2] eqn:E; [done|].
  apply spanDigits_length in E.
  destruct ((d =? 48) && negb (bool_decide (ds = []))); [done|].
  destruct (spanFraction s2) as [[frac s3]|] eqn:Ef; [|done].
  apply spanFraction_length in Ef.
  destruct (spanExponent s3) as [[ex s4]|] eqn:Ee; [|done].
  apply spanExponent_length in Ee.
  destruct frac, ex; intros [= <- <-]; simpl in *; lia.
Qed.

Lemma pbind_verdict {A B} (p : parsed A) (k : A -> jsstring -> parsed B) :
  p <> OutOfFuel -> (forall a r, p = Parsed a r -> k a r <> OutOfFuel) ->
  pbind p k <> OutOfFuel.
Proof. intros Hp Hk. destruct p; simpl; [by apply Hk|done..]. Qed.

Lemma parseChars_verdict (s : jsstring) : parseChars s <> OutOfFuel.
Proof.
  induction s as [s IH] using list_strong_ind. destruct s as [|c s]; [done|]. simpl.
  destruct (c =? 34); [done|]. destruct (c =? 92).
  - destruct s as [|e r1]; [done|]. destruct (e =? 117).
    + destruct r1 as [|h1 [|h2 [|h3 [|h4 r2]]]]; try done.
      destruct (hex4 h1 h2 h3 h4); [|done].
      apply pbind_verdict; [apply IH; simpl; lia|done].
    + destruct (simpleEscape e); [|done].
      apply pbind_verdict; [apply IH; simpl; lia|done].
  - destruct (c <? 32); [done|]. apply pbind_verdict; [apply IH; simpl; lia|done].
Qed.

Lemma parseChars_consumes (s : jsstring) : consumes (length s) (parseChars s).
Proof.
  induction s as [s IH] using list_strong_ind. destruct s as [|c s]; [done|]. simpl.
  destruct (c =? 34); [intros a r [= <- <-]; lia|]. destruct (c =? 92).
  - destruct s as [|e r1]; [done|]. destruct (e =? 117).
    + destruct r1 as [|h1 [|h2 [|h3 [|h4 r2]]]]; try done.
      destruct (hex4 h1 h2 h3 h4); [|done].
      apply consumes_pbind.
      * eapply consumes_weaken; [|apply IH]; simpl; lia.
      * by intros a r _ b r' [= <- <-].
    + destruct (simpleEscape e); [|done].
      apply consumes_pbind.
      * eapply consumes_weaken; [|apply IH]; simpl; lia.
      * by intros a r _ b r' [= <- <-].
  - destruct (c <? 32); [done|]. apply consumes_pbind.
    + eapply consumes_weaken; [|apply IH]; simpl; lia.
    + by intros a r _ b r' [= <- <-].
Qed.

Lemma afterElement_length more (v : json) (r : jsstring) :
  (forall s, consumes (length s) (more s)) ->
  forall b r', afterElement more v r = Parsed b r' -> (length r' <= length r)%nat.
Proof.
  intros Hm b r'. unfold afterElement. pose proof (skipWs_length r).
  destruct (skipWs r) as [|d r1]; [done|]. simpl in *.
  destruct (d =? 44).
  - destruct (more r1) as [vs rest| |] eqn:E; simpl; [|done..].
    intros [= <- <-]. pose proof (Hm r1 vs rest E). lia.
  - destruct (d =? 93); [|done]. intros [= <- <-]. lia.
Qed.

Lemma afterMember_length more (k : jsstring) (v : json) (r : jsstring) :
  (forall s, consumes (length s) (more s)) ->
  forall b r', afterMember more k v r = Parsed b r' -> (length r' <= length r)%nat.
Proof.
  intros Hm b r'. unfold afterMember. pose proof (skipWs_length r).
  destruct (skipWs r) as [|d r1]; [done|]. simpl in *.
  destruct (d =? 44).
  - destruct (more r1) as [vs rest| |] eqn:E; simpl; [|done..].
    intros [= <- <-]. pose proof (Hm r1 vs rest E). lia.
  - destruct (d =? 125); [|done]. intros [= <- <-]. lia.
Qed.

Lemma parse_consumes (fuel : nat) :
  (forall s, consumes (length s) (parseValue fuel s))
  /\ (forall s, consumes (length s) (parseElements fuel s))
  /\ (forall s, consumes (length s) (parseMembers fuel s)).
Proof.
  induction fuel as [|f (IHv & IHe & IHm)]; [by repeat split; intros s a r|].
  repeat split; intros s; cbn [parseValue parseElements parseMembers].
  - pose proof (skipWs_length s). destruct (skipWs s) as [|c r]; [done|].
    simpl in H. destruct (c =? 91); [|destruct (c =? 123); [|destruct (c =? 34)]].
    + pose proof (skipWs_length r). destruct (skipWs r) as [|d r']; [done|].
      simpl in *. destruct (d =? 93); [intros a x [= <- <-]; lia|].
      apply consumes_pbind.
      * eapply consumes_weaken; [|apply IHe]; lia.
      * by intros a x _ b x' [= <- <-].
    + pose proof (skipWs_length r). destruct (skipWs r) as [|d r']; [done|].
      simpl in *. destruct (d =? 125); [intros a x [= <- <-]; lia|].
      apply consumes_pbind.
      * eapply consumes_weaken; [|apply IHm]; lia.
      * by intros a x _ b x' [= <- <-].
    + apply consumes_pbind.
      * eapply consumes_weaken; [|apply parseChars_consumes]; lia.
      * by intros a x _ b x' [= <- <-].
    + destruct (startsWith LIT_NULL (c :: r));
        [intros a x [= <- <-]; rewrite length_drop; simpl; lia|].
      destruct (startsWith LIT_TRUE (c :: r));
        [intros a x [= <- <-]; rewrite length_drop; simpl; lia|].
      destruct (startsWith LIT_FALSE (c :: r));
        [intros a x [= <- <-]; rewrite length_drop; simpl; lia|].
      eapply consumes_weaken; [|apply parseNumber_consumes]. simpl. lia.
  - apply consumes_pbind; [apply IHv|].
    intros a r _. by apply afterElement_length.
  - pose proof (skipWs_length s). destruct (skipWs s) as [|q r0]; [done|].
    simpl in H. destruct (q =? 34); [|done].
    apply consumes_pbind.
    + eapply consumes_weaken; [|apply parseChars_consumes]; lia.
    + intros k r1 _ b r'. pose proof (skipWs_length r1).
      destruct (skipWs r1) as [|colon r2]; [done|]. simpl in *.
      destruct (colon =? 58); [|done].
      destruct (parseValue f r2) as [v r| |] eqn:E; simpl; [|done..].
      intros Ha. pose proof (IHv r2 v r E).
      pose proof (afterMember_length _ k v r IHm b r' Ha). lia.
Qed.

Lemma parse_verdict (fuel : nat) :
  (forall s, (2 * length s + 1 <= fuel)%nat -> parseValue fuel s <> OutOfFuel)
  /\ (forall s, (2 * length s + 2 <= fuel)%nat -> parseElements fuel s <> OutOfFuel)
  /\ (forall s, (2 * length s + 2 <= fuel)%nat -> parseMembers fuel s <> OutOfFuel).
Proof.
  induction fuel as [|f (IHv & IHe & IHm)]; [repeat split; intros s; lia|].
  destruct (parse_consumes f) as (Cv & Ce & Cm).
  repeat split; intros s Hf; cbn [parseValue parseElements parseMembers].
  - pose proof (skipWs_length s). destruct (skipWs s) as [|c r]; [done|].
    simpl in H. destruct (c =? 91); [|destruct (c =? 123); [|destruct (c =? 34)]].
    + pose proof (skipWs_length r). destruct (skipWs r) as [|d r']; [done|].
      destruct (d =? 93); [done|].
      apply pbind_verdict; [apply IHe; lia|done].
    + pose proof (skipWs_length r). destruct (skipWs r) as [|d r']; [done|].
      destruct (d =? 125); [done|].
      apply pbind_verdict; [apply IHm; lia|done].
    + apply pbind_verdict; [apply parseChars_verdict|done].
    + destruct (startsWith LIT_NULL (c :: r)); [done|].
      destruct (startsWith LIT_TRUE (c :: r)); [done|].
      destruct (startsWith LIT_FALSE (c :: r)); [done|].
      apply parseNumber_verdict.
  - apply pbind_verdict; [apply IHv; lia|].
    intros v r E. apply Cv in E. unfold afterElement.
    pose proof (skipWs_length r). destruct (skipWs r) as [|d r']; [done|].
    simpl in *. destruct (d =? 44).
    + apply pbind_verdict; [apply IHe; lia|done].
    + by destruct (d =? 93).
  - pose proof (skipWs_length s). destruct (skipWs s) as [|q r0]; [done|].
    simpl in H. destruct (q =? 34); [|done].
    apply pbind_verdict; [apply parseChars_verdict|].
    intros k r1 E1. apply parseChars_consumes in E1.
    pose proof (skipWs_length r1). destruct (skipWs r1) as [|colon r2]; [done|].
    simpl in *. destruct (colon =? 58); [|done].
    apply pbind_verdict; [apply IHv; lia|].
    intros v r E. apply Cv in E. unfold afterMember.
    pose proof (skipWs_length r). destruct (skipWs r) as [|d r']; [done|].
    simpl in *. destruct (d =? 44).
    + apply pbind_verdict; [apply IHm; lia|done].
    + by destruct (d =? 125).
Qed.

(** [JSON_parse] never runs out of fuel. *)
Lemma JSON_parse_fuel (text : jsstring) :
  parseValue (2 * length text + 1) text <> OutOfFuel.
Proof. by apply parse_verdict. Qed.

Lemma stable_refl {A} (p : parsed A) : stable p p.
Proof. by intros _. Qed.

Lemma stable_pbind {A B} (p q : parsed A) (k k' : A -> jsstring -> parsed B) :
  stable p q -> (forall a r, stable (k a r) (k' a r)) ->
  stable (pbind p k) (pbind q k').
Proof.
  intros Hp Hk H. destruct p as [a r| |]; simpl in *; [|by rewrite Hp..].
  rewrite Hp by done. simpl. by apply Hk.
Qed.

Lemma stable_afterElement (more more' : jsstring -> parsed (list json)) v r :
  (forall s, stable (more s) (more' s)) ->
  stable (afterElement more v r) (afterElement more' v r).
Proof.
  intros H. unfold afterElement. destruct (skipWs r) as [|d r']; [apply stable_refl|].
  destruct (d =? 44); [|apply stable_refl].
  apply stable_pbind; [apply H|intros; apply stable_refl].
Qed.

Lemma stable_afterMember (more more' : jsstring -> parsed (list (jsstring * json))) k v r :
  (forall s, stable (more s) (more' s)) ->
  stable (afterMember more k v r) (afterMember more' k v r).
Proof.
  intros H. unfold afterMember. destruct (skipWs r) as [|d r']; [apply stable_refl|].
  destruct (d =? 44); [|apply stable_refl].
  apply stable_pbind; [apply H|intros; apply stable_refl].
Qed.

Lemma parse_stable_step (fuel : nat) :
  (forall s, stable (parseValue fuel s) (parseValue (S fuel) s))
  /\ (forall s, stable (parseElements fuel s) (parseElements (S fuel) s))
  /\ (forall s, stable (parseMembers fuel s) (parseMembers (S fuel) s)).
Proof.
  induction fuel as [|f (IHv & IHe & IHm)]; [by repeat split; intros s H|].
  repeat split; intros s.
  - change (stable (parseValue (S f) s) (parseValue (S (S f)) s)).
    cbn [parseValue]. destruct (skipWs s) as [|c r]; [apply stable_refl|].
    destruct (c =? 91); [|destruct (c =? 123)]; [| |apply stable_refl].
    + destruct (skipWs r) as [|d r']; [apply stable_refl|].
      destruct (d =? 93); [apply stable_refl|].
      apply stable_pbind; [apply IHe|intros; apply stable_refl].
    + destruct (skipWs r) as [|d r']; [apply stable_refl|].
      destruct (d =? 125); [apply stable_refl|].
      apply stable_pbind; [apply IHm|intros; apply stable_refl].
  - change (parseElements (S f) s)
      with (pbind (parseValue f s) (afterElement (parseElements f))).
    change (parseElements (S (S f)) s)
      with (pbind (parseValue (S f) s) (afterElement (parseElements (S f)))).
    apply stable_pbind; [apply IHv|]. intros v r. by apply stable_afterElement.
  - cbn [parseMembers]. destruct (skipWs s) as [|q r0]; [apply stable_refl|].
    destruct (q =? 34); [|apply stable_refl].
    apply stable_pbind; [apply stable_refl|]. intros k r1.
    destruct (skipWs r1) as [|colon r2]; [apply stable_refl|].
    destruct (colon =? 58); [|apply stable_refl].
    apply stable_pbind; [apply IHv|]. intros v r. by apply stable_afterMember.
Qed.

Lemma parseValue_stable (f f' : nat) (s : jsstring) :
  (f <= f')%nat -> stable (parseValue f s) (parseValue f' s).
Proof.
  intros Hle H. induction Hle as [|m Hle IH]; [done|].
  destruct (parse_stable_step m) as (Hs & _). rewrite Hs; [done|]. by rewrite IH.
Qed.

Lemma parseElements_stable (f f' : nat) (s : jsstring) :
  (f <= f')%nat -> stable (parseElements f s) (parseElements f' s).
Proof.
  intros Hle H. induction Hle as [|m Hle IH]; [done|].
  destruct (parse_stable_step m) as (_ & Hs & _). rewrite Hs; [done|]. by rewrite IH.
Qed.

Lemma parseValue_more_fuel (f f' : nat) (s : jsstring) (v : json) (r : jsstring) :
  (f <= f')%nat -> parseValue f s = Parsed v r -> parseValue f' s = Parsed v r.
Proof. intros Hle H. rewrite <- H. apply parseValue_stable; [done|]. by rewrite H. Qed.

Lemma parseElements_more_fuel (f f' : nat) (s : jsstring) vs (r : jsstring) :
  (f <= f')%nat -> parseElements f s = Parsed vs r -> parseElements f' s = Parsed vs r.
Proof. intros Hle H. rewrite <- H. apply parseElements_stable; [done|]. by rewrite H. Qed.

(** A parse that succeeds with some fuel is what [JSON_parse] finds. *)
Lemma JSON_parse_of_fuel (f : nat) (text : jsstring) (v : json) (r : jsstring) :
  parseValue f text = Parsed v r -> skipWs r = [] -> JSON_parse text = Normal v.
Proof.
  intros H Hr. unfold JSON_parse.
  destruct (Nat.le_ge_cases f (2 * length text + 1)) as [Hle|Hge].
  - by rewrite (parseValue_more_fuel _ _ _ _ _ Hle H), Hr.
  - pose proof (parseValue_stable _ _ text Hge (JSON_parse_fuel text)) as Hs.
    rewrite <- Hs, H. by rewrite Hr.
Qed.

(** ** JSON strings: parsing what QuoteJSONString wrote *)

Lemma hexValue_lower (d : Z) : 0 <= d < 16 -> hexValue (hexDigitLower d) = Some d.
Proof.
  intros H. unfold hexValue, hexDigitLower. zbool; simpl; f_equal; lia.
Qed.

Lemma hex4_unicodeEscape (c : Z) :
  0 <= c < 65536 ->
  hex4 (hexDigitLower (c / 4096)) (hexDigitLower ((c / 256) mod 16))
       (hexDigitLower ((c / 16) mod 16)) (hexDigitLower (c mod 16)) = Some c.
Proof.
  intros H. unfold hex4. rewrite !hexValue_lower by lia. f_equal. lia.
Qed.

Lemma parseChars_literal (c : Z) (t : jsstring) :
  32 <= c -> c <> 34 -> c <> 92 ->
  parseChars (c :: t) = pbind (parseChars t) (fun t' rest => Parsed (c :: t') rest).
Proof. intros H1 H2 H3. simpl. zbool. done. Qed.

Lemma parseChars_unicodeEscape (c : Z) (t : jsstring) :
  0 <= c < 65536 ->
  parseChars (unicodeEscape c ++ t)
  = pbind (parseChars t) (fun t' rest => Parsed (c :: t') rest).
Proof. intros H. unfold unicodeEscape. simpl. by rewrite hex4_unicodeEscape. Qed.

Lemma parseChars_quoteUnit (c : Z) (t : jsstring) :
  code_unit c ->
  parseChars (quoteUnit c ++ t)
  = pbind (parseChars t) (fun t' rest => Parsed (c :: t') rest).
Proof.
  intros H. unfold code_unit in H. unfold quoteUnit.
  destruct (Z.eqb_spec c 8) as [->|?]; [done|].
  destruct (Z.eqb_spec c 9) as [->|?]; [done|].
  destruct (Z.eqb_spec c 10) as [->|?]; [done|].
  destruct (Z.eqb_spec c 12) as [->|?]; [done|].
  destruct (Z.eqb_spec c 13) as [->|?]; [done|].
  destruct (Z.eqb_spec c 34) as [->|?]; [done|].
  destruct (Z.eqb_spec c 92) as [->|?]; [done|].
  destruct ((c <? 32) || isHighSurrogate c || isLowSurrogate c) eqn:E.
  - by apply parseChars_unicodeEscape.
  - apply orb_false_iff in E as [E _]. apply orb_false_iff in E as [E _].
    apply Z.ltb_ge in E. by apply parseChars_literal.
Qed.

Lemma parseChars_quoteChars (s rest : jsstring) :
  wf_string s -> parseChars (quoteChars s ++ 34 :: rest) = Parsed s rest.
Proof.
  induction s as [|c s IH1 IH2] using list_pair_ind; intros Hwf; [done|].
  apply Forall_cons in Hwf as [Hc Hwf]. cbn [quoteChars].
  destruct (isHighSurrogate c) eqn:Eh.
  - destruct s as [|d r].
    + rewrite parseChars_quoteUnit by done. done.
    + destruct (isLowSurrogate d) eqn:El.
      * apply surrogate_bounds in Eh. apply surrogate_bounds in El.
        apply Forall_cons in Hwf as [Hd Hwf].
        change ((c :: d :: quoteChars r) ++ 34 :: rest)
          with (c :: d :: quoteChars r ++ 34 :: rest).
        rewrite !parseChars_literal by lia. by rewrite (IH2 d r eq_refl Hwf).
      * rewrite <- app_assoc, parseChars_quoteUnit by done. by rewrite IH1.
  - rewrite <- app_assoc, parseChars_quoteUnit by done. by rewrite IH1.
Qed.

(** ** JSON numbers: parsing what Number::toString wrote *)

Lemma isDigit_digitChar (d : Z) : 0 <= d <= 9 -> isDigit (digitChar d) = true.
Proof. intros H. unfold isDigit, digitChar. zbool; done. Qed.

Lemma spanDigits_digitsOfUint (u : Decimal.uint) (c : Z) (rest : jsstring) :
  isDigit c = false ->
  spanDigits (digitsOfUint u ++ c :: rest) = (digitsOfUint u, c :: rest).
Proof.
  intros Hc. induction u; simpl; rewrite ?Hc, ?IHu; done.
Qed.

Lemma uintOfDigits_digitsOfUint (u : Decimal.uint) : uintOfDigits (digitsOfUint u) = u.
Proof. induction u; simpl; by rewrite ?IHu. Qed.

Lemma to_uint_not_D0 (p : positive) (u : Decimal.uint) : Pos.to_uint p <> Decimal.D0 u.
Proof.
  intros H.
  pose proof (DecimalPos.Unsigned.to_of (Pos.to_uint p)) as E.
  rewrite DecimalPos.Unsigned.of_to in E. simpl in E.
  unfold Decimal.unorm in E.
  destruct (Decimal.nzhead (Pos.to_uint p)) eqn:En;
    try (rewrite E in H; rewrite H in En; by apply DecimalFacts.nzhead_nonzero in En).
  by apply DecimalPos.Unsigned.to_uint_nonzero in E.
Qed.

Lemma integerDigits_to_uint (p : positive) : integerDigits (digitsOfUint (Pos.to_uint p)).
Proof.
  pose proof (to_uint_not_D0 p) as H0.
  pose proof (DecimalPos.Unsigned.to_uint_nonnil p) as Hn.
  destruct (Pos.to_uint p); try done; simpl; eexists _, _;
    (split; [reflexivity|]); split; try reflexivity.
  by destruct (H0 u).
Qed.

Lemma parseNumber_digits (minus : bool) (u : Decimal.uint) (rest : jsstring) :
  integerDigits (digitsOfUint u) ->
  parseNumber ((if minus then [45] else []) ++ digitsOfUint u ++ 44 :: rest)
  = Parsed (JNum (Z.of_int (if minus then Decimal.Neg u else Decimal.Pos u)))
           (44 :: rest).
Proof.
  intros (d & r & E & Hd & H0). unfold parseNumber.
  assert (Hs : (match (if minus then [45] else []) ++ digitsOfUint u ++ 44 :: rest with
                | [] => (false, (if minus then [45] else []) ++ digitsOfUint u ++ 44 :: rest)
                | c :: r0 =>
                    if c =? 45 then (true, r0)
                    else (false, (if minus then [45] else []) ++ digitsOfUint u ++ 44 :: rest)
                end) = (minus, digitsOfUint u ++ 44 :: rest)).
  { destruct minus; [done|]. rewrite E. simpl.
    destruct (Z.eqb_spec d 45) as [->|]; [done|]. done. }
  rewrite Hs, spanDigits_digitsOfUint by done.
  rewrite E, H0. cbn -[uintOfDigits Z.of_int].
  by rewrite <- E, uintOfDigits_digitsOfUint.
Qed.

Lemma parseNumber_numberToString (z : Z) (rest : jsstring) :
  parseNumber (numberToString z ++ 44 :: rest) = Parsed (JNum z) (44 :: rest).
Proof.
  rewrite <- (DecimalZ.of_to z) at 2. unfold numberToString, Z.to_int.
  destruct z as [|p|p].
  - apply (parseNumber_digits false (Decimal.D0 Decimal.Nil)). by eexists _, _.
  - apply (parseNumber_digits false). apply integerDigits_to_uint.
  - apply (parseNumber_digits true). apply integerDigits_to_uint.
Qed.

Lemma numberToString_head (z : Z) :
  exists c r, numberToString z = c :: r /\ (c = 45 \/ isDigit c = true).
Proof.
  unfold numberToString, Z.to_int. destruct z as [|p|p].
  - eexists _, _. split; [reflexivity|]. by right.
  - destruct (integerDigits_to_uint p) as (d & r & -> & Hd & _). eauto.
  - eexists _, _. split; [reflexivity|]. by left.
Qed.

(** ** History entries: parsing what JSON.stringify wrote *)

Lemma stringify_item (e : HistoryItem) (rest : jsstring) :
  JSON_stringify (itemJson e) ++ rest
  = 123 :: QuoteJSONString KEY_ID ++ 58 :: numberToString (id e)
    ++ 44 :: QuoteJSONString KEY_SVG ++ 58 :: QuoteJSONString (svg e)
    ++ 44 :: QuoteJSONString KEY_CODE ++ 58 :: QuoteJSONString (code e)
    ++ 44 :: QuoteJSONString KEY_DATE ++ 58 :: QuoteJSONString (date e)
    ++ 125 :: rest.
Proof.
  unfold itemJson. cbn [JSON_stringify].
  generalize (QuoteJSONString (svg e)), (QuoteJSONString (code e)),
    (QuoteJSONString (date e)), (numberToString (id e)).
  intros a b c d. cbn.
  repeat (rewrite <- app_assoc || rewrite <- app_comm_cons). done.
Qed.

Lemma parseValue_string (f : nat) (s rest : jsstring) :
  wf_string s ->
  parseValue (S f) (QuoteJSONString s ++ rest) = Parsed (JStr s) rest.
Proof.
  intros H. unfold QuoteJSONString. cbn.
  rewrite <- app_assoc. cbn. by rewrite parseChars_quoteChars.
Qed.

Lemma parseValue_number (f : nat) (z : Z) (rest : jsstring) :
  parseValue (S f) (numberToString z ++ 44 :: rest) = Parsed (JNum z) (44 :: rest).
Proof.
  rewrite <- parseNumber_numberToString.
  destruct (numberToString_head z) as (c & r & -> & Hc).
  cbn [parseValue app].
  assert (Hw : skipWs (c :: r ++ 44 :: rest) = c :: r ++ 44 :: rest).
  { simpl. unfold isJsonWs, isDigit in *. destruct Hc as [->|Hc]; [done|].
    zbool; simpl in *; done. }
  rewrite Hw.
  assert (Hne : (c =? 91) = false /\ (c =? 123) = false /\ (c =? 34) = false
                /\ (c =? 110) = false /\ (c =? 116) = false /\ (c =? 102) = false).
  { unfold isDigit in Hc. destruct Hc as [->|Hc]; [done|].
    repeat split; zbool; simpl in *; done. }
  destruct Hne as (-> & -> & -> & Hn & Ht & Hf).
  unfold LIT_NULL, LIT_TRUE, LIT_FALSE. cbn [startsWith].
  by rewrite (Z.eqb_sym 110), (Z.eqb_sym 116), (Z.eqb_sym 102), Hn, Ht, Hf.
Qed.

Lemma parseMembers_member (f : nat) (k s : jsstring) :
  wf_string k ->
  parseMembers (S f) (QuoteJSONString k ++ 58 :: s)
  = pbind (parseValue f s) (afterMember (parseMembers f) k).
Proof.
  intros H. unfold QuoteJSONString. cbn [parseMembers app skipWs isJsonWs].
  cbn. rewrite <- app_assoc. cbn [app]. by rewrite parseChars_quoteChars.
Qed.

Lemma parseValue_object (f : nat) (k r : jsstring) :
  parseValue (S f) (123 :: QuoteJSONString k ++ r)
  = pbind (parseMembers f (QuoteJSONString k ++ r))
      (fun pairs rest => Parsed (objectOf pairs) rest).
Proof. reflexivity. Qed.

Lemma afterMember_comma more (k : jsstring) (v : json) (r : jsstring) :
  afterMember more k v (44 :: r)
  = pbind (more r) (fun kvs rest => Parsed ((k, v) :: kvs) rest).
Proof. reflexivity. Qed.

Lemma afterMember_close more (k : jsstring) (v : json) (r : jsstring) :
  afterMember more k v (125 :: r) = Parsed [(k, v)] r.
Proof. reflexivity. Qed.

Lemma wf_string_lit_keys :
  wf_string KEY_ID /\ wf_string KEY_SVG /\ wf_string KEY_CODE /\ wf_string KEY_DATE.
Proof. unfold wf_string, code_unit. repeat split; repeat constructor; done. Qed.

Lemma parseValue_item (f : nat) (e : HistoryItem) (rest : jsstring) :
  wf_item e ->
  parseValue (6 + f) (JSON_stringify (itemJson e) ++ rest) = Parsed (itemJson e) rest.
Proof.
  intros (Hs & Hc & Hd). destruct wf_string_lit_keys as (Ki & Ks & Kc & Kd).
  rewrite stringify_item.
  change (6 + f)%nat with (S (S (S (S (S (S f)))))).
  rewrite parseValue_object.
  rewrite parseMembers_member, parseValue_number by done.
  cbn [pbind]. rewrite afterMember_comma.
  rewrite parseMembers_member, parseValue_string by done.
  cbn [pbind]. rewrite afterMember_comma.
  rewrite parseMembers_member, parseValue_string by done.
  cbn [pbind]. rewrite afterMember_comma.
  rewrite parseMembers_member, parseValue_string by done.
  cbn [pbind]. rewrite afterMember_close. reflexivity.
Qed.

Lemma stringify_array (l : list json) :
  JSON_stringify (JArr l) = 91 :: elementsText l ++ [93].
Proof. reflexivity. Qed.

Lemma afterElement_comma more (v : json) (r : jsstring) :
  afterElement more v (44 :: r) = pbind (more r) (fun vs rest => Parsed (v :: vs) rest).
Proof. reflexivity. Qed.

Lemma afterElement_close more (v : json) (r : jsstring) :
  afterElement more v (93 :: r) = Parsed [v] r.
Proof. reflexivity. Qed.

Lemma parseElements_items (items : list HistoryItem) (e : HistoryItem) (rest : jsstring) :
  Forall wf_item (e :: items) ->
  parseElements (length (e :: items) + 6)
    (elementsText (map itemJson (e :: items)) ++ 93 :: rest)
  = Parsed (map itemJson (e :: items)) rest.
Proof.
  revert e; induction items as [|e2 items IH]; intros e Hwf;
    apply Forall_cons in Hwf as [He Hwf].
  - cbn [length map elementsText Nat.add parseElements].
    rewrite (parseValue_item 0) by done. cbn [pbind]. apply afterElement_close.
  - change (length (e :: e2 :: items) + 6)%nat
      with (S (length (e2 :: items) + 6)).
    cbn [parseElements].
    change (elementsText (map itemJson (e :: e2 :: items)))
      with (JSON_stringify (itemJson e) ++ [44] ++ elementsText (map itemJson (e2 :: items))).
    rewrite <- !app_assoc. rewrite Nat.add_comm.
    rewrite parseValue_item by done. cbn [pbind app]. rewrite afterElement_comma.
    rewrite Nat.add_comm, IH by done. reflexivity.
Qed.

(** [JSON.parse] reads back what [JSON.stringify] wrote for an array of
    entries. *)
Lemma JSON_parse_stringify_items (items : list HistoryItem) :
  Forall wf_item items ->
  JSON_parse (JSON_stringify (JArr (map itemJson items)))
  = Normal (JArr (map itemJson items)).
Proof.
  intros Hwf. destruct items as [|e items]; [reflexivity|].
  apply (JSON_parse_of_fuel (S (length (e :: items) + 6)) _ _ []); [|done].
  rewrite stringify_array.
  pose proof (parseElements_items items e [] Hwf) as H.
  cbn [parseValue].
  assert (Hh : exists t, elementsText (map itemJson (e :: items)) ++ [93] = 123 :: t).
  { destruct items as [|e2 items]; cbn [map elementsText].
    - rewrite stringify_item. eauto.
    - rewrite <- app_assoc, stringify_item. eauto. }
  destruct Hh as [t Ht]. cbn [skipWs isJsonWs Z.eqb orb]. 
  rewrite Ht in *. cbn. cbn in H. by rewrite H.
Qed.

(** ** The history store *)

Lemma wf_string_trimStart (s : jsstring) : wf_string s -> wf_string (trimStart s).
Proof.
  unfold wf_string. induction s as [|c s IH]; simpl; [done|].
  intros H. destruct (isWhiteSpace c); [|done]. apply IH. by apply Forall_cons in H as [_ ?].
Qed.

Lemma wf_string_trim (s : jsstring) : wf_string s -> wf_string (trim s).
Proof.
  intros H. unfold trim, trimEnd. apply List.Forall_rev, wf_string_trimStart,
    List.Forall_rev. by apply wf_string_trimStart.
Qed.

Lemma removelast_map {A B} (f : A -> B) (l : list A) :
  removelast (map f l) = map f (removelast l).
Proof.
  induction l as [|x [|y l] IH]; try done.
  change (f x :: removelast (map f (y :: l)) = f x :: map f (removelast (y :: l))).
  by rewrite IH.
Qed.

Lemma pushEntry_items (e : HistoryItem) (items : list HistoryItem) :
  pushEntry (itemJson e) (map itemJson items) = map itemJson (recordItem e items).
Proof.
  unfold pushEntry, recordItem.
  change (itemJson e :: map itemJson items) with (map itemJson (e :: items)).
  rewrite length_map. destruct (50 <? Z.of_nat (length (e :: items))); [|done].
  apply removelast_map.
Qed.

Lemma recordItem_take (e : HistoryItem) (items : list HistoryItem) :
  (length items <= 50)%nat -> recordItem e items = take 50 (e :: items).
Proof.
  intros H. unfold recordItem. destruct (Z.ltb_spec 50 (Z.of_nat (length (e :: items)))).
  - rewrite removelast_firstn_len. f_equal. simpl in *. lia.
  - rewrite take_ge; [done|]. simpl in *. lia.
Qed.

Lemma headHasSvg_items (items : list HistoryItem) (currentSvg : jsstring) :
  headHasSvg (map itemJson items) currentSvg
  = Normal (match items with
            | [] => false
            | e :: _ => str_eqb (svg e) currentSvg
            end).
Proof. by destruct items. Qed.

Lemma getItem_setItem (k v : jsstring) (p : Page) : getItem k (setItem k v p) = Some v.
Proof. unfold getItem, setItem. simpl. apply lookup_insert_eq. Qed.

Lemma getHistory_stored (p : Page) (items : list HistoryItem) :
  Forall wf_item items ->
  getItem STORAGE_KEY p = Some (JSON_stringify (JArr (map itemJson items))) ->
  getHistory p = JArr (map itemJson items).
Proof.
  intros Hwf H. unfold getHistory. rewrite H, stringify_array. cbn [orElse].
  rewrite <- stringify_array, JSON_parse_stringify_items by done. done.
Qed.

Lemma getHistory_setItem (p : Page) (items : list HistoryItem) :
  Forall wf_item items ->
  getHistory (setItem STORAGE_KEY (JSON_stringify (JArr (map itemJson items))) p)
  = JArr (map itemJson items).
Proof. intros H. apply getHistory_stored; [done|]. apply getItem_setItem. Qed.

Lemma wf_item_newEntry (now : Z) (d : jsstring) (p : Page) :
  wf_page p -> wf_string d -> wf_item (newEntry now d p).
Proof. intros [? ?] ?. repeat split; simpl; by try apply wf_string_trim. Qed.

(** One call of [saveHistory] on a page whose stored history is an array
    of entries. *)
Section OneCall.

Variables (now : Z) (d : jsstring) (p : Page) (items : list HistoryItem).
Hypothesis stored : getHistory p = JArr (map itemJson items).
Hypothesis wf_items : Forall wf_item items.
Hypothesis wf_fields : wf_page p.
Hypothesis wf_date : wf_string d.

Lemma wf_item_recordItem : Forall wf_item (recordItem (newEntry now d p) items).
Proof.
  unfold recordItem.
  assert (Forall wf_item (newEntry now d p :: items))
    by (apply Forall_cons; split; [by apply wf_item_newEntry|done]).
  destruct (50 <? _); [|done]. rewrite removelast_firstn_len. by apply Forall_take.
Qed.

Lemma newEntry_trimmed (c : Z) (r : jsstring) :
  trim (svgInput p) = c :: r ->
  {| id := now; svg := c :: r; code := trim (outputCode p); date := d |}
  = newEntry now d p.
Proof. intros Et. unfold newEntry. by rewrite Et. Qed.

Lemma Part001_saveHistory_spec :
  getHistory (Part001.saveHistory now d p)
  = JArr (map itemJson (recorded now d p items))
  /\ Forall wf_item (recorded now d p items)
  /\ svgInput (Part001.saveHistory now d p) = svgInput p
  /\ outputCode (Part001.saveHistory now d p) = outputCode p.
Proof.
  unfold Part001.saveHistory, recorded.
  destruct (trim (svgInput p)) as [|c r] eqn:Et; [done|].
  rewrite stored, headHasSvg_items.
  destruct (match items with [] => false | e :: _ => str_eqb (svg e) (c :: r) end);
    [done|].
  rewrite (newEntry_trimmed c r Et), pushEntry_items.
  pose proof wf_item_recordItem. by rewrite getHistory_setItem.
Qed.

(** In [src/main.ts] there is no look at the head entry. *)
Lemma MainTs_saveHistory_spec :
  getHistory (MainTs.saveHistory now d p)
  = JArr (map itemJson (match trim (svgInput p) with
                        | [] => items
                        | _ :: _ => recordItem (newEntry now d p) items
                        end)).
Proof.
  unfold MainTs.saveHistory.
  destruct (trim (svgInput p)) as [|c r] eqn:Et; [done|]. rewrite stored.
  rewrite (newEntry_trimmed c r Et), pushEntry_items.
  apply getHistory_setItem, wf_item_recordItem.
Qed.

End OneCall.

Lemma recordItem_head (e : HistoryItem) (items : list HistoryItem) :
  exists r, recordItem e items = e :: r.
Proof.
  unfold recordItem. destruct (Z.ltb_spec 50 (Z.of_nat (length (e :: items)))); [|eauto].
  destruct items as [|x items]; [simpl in *; lia|]. by eexists.
Qed.

Lemma Part001_saveHistory_suppressed (now : Z) (d : jsstring) (p : Page)
    (history : list json) :
  getHistory p = JArr history ->
  headHasSvg history (trim (svgInput p)) = Normal true ->
  Part001.saveHistory now d p = p.
Proof.
  intros Hh Hs. unfold Part001.saveHistory.
  destruct (trim (svgInput p)); [done|]. by rewrite Hh, Hs.
Qed.

(** Recording the same text twice in a row (part_001): the second call
    changes nothing. *)
Lemma Part001_saveHistory_twice (now now' : Z) (d d' : jsstring) (p : Page)
    (items : list HistoryItem) :
  getHistory p = JArr (map itemJson items) ->
  Forall wf_item items -> wf_page p -> wf_string d ->
  Part001.saveHistory now' d' (Part001.saveHistory now d p)
  = Part001.saveHistory now d p.
Proof.
  intros Hh Hwf Hp Hd.
  destruct (Part001_saveHistory_spec now d p items Hh Hwf Hp Hd) as (Hh' & _ & Hi & _).
  destruct (trim (svgInput p)) as [|c r] eqn:Et.
  { unfold Part001.saveHistory at 2 3. rewrite Et.
    unfold Part001.saveHistory. by rewrite Et. }
  apply (Part001_saveHistory_suppressed _ _ _ _ Hh').
  rewrite Hi, headHasSvg_items. unfold recorded. rewrite Et.
  destruct (match items with [] => false | e :: _ => str_eqb (svg e) (c :: r) end) eqn:E.
  - by rewrite E.
  - destruct (recordItem_head (newEntry now d p) items) as [t ->].
    simpl. by rewrite Et, str_eqb_refl.
Qed.

(** ** Sequences of recordings *)


Lemma getHistory_setSvgInput (s : jsstring) (p : Page) :
  getHistory (setSvgInput s p) = getHistory p.
Proof. reflexivity. Qed.

Lemma recordAll_spec (calls : list Call) (p : Page) (items : list HistoryItem) :
  getHistory p = JArr (map itemJson items) ->
  Forall wf_item items -> wf_string (outputCode p) ->
  Forall validCall calls ->
  noRepeat (svg <$> head items) (map (fun c => trim (text c)) calls) ->
  getHistory (recordAll calls p)
  = JArr (map itemJson
            (fold_left (fun h c => recordItem (entryOf (outputCode p) c) h) calls items))
  /\ outputCode (recordAll calls p) = outputCode p.
Proof.
  revert p items; induction calls as [|c calls IH]; intros p items Hh Hwf Ho Hv Hn;
    [done|].
  apply Forall_cons in Hv as [(Hne & Ht & Hs) Hv]. destruct Hn as [Hprev Hn].
  change (recordAll (c :: calls) p) with
    (recordAll calls (Part001.saveHistory (clock c) (stamp c) (withInput (text c) p))).
  cbn [fold_left].
  set (p1 := withInput (text c) p).
  assert (Hp1 : wf_page p1) by done.
  destruct (Part001_saveHistory_spec (clock c) (stamp c) p1 items Hh Hwf Hp1 Hs)
    as (Hh' & Hwf' & _ & Ho').
  assert (Hr : recorded (clock c) (stamp c) p1 items
               = recordItem (entryOf (outputCode p) c) items).
  { unfold recorded. change (svgInput p1) with (text c).
    destruct (trim (text c)) as [|x r] eqn:Et; [done|].
    assert (E : match items with [] => false | e :: _ => str_eqb (svg e) (x :: r) end
                = false).
    { destruct items as [|e items]; [done|]. apply str_eqb_neq.
      intros E. apply Hprev. simpl. by rewrite E. }
    rewrite E. unfold newEntry, entryOf. change (svgInput p1) with (text c).
    by rewrite Et. }
  rewrite Hr in Hh', Hwf'.
  destruct (IH _ _ Hh' Hwf') as [IH1 IH2]; [by rewrite Ho'|done| |].
  - destruct (recordItem_head (entryOf (outputCode p) c) items) as [t ->]. done.
  - rewrite IH1, IH2, Ho'. done.
Qed.

Lemma take_app_take {A} (n : nat) (a b : list A) :
  take n (a ++ take n b) = take n (a ++ b).
Proof.
  rewrite !take_app. f_equal. rewrite take_take. f_equal. lia.
Qed.

Lemma fold_recordItem {C} (f : C -> HistoryItem) (calls : list C)
    (items : list HistoryItem) :
  (length items <= 50)%nat ->
  fold_left (fun h c => recordItem (f c) h) calls items
  = take 50 (rev (map f calls) ++ items).
Proof.
  revert items; induction calls as [|c calls IH]; intros items H; simpl.
  - by rewrite take_ge.
  - rewrite IH, recordItem_take by (rewrite ?recordItem_take, ?length_take by done; lia).
    by rewrite take_app_take, <- app_assoc.
Qed.


Lemma getHistory_absent (p : Page) :
  getItem STORAGE_KEY p = None -> getHistory p = JArr [].
Proof. intros H. unfold getHistory. by rewrite H. Qed.


Lemma isCodeUnits_wf (s : jsstring) : isCodeUnits s = true -> wf_string s.
Proof.
  unfold isCodeUnits, wf_string, code_unit. rewrite forallb_forall, List.Forall_forall.
  intros H c Hc. specialize (H c Hc). lia.
Qed.



(** C9 (amended): the id of an entry is the clock reading of its call; two
    successive recordings leave their two entries at the head of the
    history, the later one first; the ids are ordered as the clock readings
    are, and differ when the clock readings differ. *)
Theorem entry_ids_are_clock_readings (c1 c2 : Call) (p : Page)
    (items : list HistoryItem) :
  getHistory p = JArr (map itemJson items) ->
  Forall wf_item items -> wf_string (outputCode p) -> (length items <= 50)%nat ->
  validCall c1 -> validCall c2 ->
  svg <$> head items <> Some (trim (text c1)) ->
  trim (text c1) <> trim (text c2) ->
  getHistory (recordAll [c1; c2] p)
  = JArr (map itemJson
            (take 50 (entryOf (outputCode p) c2 :: entryOf (outputCode p) c1 :: items)))
  /\ id (entryOf (outputCode p) c1) = clock c1
  /\ id (entryOf (outputCode p) c2) = clock c2
  /\ (clock c1 <= clock c2 ->
      id (entryOf (outputCode p) c1) <= id (entryOf (outputCode p) c2))
  /\ (clock c1 <> clock c2 ->
      id (entryOf (outputCode p) c1) <> id (entryOf (outputCode p) c2)).
Proof.
  intros Hh Hwf Ho Hlen Hv1 Hv2 Hp H12.
  destruct (recordAll_spec [c1; c2] p items Hh Hwf Ho) as [Hr _].
  { repeat (apply List.Forall_cons; [assumption|]). apply List.Forall_nil. }
  { repeat split; try done. by intros [= E]. }
  rewrite fold_recordItem in Hr by done. by repeat split.
Qed.

Lemma validCall_sampleCall_a : validCall (sampleCall "a" 1000).
Proof. repeat split; try discriminate; by apply isCodeUnits_wf. Qed.

Lemma validCall_sampleCall_b : validCall (sampleCall "b" 1001).
Proof. repeat split; try discriminate; by apply isCodeUnits_wf. Qed.

Lemma entry_ids_are_clock_readings_witness :
  getHistory (pageWith []) = JArr (map itemJson [])
  /\ validCall (sampleCall "a" 1000) /\ validCall (sampleCall "b" 1001)
  /\ trim (text (sampleCall "a" 1000)) <> trim (text (sampleCall "b" 1001))
  /\ getHistory (recordAll [sampleCall "a" 1000; sampleCall "b" 1001] (pageWith []))
     = JArr (map itemJson
               (take 50 [entryOf [] (sampleCall "b" 1001); entryOf [] (sampleCall "a" 1000)]))
  /\ id (entryOf [] (sampleCall "a" 1000)) <= id (entryOf [] (sampleCall "b" 1001)).
Proof.
  assert (H12 : trim (text (sampleCall "a" 1000)) <> trim (text (sampleCall "b" 1001)))
    by discriminate.
  assert (Hh : svg <$> head [] <> Some (trim (text (sampleCall "a" 1000))))
    by discriminate.
  assert (Hle : (length (@nil HistoryItem) <= 50)%nat) by (simpl; lia).
  assert (Hc : clock (sampleCall "a" 1000) <= clock (sampleCall "b" 1001))
    by (simpl; lia).
  pose proof (entry_ids_are_clock_readings (sampleCall "a" 1000) (sampleCall "b" 1001)
                (pageWith []) [] eq_refl (List.Forall_nil wf_item)
                (List.Forall_nil code_unit) Hle validCall_sampleCall_a
                validCall_sampleCall_b Hh H12) as (Hr & _ & _ & Hmono & _).
  split; [reflexivity|]. split; [exact validCall_sampleCall_a|].
  split; [exact validCall_sampleCall_b|]. split; [exact H12|].
  split; [exact Hr|exact (Hmono Hc)].
Defined.

(** C9, as stated, fails: two recordings at the same clock reading give two
    entries with one id, and a clock that steps back gives a later entry
    with a smaller id. *)
Lemma entry_ids_counterexample :
  (exists e1 e2,
     getHistory (recordAll [sampleCall "a" 1000; sampleCall "b" 1000] (pageWith []))
     = JArr [itemJson e2; itemJson e1]
     /\ svg e1 = lit "a" /\ svg e2 = lit "b" /\ id e1 = id e2)
  /\ (exists e1 e2,
        getHistory (recordAll [sampleCall "a" 2000; sampleCall "b" 1000] (pageWith []))
        = JArr [itemJson e2; itemJson e1]
        /\ svg e1 = lit "a" /\ svg e2 = lit "b" /\ id e2 < id e1).
Proof.
  split.
  - exists (entryOf [] (sampleCall "a" 1000)), (entryOf [] (sampleCall "b" 1000)).
    split; [by vm_compute|]. by repeat split.
  - exists (entryOf [] (sampleCall "a" 2000)), (entryOf [] (sampleCall "b" 1000)).
    split; [by vm_compute|]. by repeat split.
Qed.

(** C3: in [src/main.ts] a second call of [saveHistory] with the same text
    records it again: the history grows from one entry to two. *)
Theorem MainTs_saveHistory_records_duplicate :
  getHistory (MainTs.saveHistory 1000 (lit "today") (pageWith (lit "<svg/>")))
  = JArr [itemJson {| id := 1000; svg := lit "<svg/>"; code := []; date := lit "today" |}]
  /\ getHistory (MainTs.saveHistory 1001 (lit "today")
                   (MainTs.saveHistory 1000 (lit "today") (pageWith (lit "<svg/>"))))
     = JArr [itemJson {| id := 1001; svg := lit "<svg/>"; code := [];
                         date := lit "today" |};
             itemJson {| id := 1000; svg := lit "<svg/>"; code := [];
                         date := lit "today" |}].
Proof. split; by vm_compute. Qed.

(** The same two calls in part_001 leave one entry. *)
Example Part001_saveHistory_duplicate_suppressed :
  getHistory (Part001.saveHistory 1001 (lit "today")
                (Part001.saveHistory 1000 (lit "today") (pageWith (lit "<svg/>"))))
  = JArr [itemJson {| id := 1000; svg := lit "<svg/>"; code := [];
                      date := lit "today" |}].
Proof. by vm_compute. Qed.

(** C6: [getHistory] returns for every stored value: parsing reaches a
    verdict, and the result is the empty array when the key is absent or
    when [JSON.parse] throws, the parsed value otherwise. *)
Theorem getHistory_never_throws (p : Page) :
  parseValue (2 * length (orElse (getItem STORAGE_KEY p) EMPTY_ARRAY) + 1)
    (orElse (getItem STORAGE_KEY p) EMPTY_ARRAY) <> OutOfFuel
  /\ (getItem STORAGE_KEY p = None -> getHistory p = JArr [])
  /\ (forall e, JSON_parse (orElse (getItem STORAGE_KEY p) EMPTY_ARRAY) = Throw e ->
                getHistory p = JArr [])
  /\ (forall v, JSON_parse (orElse (getItem STORAGE_KEY p) EMPTY_ARRAY) = Normal v ->
                getHistory p = v).
Proof.
  split; [apply JSON_parse_fuel|]. split; [apply getHistory_absent|].
  unfold getHistory. split; intros x ->; done.
Qed.

Lemma getHistory_never_throws_witness :
  JSON_parse (orElse (getItem STORAGE_KEY (pageStoring (lit "[{oops"))) EMPTY_ARRAY)
  = Throw SyntaxError
  /\ getHistory (pageStoring (lit "[{oops")) = JArr [].
Proof.
  split; [reflexivity|].
  exact (proj1 (proj2 (proj2 (getHistory_never_throws (pageStoring (lit "[{oops")))))
           SyntaxError eq_refl).
Defined.

(** C7: the exported text is the text [getHistory] parses, the stored text
    itself when there is one; whenever it parses, the value is what
    [getHistory] returns, and it does parse when [saveHistory] wrote it. *)
Theorem export_is_persisted_text (p : Page) :
  getHistory p = tryCatch (JSON_parse (exportData p)) (JArr [])
  /\ (forall t, getItem STORAGE_KEY p = Some t -> t <> [] -> exportData p = t)
  /\ (forall v, JSON_parse (exportData p) = Normal v -> getHistory p = v)
  /\ (forall items,
        Forall wf_item items ->
        getItem STORAGE_KEY p = Some (JSON_stringify (JArr (map itemJson items))) ->
        exportData p = JSON_stringify (JArr (map itemJson items))
        /\ JSON_parse (exportData p) = Normal (getHistory p)).
Proof.
  split; [done|]. split; [|split].
  - intros t Ht Hne. unfold exportData. rewrite Ht. by destruct t.
  - intros v Hv. unfold getHistory, exportData in *. by rewrite Hv.
  - intros items Hwf Hs.
    assert (He : exportData p = JSON_stringify (JArr (map itemJson items))).
    { unfold exportData. by rewrite Hs, stringify_array. }
    split; [done|].
    by rewrite (getHistory_stored p items Hwf Hs), He, JSON_parse_stringify_items.
Qed.

Lemma export_is_persisted_text_witness :
  getItem STORAGE_KEY (pageStoring (JSON_stringify (JArr (map itemJson [sampleItem]))))
  = Some (JSON_stringify (JArr (map itemJson [sampleItem])))
  /\ Forall wf_item [sampleItem]
  /\ exportData (pageStoring (JSON_stringify (JArr (map itemJson [sampleItem]))))
     = JSON_stringify (JArr (map itemJson [sampleItem]))
  /\ JSON_parse (exportData (pageStoring (JSON_stringify (JArr (map itemJson [sampleItem])))))
     = Normal (getHistory (pageStoring (JSON_stringify (JArr (map itemJson [sampleItem]))))).
Proof.
  assert (Hwf : Forall wf_item [sampleItem]).
  { apply List.Forall_cons; [|apply List.Forall_nil].
    repeat split; by apply isCodeUnits_wf. }
  split; [reflexivity|]. split; [exact Hwf|].
  exact (proj2 (proj2 (proj2 (export_is_persisted_text
           (pageStoring (JSON_stringify (JArr (map itemJson [sampleItem]))))))) 
           [sampleItem] Hwf eq_refl).
Defined.

(** The example of the specification: the double quotes become [%22]. *)
Example normalize_spec_example :
  normalize (lit "<svg width=" ++ [34; 49; 34] ++ lit " height=" ++ [34; 49; 34]
             ++ lit "></svg>")
  = Normal (Generated
      {| cleanSvg := lit "<svg width=" ++ [34; 49; 34] ++ lit " height="
                            ++ [34; 49; 34] ++ lit "></svg>";
         dataUri := lit "data:image/svg+xml,%3Csvg%20width%3D%221%22%20height%3D%221%22%3E%3C%2Fsvg%3E";
         tag := linkTag (lit "data:image/svg+xml,%3Csvg%20width%3D%221%22%20height%3D%221%22%3E%3C%2Fsvg%3E") |}).
Proof. reflexivity. Qed.

(** After a clear the history is empty. *)
Lemma getHistory_clearHistory (p : Page) : getHistory (clearHistory p) = JArr [].
Proof.
  apply getHistory_absent. unfold getItem, clearHistory, removeItem. simpl.
  apply lookup_delete_eq.
Qed.

(** * The rest of the scripts: further properties *)

(** ** Padding with white space *)

Lemma trimStart_blank_prefix (a s : jsstring) :
  forallb isWhiteSpace a = true -> trimStart (a ++ s) = trimStart s.
Proof.
  induction a as [|c a IH]; [done|]. simpl.
  rewrite andb_true_iff. intros [-> H]. by apply IH.
Qed.

Lemma trimStart_app_nonblank (s b : jsstring) :
  trimStart s <> [] -> trimStart (s ++ b) = trimStart s ++ b.
Proof.
  induction s as [|c s IH]; [done|]. simpl.
  destruct (isWhiteSpace c); [apply IH|done].
Qed.

Lemma trimEnd_blank_suffix (s b : jsstring) :
  forallb isWhiteSpace b = true -> trimEnd (s ++ b) = trimEnd s.
Proof.
  intros H. unfold trimEnd. rewrite rev_app_distr, trimStart_blank_prefix; [done|].
  by rewrite forallb_rev.
Qed.

Lemma trim_padding (a s b : jsstring) :
  forallb isWhiteSpace a = true -> forallb isWhiteSpace b = true ->
  trim (a ++ s ++ b) = trim s.
Proof.
  intros Ha Hb. unfold trim. rewrite trimStart_blank_prefix by done.
  destruct (trimStart s) as [|c r] eqn:E.
  - apply trimStart_all_ws in E.
    assert (H : trimStart (s ++ b) = []).
    { apply trimStart_all_ws. by rewrite forallb_app, E, Hb. }
    by rewrite H.
  - rewrite trimStart_app_nonblank by (by rewrite E). rewrite E.
    by apply trimEnd_blank_suffix.
Qed.

Lemma trim_idempotent (s : jsstring) : trim (trim s) = trim s.
Proof.
  destruct (trim_shape s) as [->|[(h & -> & Hh)|(h & m & l & -> & Hh & Hl)]].
  - done.
  - unfold trim, trimEnd. simpl. rewrite Hh. simpl. by rewrite Hh.
  - by apply trim_keep.
Qed.

(** X1: white space around the text of the input field never changes what
    [processInput] computes. *)
Theorem surrounding_white_space_ignored (a s b : jsstring) :
  forallb isWhiteSpace a = true -> forallb isWhiteSpace b = true ->
  normalize (a ++ s ++ b) = normalize s.
Proof. intros Ha Hb. unfold normalize. by rewrite trim_padding. Qed.

Lemma surrounding_white_space_ignored_witness :
  forallb isWhiteSpace [32; 10; 9] = true
  /\ forallb isWhiteSpace [13; 10; 160] = true
  /\ normalize ([32; 10; 9] ++ lit "<svg/>" ++ [13; 10; 160]) = normalize (lit "<svg/>").
Proof.
  do 2 (split; [reflexivity|]).
  exact (surrounding_white_space_ignored [32; 10; 9] (lit "<svg/>") [13; 10; 160]
           eq_refl eq_refl).
Defined.

(** ** The shape of an escaped text *)

Lemma forallb_weaken {A} (f g : A -> bool) (l : list A) :
  (forall x, f x = true -> g x = true) -> forallb f l = true -> forallb g l = true.
Proof.
  intros H. induction l as [|x l IH]; simpl; [done|].
  rewrite !andb_true_iff. intros [? ?]. split; [by apply H|by apply IH].
Qed.

Lemma dataUriChar_uriOutput (c : Z) : dataUriChar c = true -> uriOutput c = true.
Proof. unfold dataUriChar, uriOutput, uriUnescaped. rewrite !orb_true_iff. tauto. Qed.

Lemma not_surrogate (c : Z) :
  isLowSurrogate c = false -> isHighSurrogate c = false -> ~ 55296 <= c <= 57343.
Proof.
  intros Hl Hh Hr. destruct (Z.le_gt_cases c 56319).
  - assert (isHighSurrogate c = true) by (apply surrogate_bounds; lia). congruence.
  - assert (isLowSurrogate c = true) by (apply surrogate_bounds; lia). congruence.
Qed.

(** The escaped text is built from copied code units of the unescaped set
    and from escapes of code points. *)
Lemma Encode_pieces (P : jsstring -> jsstring -> Prop) :
  P [] [] ->
  (forall c s t, uriUnescaped c = true -> P s t -> P (c :: s) (c :: t)) ->
  (forall c s t, 0 <= c < 65536 -> ~ 55296 <= c <= 57343 -> uriUnescaped c = false ->
                 P s t -> P (c :: s) (escapeCodePoint c ++ t)) ->
  (forall hi lo s t, isHighSurrogate hi = true -> isLowSurrogate lo = true ->
                     P s t -> P (hi :: lo :: s) (escapeCodePoint (pairCodePoint hi lo) ++ t)) ->
  forall s, wf_string s -> forall e, encodeURIComponent s = Normal e -> P s e.
Proof.
  intros H0 Hu He Hp. unfold encodeURIComponent.
  induction s as [|c s IH1 IH2] using list_pair_ind; intros Hwf e Henc.
  - simpl in Henc. by injection Henc as <-.
  - apply Forall_cons in Hwf as [Hc Hwf]. unfold code_unit in Hc. simpl in Henc.
    destruct (uriUnescaped c) eqn:Eu.
    { destruct (Encode uriUnescaped s) as [t|] eqn:Et; [|done].
      simpl in Henc. injection Henc as <-. apply Hu; [done|]. by apply IH1. }
    destruct (isLowSurrogate c) eqn:El; [done|].
    destruct (isHighSurrogate c) eqn:Eh; simpl in Henc.
    + destruct s as [|k r]; [done|].
      destruct (isLowSurrogate k) eqn:Ek; [|done].
      destruct (Encode uriUnescaped r) as [t|] eqn:Et; [|done].
      simpl in Henc. injection Henc as <-.
      apply Forall_cons in Hwf as [Hk Hwf].
      apply Hp; [done..|]. by apply (IH2 k r eq_refl).
    + destruct (Encode uriUnescaped s) as [t|] eqn:Et; [|done].
      simpl in Henc. injection Henc as <-.
      apply He; [done| by apply not_surrogate |done|]. by apply IH1.
Qed.

Lemma pairCodePoint_range (hi lo : Z) :
  isHighSurrogate hi = true -> isLowSurrogate lo = true ->
  65536 <= pairCodePoint hi lo <= 1114111.
Proof.
  intros Hh Hl. apply surrogate_bounds in Hh. apply surrogate_bounds in Hl.
  unfold pairCodePoint. lia.
Qed.

Lemma dataUriChar_percentEncode (b : Z) :
  0 <= b < 256 -> forallb dataUriChar (percentEncode b) = true.
Proof.
  intros H. unfold percentEncode. simpl.
  pose proof (hexDigitUpper_range (b / 16) ltac:(lia)).
  pose proof (hexDigitUpper_range (b mod 16) ltac:(lia)).
  unfold dataUriChar, isAlnum; zbool; done.
Qed.

Lemma dataUriChar_escapeCodePoint (v : Z) :
  0 <= v <= 1114111 -> forallb dataUriChar (escapeCodePoint v) = true.
Proof.
  intros H. unfold escapeCodePoint, utf8Encode.
  zbool; cbn [flat_map]; rewrite ?forallb_app, ?dataUriChar_percentEncode by lia; done.
Qed.

Lemma dataUriChar_requote_unescaped (c : Z) :
  uriUnescaped c = true -> forallb dataUriChar (requote [c]) = true.
Proof.
  intros H. destruct (Z.eq_dec c 39) as [->|H39]; [done|].
  pose proof (uriUnescaped_cases c H) as (_ & H34 & _).
  rewrite requote_plain by done. simpl. rewrite andb_true_r.
  unfold uriUnescaped in H. unfold dataUriChar.
  destruct (Z.eqb_spec c 39); [done|]. rewrite orb_false_r in H.
  rewrite !orb_true_iff in *. tauto.
Qed.

Lemma dataUriChar_requote_encode (s : jsstring) :
  wf_string s -> forall t, encodeURIComponent s = Normal t ->
  forallb dataUriChar (requote t) = true.
Proof.
  apply (Encode_pieces (fun _ t => forallb dataUriChar (requote t) = true)).
  - done.
  - intros c _ t Hc Ht.
    by rewrite requote_cons, forallb_app, dataUriChar_requote_unescaped, Ht.
  - intros c _ t Hc _ _ Ht.
    rewrite requote_app, requote_escapeCodePoint, forallb_app by lia.
    by rewrite dataUriChar_escapeCodePoint, Ht by lia.
  - intros hi lo _ t Hh Hl Ht. pose proof (pairCodePoint_range hi lo Hh Hl).
    rewrite requote_app, requote_escapeCodePoint, forallb_app by lia.
    by rewrite dataUriChar_escapeCodePoint, Ht by lia.
Qed.

(** The escaped text never holds a double quote: the second replacement of
    [generate] finds nothing to replace. *)
Lemma uriOutput_encode (s : jsstring) :
  wf_string s -> forall t, encodeURIComponent s = Normal t ->
  forallb uriOutput t = true.
Proof.
  apply (Encode_pieces (fun _ t => forallb uriOutput t = true)).
  - done.
  - intros c _ t Hc Ht. simpl. unfold uriOutput at 1. by rewrite Hc, Ht.
  - intros c _ t Hc _ _ Ht. rewrite forallb_app, Ht, andb_true_r.
    pose proof (dataUriChar_escapeCodePoint c ltac:(lia)) as H.
    by apply (forallb_weaken _ _ _ dataUriChar_uriOutput).
  - intros hi lo _ t Hh Hl Ht. pose proof (pairCodePoint_range hi lo Hh Hl) as Hr.
    rewrite forallb_app, Ht, andb_true_r.
    pose proof (dataUriChar_escapeCodePoint (pairCodePoint hi lo) ltac:(lia)) as H.
    by apply (forallb_weaken _ _ _ dataUriChar_uriOutput).
Qed.

(** ** Sequences of code units stay sequences of code units *)

Lemma wf_string_app (a b : jsstring) : wf_string (a ++ b) <-> wf_string a /\ wf_string b.
Proof. apply Forall_app. Qed.

Lemma hexValue_range (c v : Z) : hexValue c = Some v -> 0 <= v < 16.
Proof. unfold hexValue. repeat case_match; intros [= <-]; zbool; simpl in *; try done; lia. Qed.

Lemma hexByte_range (a b B : Z) : hexByte a b = Some B -> 0 <= B < 256.
Proof.
  unfold hexByte. destruct (hexValue a) as [x|] eqn:Ea; [|done].
  destruct (hexValue b) as [y|] eqn:Eb; [|done]. intros [= <-].
  apply hexValue_range in Ea, Eb. lia.
Qed.

Lemma continuationByte_range (p a b B : Z) :
  continuationByte p a b = Some B -> 128 <= B <= 191.
Proof.
  unfold continuationByte. repeat case_match; try done. intros [= <-].
  match goal with H : _ && _ = true |- _ => apply andb_true_iff in H as [? ?] end. lia.
Qed.

Lemma wf_string_utf16Encode (v : Z) : 0 <= v <= 1114111 -> wf_string (utf16Encode v).
Proof.
  intros H. unfold utf16Encode, wf_string, code_unit.
  destruct (Z.ltb_spec v 65536); repeat constructor; lia.
Qed.

Lemma Decode_wf (s : jsstring) :
  wf_string s -> forall t, Decode s = Normal t -> wf_string t.
Proof.
  induction s as [s IH] using list_strong_ind. intros Hwf out.
  destruct s as [|c r]; [by intros [= <-]|].
  assert (Hk : forall (t pre : jsstring),
             (length t < length (c :: r))%nat -> wf_string t -> wf_string pre ->
             (let* x := Decode t in Normal (pre ++ x)) = Normal out -> wf_string out).
  { intros t pre Hlen Ht Hpre H. destruct (Decode t) as [x|] eqn:E; [|done].
    simpl in H. injection H as <-. apply wf_string_app. split; [done|].
    by apply (IH t). }
  assert (Hsuffix : forall n, wf_string (drop n (c :: r))) by (intros n; by apply Forall_drop).
  simpl.
  repeat case_match; subst; try done;
    repeat match goal with
      | H : hexByte _ _ = Some _ |- _ => apply hexByte_range in H
      | H : continuationByte _ _ _ = Some _ |- _ => apply continuationByte_range in H
      | H : (_ <? _) = true |- _ => apply Z.ltb_lt in H
      | H : (_ <? _) = false |- _ => apply Z.ltb_ge in H
      | H : _ || _ = false |- _ => apply orb_false_iff in H as [? ?]
      end.
  - apply (Hk r [c]); [simpl; lia|apply (Hsuffix 1%nat)|].
    apply Forall_cons in Hwf as [? _]. by apply List.Forall_cons; [|apply List.Forall_nil].
  - match goal with |- (let* t := Decode ?r1 in _) = _ -> _ =>
      apply (Hk r1 [_]); [simpl; lia|apply (Hsuffix 3%nat)|] end.
    apply List.Forall_cons; [unfold code_unit; lia|apply List.Forall_nil].
  - match goal with |- (let* t := Decode ?r1 in _) = _ -> _ =>
      apply (Hk r1); [simpl; lia|apply (Hsuffix 6%nat)|] end.
    apply wf_string_utf16Encode. lia.
  - match goal with |- (let* t := Decode ?r1 in _) = _ -> _ =>
      apply (Hk r1); [simpl; lia|apply (Hsuffix 9%nat)|] end.
    apply wf_string_utf16Encode. lia.
  - match goal with |- (let* t := Decode ?r1 in _) = _ -> _ =>
      apply (Hk r1); [simpl; lia|apply (Hsuffix 12%nat)|] end.
    apply wf_string_utf16Encode. lia.
Qed.

Lemma wf_string_upToQuote (s m : jsstring) :
  wf_string s -> upToQuote s = Some m -> wf_string m.
Proof.
  revert m. induction s as [|c s IH]; intros m Hwf; simpl; [done|].
  apply Forall_cons in Hwf as [Hc Hwf].
  destruct (c =? 34); [intros [= <-]; apply List.Forall_nil|].
  destruct (upToQuote s) as [m'|]; [|done]. intros [= <-].
  apply List.Forall_cons; [done|]. by apply IH.
Qed.

Lemma wf_string_match_href (s m : jsstring) :
  wf_string s -> match_href s = Some m -> wf_string m.
Proof.
  induction s as [|c s IH]; intros Hwf; [done|].
  assert (Hs : wf_string s) by (by apply Forall_cons in Hwf as [_ ?]).
  cbn [match_href].
  destruct (startsWith HREF_OPEN (c :: s)); [|by apply IH].
  destruct (upToQuote (drop 6 (c :: s))) as [cap|] eqn:E; [|by apply IH].
  intros [= <-]. apply (wf_string_upToQuote (drop 6 (c :: s))); [|done].
  by apply Forall_drop.
Qed.

Lemma wf_string_unwrapLink (s : jsstring) : wf_string s -> wf_string (unwrapLink s).
Proof.
  intros H. unfold unwrapLink. destruct (startsWith LINK_PREFIX s); [|done].
  destruct (match_href s) as [m|] eqn:E; [|done]. by apply (wf_string_match_href s).
Qed.

Lemma wf_string_unwrap (s r : jsstring) (b : bool) :
  wf_string s -> unwrap s = Normal (r, b) -> wf_string r.
Proof.
  intros H. apply wf_string_unwrapLink in H. unfold unwrap, unwrapDataUri.
  destruct (startsWith DATA_PREFIX (unwrapLink s)) eqn:E; [|by intros [= <- <-]].
  apply startsWith_inv in E. rewrite E in *. rewrite replaceFirst_prefix.
  apply wf_string_app in H as [_ H]. unfold decodeURIComponent.
  destruct (Decode _) as [t|] eqn:Ed; [|done]. simpl. intros [= <- <-].
  by apply (Decode_wf _ H).
Qed.

Lemma wf_string_removeLineBreaks (s : jsstring) :
  wf_string s -> wf_string (removeLineBreaks s).
Proof.
  rewrite removeLineBreaks_filter. intros H.
  induction H as [|c s Hc Hs IH]; [apply List.Forall_nil|].
  rewrite filter_cons. case_decide; [apply List.Forall_cons|]; done.
Qed.

Lemma wf_string_collapseRuns (b : bool) (s : jsstring) :
  wf_string s -> wf_string (collapseRuns b s).
Proof.
  revert b. induction s as [|c s IH]; intros b Hwf; [done|].
  apply Forall_cons in Hwf as [Hc Hwf]. simpl.
  destruct (isWhiteSpace c); [destruct b|]; try apply List.Forall_cons;
    try apply IH; try done.
Qed.

Lemma wf_string_minimize (s : jsstring) : wf_string s -> wf_string (minimize s).
Proof. intros H. by apply wf_string_collapseRuns, wf_string_removeLineBreaks. Qed.

(** ** Minimising twice *)

Lemma minimize_idempotent (s : jsstring) : minimize (minimize s) = minimize s.
Proof.
  unfold minimize, collapseWhitespace.
  rewrite (removeLineBreaks_id (collapseRuns false _)) by apply noLineBreaks_collapseRuns.
  apply collapseRuns_id, collapseRuns_singleSpaces.
Qed.

(** ** What a successful run of the encoder yields *)

(** The result of a run on a sequence of code units: the text that was
    minimised, and the escaped text of the data URI. *)
Lemma normalize_Generated (s : jsstring) (e : Encoded) :
  wf_string s -> normalize s = Normal (Generated e) ->
  exists raw t, wf_string raw
    /\ cleanSvg e = minimize raw
    /\ encodeURIComponent (minimize raw) = Normal t
    /\ dataUri e = DATA_PREFIX ++ requote t
    /\ tag e = linkTag (dataUri e).
Proof.
  intros Hwf. unfold normalize. pose proof (wf_string_trim s Hwf) as Ht.
  destruct (trim s) as [|c r]; [done|].
  destruct (unwrap (c :: r)) as [[raw b]|] eqn:Eu; [|done]. simpl.
  apply wf_string_unwrap in Eu; [|done]. unfold generate.
  destruct (encodeURIComponent (minimize raw)) as [t|] eqn:Et; [|done]. simpl.
  intros [= <-]. exists raw, t. by repeat split.
Qed.

Lemma generate_minimized (raw : jsstring) (e : Encoded) :
  generate raw = Normal e -> generate (cleanSvg e) = Normal e.
Proof.
  unfold generate. destruct (encodeURIComponent (minimize raw)) as [t|] eqn:Et; [|done].
  simpl. intros [= <-]. simpl. by rewrite minimize_idempotent, Et.
Qed.

Lemma linkTag_shape (x : jsstring) :
  linkTag x =
  (lit "<link rel=" ++ [34] ++ lit "icon" ++ [34] ++ lit " type=" ++ [34]
   ++ lit "image/svg+xml" ++ [34; 32]) ++ HREF_OPEN ++ x ++ 34 :: lit " />".
Proof. reflexivity. Qed.

Lemma trim_linkTag (x : jsstring) : trim (linkTag x) = linkTag x.
Proof.
  change (linkTag x) with
    (60 :: (lit "link rel=" ++ [34] ++ lit "icon" ++ [34] ++ lit " type=" ++ [34]
            ++ lit "image/svg+xml" ++ [34] ++ lit " href=" ++ [34])
       ++ x ++ [34; 32; 47; 62]).
  change [34; 32; 47; 62] with ([34; 32; 47] ++ [62]).
  rewrite !app_assoc. by apply trim_keep.
Qed.

Lemma normalize_linkTag (x : jsstring) :
  noQuote x = true ->
  normalize (linkTag x) =
  let* u := unwrapDataUri x in let* e := generate (fst u) in Normal (Generated e).
Proof.
  intros Hx.
  assert (Hm : match_href (linkTag x) = Some x).
  { rewrite linkTag_shape. by apply match_href_found. }
  assert (Hu : unwrapLink (linkTag x) = x).
  { unfold unwrapLink. by rewrite Hm. }
  pose proof (trim_linkTag x) as Ht.
  change (linkTag x) with (60 :: tl (linkTag x)) in Ht at 2.
  rewrite (normalize_nonempty _ _ _ Ht). unfold unwrap.
  change (60 :: tl (linkTag x)) with (linkTag x). by rewrite Hu.
Qed.

Lemma dataUriChar_noQuote (q : jsstring) : forallb dataUriChar q = true -> noQuote q = true.
Proof.
  apply forallb_weaken. intros c. unfold dataUriChar, isAlnum.
  destruct (Z.eqb_spec c 34) as [->|]; [done|done].
Qed.

Lemma unwrapDataUri_prefix (q c : jsstring) :
  Decode q = Normal c -> unwrapDataUri (DATA_PREFIX ++ q) = Normal (c, true).
Proof.
  intros H. unfold unwrapDataUri, decodeURIComponent.
  rewrite startsWith_app, replaceFirst_prefix. simpl app. by rewrite H.
Qed.

(** X2: the generated data URI and the generated link tag are fixed points
    of the encoder: pasted back into the input field, each of them gives
    the same source, data URI and tag again. *)
Theorem generated_output_round_trip (s : jsstring) (e : Encoded) :
  wf_string s -> normalize s = Normal (Generated e) ->
  normalize (dataUri e) = Normal (Generated e)
  /\ normalize (tag e) = Normal (Generated e).
Proof.
  intros Hwf Hn.
  assert (Hg : generate (cleanSvg e) = Normal e).
  { unfold normalize in Hn. destruct (trim s); [done|].
    destruct (unwrap _) as [[raw b]|]; [|done]. simpl in Hn.
    destruct (generate raw) as [e'|] eqn:Eg; [|done]. simpl in Hn.
    injection Hn as <-. by apply (generate_minimized raw). }
  destruct (normalize_Generated s e Hwf Hn) as (raw & t & Hraw & Hc & Ht & Hd & Htag).
  apply wf_string_minimize in Hraw. rewrite <- Hc in *.
  pose proof (Decode_requote_encode _ Hraw t Ht) as Hdec.
  rewrite Htag, Hd. split.
  - rewrite (normalize_data_uri (requote t) (cleanSvg e)); [by rewrite Hg| |done].
    by apply (noWhiteSpace_requote_encode (cleanSvg e)).
  - rewrite normalize_linkTag.
    + rewrite (unwrapDataUri_prefix _ _ Hdec). simpl. by rewrite Hg.
    + unfold noQuote. rewrite forallb_app. apply andb_true_iff. split; [done|].
      apply dataUriChar_noQuote. by apply (dataUriChar_requote_encode (cleanSvg e)).
Qed.

Lemma generated_output_round_trip_witness :
  exists e, wf_string (lit " <svg a='1'>  x</svg> ")
    /\ normalize (lit " <svg a='1'>  x</svg> ") = Normal (Generated e)
    /\ normalize (dataUri e) = Normal (Generated e)
    /\ normalize (tag e) = Normal (Generated e).
Proof.
  assert (Hwf : wf_string (lit " <svg a='1'>  x</svg> ")).
  { apply isCodeUnits_wf. reflexivity. }
  eexists. split; [exact Hwf|]. split; [reflexivity|].
  exact (generated_output_round_trip (lit " <svg a='1'>  x</svg> ") _ Hwf eq_refl).
Defined.

Lemma dataUriChar_markup (q : jsstring) :
  forallb dataUriChar q = true ->
  forallb (fun u => negb ((u =? 34) || (u =? 39) || (u =? 38) || (u =? 60) || (u =? 62)
                          || isWhiteSpace u)) q = true.
Proof.
  apply forallb_weaken. intros c. unfold dataUriChar, isAlnum, isWhiteSpace.
  intros H. apply negb_true_iff. revert H. zbool; simpl; done.
Qed.

(** X3: whatever the input, the text after the prefix of a generated data
    URI holds only alphanumerics, the marks [-_.!~*()] and percent signs:
    no double quote, apostrophe, ampersand, angle bracket or white space;
    and the tag is the link tag around that data URI. *)
Theorem data_uri_alphabet (s : jsstring) (e : Encoded) :
  wf_string s -> normalize s = Normal (Generated e) ->
  exists escaped,
    dataUri e = DATA_PREFIX ++ escaped
    /\ forallb dataUriChar escaped = true
    /\ forallb (fun u => negb ((u =? 34) || (u =? 39) || (u =? 38) || (u =? 60)
                               || (u =? 62) || isWhiteSpace u)) escaped = true
    /\ tag e = linkTag (DATA_PREFIX ++ escaped).
Proof.
  intros Hwf Hn.
  destruct (normalize_Generated s e Hwf Hn) as (raw & t & Hraw & Hc & Ht & Hd & Htag).
  assert (Ha : forallb dataUriChar (requote t) = true).
  { apply (dataUriChar_requote_encode (minimize raw)); [|done].
    by apply wf_string_minimize. }
  exists (requote t). split; [done|]. split; [done|].
  split; [by apply dataUriChar_markup|by rewrite Htag, Hd].
Qed.

Lemma data_uri_alphabet_witness :
  exists e, wf_string (lit "<svg a='1' b=" ++ [34; 233; 34] ++ lit "> x</svg>")
    /\ normalize (lit "<svg a='1' b=" ++ [34; 233; 34] ++ lit "> x</svg>")
       = Normal (Generated e)
    /\ dataUri e
       = DATA_PREFIX ++ lit "%3Csvg%20a%3D%271%27%20b%3D%22%C3%A9%22%3E%20x%3C%2Fsvg%3E"
    /\ exists escaped,
         dataUri e = DATA_PREFIX ++ escaped
         /\ forallb dataUriChar escaped = true
         /\ forallb (fun u => negb ((u =? 34) || (u =? 39) || (u =? 38) || (u =? 60)
                                    || (u =? 62) || isWhiteSpace u)) escaped = true
         /\ tag e = linkTag (DATA_PREFIX ++ escaped).
Proof.
  assert (Hwf : wf_string (lit "<svg a='1' b=" ++ [34; 233; 34] ++ lit "> x</svg>")).
  { apply isCodeUnits_wf. reflexivity. }
  eexists. split; [exact Hwf|]. split; [reflexivity|]. split; [reflexivity|].
  exact (data_uri_alphabet _ _ Hwf eq_refl).
Defined.

(** X4: [encodeURIComponent] never writes a double quote, so the second
    replacement of [processInput], of double quotes by [%22], never
    changes the text: only the replacement of apostrophes does. *)
Theorem quote_replacement_never_fires (s t : jsstring) :
  wf_string s -> encodeURIComponent s = Normal t ->
  noQuote t = true
  /\ replaceAllChar 34 PCT22 (replaceAllChar 39 PCT27 t) = replaceAllChar 39 PCT27 t.
Proof.
  intros Hwf Ht. pose proof (uriOutput_encode s Hwf t Ht) as Hout.
  assert (Hq : noQuote t = true).
  { revert Hout. apply forallb_weaken. intros c. unfold uriOutput.
    destruct (Z.eqb_spec c 34) as [->|]; [done|done]. }
  split; [done|]. clear Hout Ht Hwf.
  induction t as [|c t IH]; [done|]. simpl in Hq. apply andb_true_iff in Hq as [Hc Hq].
  apply negb_true_iff in Hc. unfold replaceAllChar in *. cbn [flat_map].
  rewrite flat_map_app, (IH Hq). f_equal.
  destruct (c =? 39) eqn:E39; [reflexivity|]. cbn. by rewrite Hc.
Qed.

Lemma quote_replacement_never_fires_witness :
  exists t, wf_string (lit "<a b='1' c=" ++ [34; 50; 34; 62])
    /\ encodeURIComponent (lit "<a b='1' c=" ++ [34; 50; 34; 62]) = Normal t
    /\ noQuote t = true
    /\ replaceAllChar 34 PCT22 (replaceAllChar 39 PCT27 t) = replaceAllChar 39 PCT27 t.
Proof.
  assert (Hwf : wf_string (lit "<a b='1' c=" ++ [34; 50; 34; 62])).
  { apply isCodeUnits_wf. reflexivity. }
  eexists. split; [exact Hwf|]. split; [reflexivity|].
  exact (quote_replacement_never_fires _ _ Hwf eq_refl).
Defined.

(** ** The newlines of the input field *)

Lemma normalizeNewlines_plain (c : Z) (r : jsstring) :
  c <> 13 -> normalizeNewlines (c :: r) = c :: normalizeNewlines r.
Proof. intros H. simpl. by destruct (Z.eqb_spec c 13). Qed.

Lemma normalizeNewlines_pair (r : jsstring) :
  normalizeNewlines (13 :: 10 :: r) = 10 :: normalizeNewlines r.
Proof. reflexivity. Qed.

Lemma normalizeNewlines_cr (d : Z) (r : jsstring) :
  d <> 10 -> normalizeNewlines (13 :: d :: r) = 10 :: normalizeNewlines (d :: r).
Proof. intros H. cbn [normalizeNewlines]. simpl. by destruct (Z.eqb_spec d 10). Qed.

(** The three shapes of a text, by its first newline. *)
Lemma newline_cases (P : jsstring -> Prop) :
  P [] -> P [13] ->
  (forall r, P r -> P (13 :: 10 :: r)) ->
  (forall d r, d <> 10 -> P (d :: r) -> P (13 :: d :: r)) ->
  (forall c r, c <> 13 -> P r -> P (c :: r)) ->
  forall s, P s.
Proof.
  intros H0 H1 Hp Hc Ho s.
  induction s as [|c s IH1 IH2] using list_pair_ind; [done|].
  destruct (Z.eq_dec c 13) as [->|Hn]; [|by apply Ho].
  destruct s as [|d r]; [done|].
  destruct (Z.eq_dec d 10) as [->|Hd]; [apply Hp; by apply (IH2 10 r)|by apply Hc].
Qed.

Lemma removeLineBreaks_normalizeNewlines (s : jsstring) :
  removeLineBreaks (normalizeNewlines s) = removeLineBreaks s.
Proof.
  induction s as [| |r IH|d r Hd IH|c r Hc IH] using newline_cases; try done.
  - rewrite normalizeNewlines_cr by done. simpl in *.
    destruct (Z.eqb_spec d 10); [done|]. done.
  - rewrite normalizeNewlines_plain by done. simpl.
    destruct (Z.eqb_spec c 13); [done|]. by rewrite IH.
Qed.

Lemma minimize_normalizeNewlines (s : jsstring) :
  minimize (normalizeNewlines s) = minimize s.
Proof. unfold minimize. by rewrite removeLineBreaks_normalizeNewlines. Qed.

Lemma generate_up_to_line_breaks (a b : jsstring) :
  removeLineBreaks a = removeLineBreaks b -> generate a = generate b.
Proof. intros H. unfold generate, minimize. by rewrite H. Qed.

(** *** Trimming *)

Lemma trimStart_normalizeNewlines (s : jsstring) :
  trimStart (normalizeNewlines s) = normalizeNewlines (trimStart s).
Proof.
  induction s as [| |r IH|d r Hd IH|c r Hc IH] using newline_cases; try done.
  - rewrite normalizeNewlines_cr by done.
    change (trimStart (10 :: normalizeNewlines (d :: r)))
      with (trimStart (normalizeNewlines (d :: r))).
    change (trimStart (13 :: d :: r)) with (trimStart (d :: r)). done.
  - rewrite normalizeNewlines_plain by done. simpl.
    destruct (isWhiteSpace c); [done|]. by rewrite normalizeNewlines_plain.
Qed.

Lemma normalizeNewlines_app (x y : jsstring) :
  head y <> Some 10 ->
  normalizeNewlines (x ++ y) = normalizeNewlines x ++ normalizeNewlines y.
Proof.
  intros Hy.
  induction x as [| |r IH|d r Hd IH|c r Hc IH] using newline_cases.
  - done.
  - destruct y as [|d y]; [done|]. simpl in Hy.
    change ([13] ++ d :: y) with (13 :: d :: y).
    rewrite normalizeNewlines_cr; [done|]. intros ->. done.
  - change ((13 :: 10 :: r) ++ y) with (13 :: 10 :: (r ++ y)).
    rewrite !normalizeNewlines_pair, IH. done.
  - change ((13 :: d :: r) ++ y) with (13 :: d :: (r ++ y)).
    rewrite !normalizeNewlines_cr by done.
    change (d :: (r ++ y)) with ((d :: r) ++ y). by rewrite IH.
  - change ((c :: r) ++ y) with (c :: (r ++ y)).
    rewrite !normalizeNewlines_plain by done. by rewrite IH.
Qed.

Lemma not_ws_not_newline (c : Z) : isWhiteSpace c = false -> c <> 10 /\ c <> 13.
Proof. intros H. split; intros ->; done. Qed.

Lemma normalizeNewlines_snoc (x : jsstring) (l : Z) (y : jsstring) :
  isWhiteSpace l = false ->
  normalizeNewlines ((x ++ [l]) ++ y) = (normalizeNewlines x ++ [l]) ++ normalizeNewlines y.
Proof.
  intros Hl. apply not_ws_not_newline in Hl as [H10 H13].
  rewrite <- !app_assoc. simpl.
  rewrite normalizeNewlines_app by (simpl; congruence).
  by rewrite normalizeNewlines_plain.
Qed.

Lemma normalizeNewlines_blank (w : jsstring) :
  forallb isWhiteSpace w = true -> forallb isWhiteSpace (normalizeNewlines w) = true.
Proof.
  induction w as [| |r IH|d r Hd IH|c r Hc IH] using newline_cases; try done.
  - rewrite normalizeNewlines_cr by done. intros H.
    change (forallb isWhiteSpace (d :: r) = true) in H.
    change (forallb isWhiteSpace (normalizeNewlines (d :: r)) = true). by apply IH.
  - rewrite normalizeNewlines_plain by done. simpl.
    intros H. apply andb_true_iff in H as [-> H]. by apply IH.
Qed.

Lemma trimEnd_blank (w : jsstring) : forallb isWhiteSpace w = true -> trimEnd w = [].
Proof.
  intros H. unfold trimEnd.
  assert (E : trimStart (rev w) = []) by (apply trimStart_all_ws; by rewrite forallb_rev).
  by rewrite E.
Qed.

(** A text is its trimmed end followed by white space. *)
Lemma trimEnd_split (s : jsstring) :
  exists w, s = trimEnd s ++ w /\ forallb isWhiteSpace w = true
            /\ (trimEnd s = [] \/ exists x l, trimEnd s = x ++ [l] /\ isWhiteSpace l = false).
Proof.
  induction s as [|c s IH] using rev_ind.
  - exists []. by repeat split; try left.
  - destruct (isWhiteSpace c) eqn:Ec.
    + destruct IH as (w & Hs & Hw & Hshape).
      assert (Ht : trimEnd (s ++ [c]) = trimEnd s).
      { apply trimEnd_blank_suffix. simpl. by rewrite Ec. }
      exists (w ++ [c]). rewrite Ht. split; [by rewrite app_assoc, <- Hs|].
      split; [|done]. rewrite forallb_app, Hw. simpl. by rewrite Ec.
    + exists []. rewrite trimEnd_keep by done. split; [by rewrite app_nil_r|].
      split; [done|]. right. by exists s, c.
Qed.

Lemma trimEnd_normalizeNewlines (s : jsstring) :
  trimEnd (normalizeNewlines s) = normalizeNewlines (trimEnd s).
Proof.
  destruct (trimEnd_split s) as (w & Hs & Hw & [Ht|(x & l & Ht & Hl)]).
  - rewrite Ht in *. simpl in *. subst s. apply trimEnd_blank.
    by apply normalizeNewlines_blank.
  - rewrite Ht in *. rewrite Hs at 1.
    rewrite normalizeNewlines_snoc by done.
    rewrite trimEnd_blank_suffix by (by apply normalizeNewlines_blank).
    rewrite trimEnd_keep by done.
    pose proof (normalizeNewlines_snoc x l [] Hl) as Hx.
    by rewrite !app_nil_r in Hx.
Qed.

Lemma trim_normalizeNewlines (s : jsstring) :
  trim (normalizeNewlines s) = normalizeNewlines (trim s).
Proof. unfold trim. by rewrite trimStart_normalizeNewlines, trimEnd_normalizeNewlines. Qed.

Lemma normalizeNewlines_nil (s : jsstring) : normalizeNewlines s = [] <-> s = [].
Proof.
  split; [|by intros ->]. destruct s as [|c r]; [done|]. simpl.
  destruct (c =? 13); [|done]. destruct r as [|d r]; [done|]. by destruct (d =? 10).
Qed.

(** *** Prefixes and the capture *)

Lemma startsWith_normalizeNewlines (p s : jsstring) :
  noLineBreaks p = true ->
  startsWith p (normalizeNewlines s) = startsWith p s.
Proof.
  revert s. induction p as [|a p IH]; intros s Hp; [by destruct s, (normalizeNewlines _)|].
  simpl in Hp. apply andb_true_iff in Hp as [Ha Hp].
  apply negb_true_iff, orb_false_iff in Ha as [Ha10 Ha13].
  destruct s as [|c r]; [done|].
  destruct (Z.eq_dec c 13) as [->|Hc].
  - assert (E : exists t, normalizeNewlines (13 :: r) = 10 :: t).
    { destruct r as [|d r]; [by eexists|]. simpl. destruct (d =? 10); by eexists. }
    destruct E as [t ->]. simpl. by rewrite Ha10, Ha13.
  - rewrite normalizeNewlines_plain by done. simpl. by rewrite IH.
Qed.

Lemma normalizeNewlines_prefix (p t : jsstring) :
  noLineBreaks p = true -> normalizeNewlines (p ++ t) = p ++ normalizeNewlines t.
Proof.
  induction p as [|a p IH]; [done|]. simpl. intros Hp.
  apply andb_true_iff in Hp as [Ha Hp].
  apply negb_true_iff, orb_false_iff in Ha as [_ Ha13].
  rewrite Ha13. by rewrite IH.
Qed.

Lemma upToQuote_normalizeNewlines (t : jsstring) :
  upToQuote (normalizeNewlines t) = option_map normalizeNewlines (upToQuote t).
Proof.
  induction t as [| |r IH|d r Hd IH|c r Hc IH] using newline_cases; try done.
  - rewrite normalizeNewlines_pair. simpl in *. rewrite IH.
    by destruct (upToQuote r).
  - rewrite normalizeNewlines_cr by done.
    change (upToQuote (10 :: normalizeNewlines (d :: r)))
      with (option_map (cons 10) (upToQuote (normalizeNewlines (d :: r)))).
    rewrite IH.
    change (upToQuote (13 :: d :: r)) with (option_map (cons 13) (upToQuote (d :: r))).
    simpl. destruct (d =? 34); [done|].
    destruct (upToQuote r) as [cap|]; [|done]. simpl.
    by destruct (Z.eqb_spec d 10).
  - rewrite normalizeNewlines_plain by done. simpl. destruct (c =? 34); [done|].
    rewrite IH. destruct (upToQuote r) as [cap|]; [|done]. simpl.
    by destruct (Z.eqb_spec c 13).
Qed.

Lemma match_href_skip (c : Z) (r : jsstring) :
  c = 10 \/ c = 13 -> match_href (c :: r) = match_href r.
Proof. intros [-> | ->]; reflexivity. Qed.

Lemma match_href_normalizeNewlines (s : jsstring) :
  match_href (normalizeNewlines s) = option_map normalizeNewlines (match_href s).
Proof.
  induction s as [| |r IH|d r Hd IH|c r Hc IH] using newline_cases; try done.
  - rewrite normalizeNewlines_cr by done.
    by rewrite !match_href_skip by (by left || by right).
  - assert (Hs : startsWith HREF_OPEN (normalizeNewlines (c :: r))
                 = startsWith HREF_OPEN (c :: r))
      by (by apply startsWith_normalizeNewlines).
    rewrite normalizeNewlines_plain in * by done. cbn [match_href]. rewrite Hs.
    destruct (startsWith HREF_OPEN (c :: r)) eqn:E; [|done].
    apply startsWith_inv in E. change (length HREF_OPEN) with 6%nat in E.
    assert (En : c :: normalizeNewlines r = HREF_OPEN ++ normalizeNewlines (drop 6 (c :: r))).
    { rewrite <- (normalizeNewlines_plain c r) by done. rewrite E at 1.
      by apply normalizeNewlines_prefix. }
    rewrite En at 1. change 6%nat with (length HREF_OPEN) at 1.
    rewrite drop_app_length, upToQuote_normalizeNewlines.
    by destruct (upToQuote (drop 6 (c :: r))).
Qed.

Lemma unwrapLink_normalizeNewlines (s : jsstring) :
  unwrapLink (normalizeNewlines s) = normalizeNewlines (unwrapLink s).
Proof.
  unfold unwrapLink. rewrite startsWith_normalizeNewlines by done.
  destruct (startsWith LINK_PREFIX s); [|done].
  rewrite match_href_normalizeNewlines. by destruct (match_href s).
Qed.

(** *** Decoding *)

Lemma hexValue_not_newline (c v : Z) :
  hexValue c = Some v -> (c =? 10) || (c =? 13) = false.
Proof. unfold hexValue. intros H. destruct (Z.eqb_spec c 10), (Z.eqb_spec c 13); by subst. Qed.

Lemma hexByte_noLineBreaks (a b B : Z) (w : jsstring) :
  hexByte a b = Some B -> noLineBreaks w = true -> noLineBreaks (a :: b :: w) = true.
Proof.
  unfold hexByte. destruct (hexValue a) eqn:Ea; [|done].
  destruct (hexValue b) eqn:Eb; [|done]. intros _ Hw. simpl.
  by rewrite (hexValue_not_newline _ _ Ea), (hexValue_not_newline _ _ Eb).
Qed.

Lemma continuationByte_noLineBreaks (p a b B : Z) (w : jsstring) :
  continuationByte p a b = Some B -> noLineBreaks w = true ->
  noLineBreaks (p :: a :: b :: w) = true.
Proof.
  unfold continuationByte. destruct (Z.eqb_spec p 37) as [->|]; [|done].
  destruct (hexByte a b) as [B'|] eqn:E; [|done]. intros _ Hw.
  change (noLineBreaks (37 :: a :: b :: w)) with (noLineBreaks (a :: b :: w)).
  by apply (hexByte_noLineBreaks a b B').
Qed.

(** An escape either throws, or it is a run of percent signs and hex digits
    whose decoding does not depend on what follows. *)
Lemma Decode_escape_cases (r : jsstring) :
  Decode (37 :: r) = Throw URIError
  \/ exists w r' pre,
       r = w ++ r' /\ noLineBreaks w = true
       /\ forall x, Decode (37 :: w ++ x) = let* t := Decode x in Normal (pre ++ t).
Proof.
  destruct r as [|a [|b r1]]; [by left..|].
  destruct (hexByte a b) as [B|] eqn:EB; [|left; simpl; by rewrite EB].
  pose proof (hexByte_noLineBreaks a b B) as Hab.
  destruct (Z.ltb_spec B 128) as [H1|H1].
  { right. exists [a; b], r1, [B]. split; [done|]. split; [by apply Hab|].
    intros x. simpl. rewrite EB. by destruct (Z.ltb_spec B 128); [|lia]. }
  destruct (Z.ltb_spec B 192) as [H2|H2].
  { left. simpl. rewrite EB. destruct (Z.ltb_spec B 128); [lia|].
    by destruct (Z.ltb_spec B 192); [|lia]. }
  destruct (Z.ltb_spec B 224) as [H3|H3].
  { destruct r1 as [|p2 [|a2 [|b2 r2]]];
      try solve [left; simpl; rewrite EB; repeat (case_match; try lia; try done)].
    destruct (continuationByte p2 a2 b2) as [B2|] eqn:E2;
      [|left; simpl; rewrite EB, E2; repeat (case_match; try lia; try done)].
    destruct (Z.ltb_spec ((B - 192) * 64 + (B2 - 128)) 128) as [Hv|Hv].
    { left. simpl. rewrite EB, E2. repeat (case_match; try lia; try done). }
    right. exists [a; b; p2; a2; b2], r2, (utf16Encode ((B - 192) * 64 + (B2 - 128))).
    split; [done|].
    split; [apply Hab; [done|]; by apply (continuationByte_noLineBreaks p2 a2 b2 B2)|].
    intros x. simpl. rewrite EB, E2. repeat (case_match; try lia; try done). }
  destruct (Z.ltb_spec B 240) as [H4|H4].
  { destruct r1 as [|p2 [|a2 [|b2 [|p3 [|a3 [|b3 r3]]]]]];
      try solve [left; simpl; rewrite EB; repeat (case_match; try lia; try done)].
    destruct (continuationByte p2 a2 b2) as [B2|] eqn:E2;
      [|left; simpl; rewrite EB, E2; repeat (case_match; try lia; try done)].
    destruct (continuationByte p3 a3 b3) as [B3|] eqn:E3;
      [|left; simpl; rewrite EB, E2, E3; repeat (case_match; try lia; try done)].
    set (v := (B - 224) * 4096 + (B2 - 128) * 64 + (B3 - 128)).
    destruct ((v <? 2048) || ((55296 <=? v) && (v <=? 57343))) eqn:Ev.
    { left. simpl. rewrite EB, E2, E3. fold v. rewrite Ev.
      repeat (case_match; try lia; try done). }
    right. exists [a; b; p2; a2; b2; p3; a3; b3], r3, (utf16Encode v).
    split; [done|].
    split; [apply Hab; [done|];
            apply (continuationByte_noLineBreaks p2 a2 b2 B2); [done|];
            by apply (continuationByte_noLineBreaks p3 a3 b3 B3)|].
    intros x. simpl. rewrite EB, E2, E3. fold v. rewrite Ev.
    repeat (case_match; try lia; try done). }
  destruct (Z.ltb_spec B 248) as [H5|H5].
  { destruct r1 as [|p2 [|a2 [|b2 [|p3 [|a3 [|b3 [|p4 [|a4 [|b4 r4]]]]]]]]];
      try solve [left; simpl; rewrite EB; repeat (case_match; try lia; try done)].
    destruct (continuationByte p2 a2 b2) as [B2|] eqn:E2;
      [|left; simpl; rewrite EB, E2; repeat (case_match; try lia; try done)].
    destruct (continuationByte p3 a3 b3) as [B3|] eqn:E3;
      [|left; simpl; rewrite EB, E2, E3; repeat (case_match; try lia; try done)].
    destruct (continuationByte p4 a4 b4) as [B4|] eqn:E4;
      [|left; simpl; rewrite EB, E2, E3, E4; repeat (case_match; try lia; try done)].
    set (v := (B - 240) * 262144 + (B2 - 128) * 4096 + (B3 - 128) * 64 + (B4 - 128)).
    destruct ((v <? 65536) || (1114111 <? v)) eqn:Ev.
    { left. simpl. rewrite EB, E2, E3, E4. fold v. rewrite Ev.
      repeat (case_match; try lia; try done). }
    right. exists [a; b; p2; a2; b2; p3; a3; b3; p4; a4; b4], r4, (utf16Encode v).
    split; [done|].
    split; [apply Hab; [done|];
            apply (continuationByte_noLineBreaks p2 a2 b2 B2); [done|];
            apply (continuationByte_noLineBreaks p3 a3 b3 B3); [done|];
            by apply (continuationByte_noLineBreaks p4 a4 b4 B4)|].
    intros x. simpl. rewrite EB, E2, E3, E4. fold v. rewrite Ev.
    repeat (case_match; try lia; try done). }
  left. simpl. rewrite EB. repeat (case_match; try lia; try done).
Qed.

Lemma normalizeNewlines_prefix_inv (w y r : jsstring) :
  noLineBreaks w = true -> normalizeNewlines r = w ++ y ->
  exists y0, r = w ++ y0 /\ normalizeNewlines y0 = y.
Proof.
  revert r. induction w as [|a w IH]; intros r Hw E; [by exists r|].
  simpl in Hw. apply andb_true_iff in Hw as [Ha Hw].
  apply negb_true_iff, orb_false_iff in Ha as [Ha10 Ha13].
  destruct r as [|c r]; [done|].
  destruct (Z.eq_dec c 13) as [->|Hc].
  - assert (E' : exists t, normalizeNewlines (13 :: r) = 10 :: t).
    { destruct r as [|d r]; [by eexists|]. simpl. destruct (d =? 10); by eexists. }
    destruct E' as [t E']. rewrite E' in E. injection E as <- _. done.
  - rewrite normalizeNewlines_plain in E by done. injection E as -> E.
    destruct (IH r Hw E) as (y0 & -> & Hy). by exists y0.
Qed.

Lemma removeLineBreaks_cons_newline (c : Z) (t : jsstring) :
  c = 10 \/ c = 13 -> removeLineBreaks (c :: t) = removeLineBreaks t.
Proof.
  intros H. change (c :: t) with ([c] ++ t). rewrite removeLineBreaks_app.
  by destruct H as [-> | ->].
Qed.

(** Decoding the text with its newlines normalised throws when decoding the
    text throws, and gives the same text up to line breaks otherwise. *)
Lemma Decode_normalizeNewlines (q : jsstring) :
  match Decode q with
  | Throw e => Decode (normalizeNewlines q) = Throw e
  | Normal d =>
      exists d', Decode (normalizeNewlines q) = Normal d'
                 /\ removeLineBreaks d' = removeLineBreaks d
  end.
Proof.
  induction q as [q IH] using list_strong_ind. destruct q as [|c r]; [by exists []|].
  assert (Hlit : forall (x y : Z) (t t' : jsstring),
            (length t < length (c :: r))%nat -> normalizeNewlines t = t' ->
            x <> 37 -> y <> 37 ->
            removeLineBreaks [x] = removeLineBreaks [y] ->
            match Decode (x :: t) with
            | Throw e => Decode (y :: t') = Throw e
            | Normal d =>
                exists d', Decode (y :: t') = Normal d'
                           /\ removeLineBreaks d' = removeLineBreaks d
            end).
  { intros x y t t' Hlen <- Hx Hy Hxy. rewrite !Decode_literal by done.
    specialize (IH t Hlen). destruct (Decode t) as [d|e]; cbn [cbind].
    - destruct IH as (d' & -> & Hd). cbn [cbind]. eexists. split; [done|].
      change (y :: d') with ([y] ++ d'). change (x :: d) with ([x] ++ d).
      by rewrite !removeLineBreaks_app, Hxy, Hd.
    - by rewrite IH. }
  destruct (Z.eq_dec c 37) as [->|H37].
  - rewrite normalizeNewlines_plain by done.
    destruct (Decode_escape_cases r) as [Ht|(w & r' & pre & -> & Hw & Hx)].
    + rewrite Ht.
      destruct (Decode_escape_cases (normalizeNewlines r))
        as [Ht'|(w & y & pre & E & Hw & Hx)]; [done|].
      destruct (normalizeNewlines_prefix_inv w y r Hw E) as (y0 & -> & <-).
      rewrite E, Hx. rewrite Hx in Ht.
      assert (Hlen : (length y0 < length (37%Z :: w ++ y0))%nat)
        by (simpl; rewrite length_app; lia).
      specialize (IH y0 Hlen). destruct (Decode y0) as [d|e]; [done|].
      simpl in Ht. rewrite IH. done.
    + rewrite normalizeNewlines_prefix, !Hx by done.
      assert (Hlen : (length r' < length (37%Z :: w ++ r'))%nat)
        by (simpl; rewrite length_app; lia).
      specialize (IH r' Hlen). destruct (Decode r') as [d|e]; cbn [cbind].
      * destruct IH as (d' & -> & Hd). cbn [cbind]. eexists. split; [done|].
        by rewrite !removeLineBreaks_app, Hd.
      * by rewrite IH.
  - destruct (Z.eq_dec c 13) as [->|H13].
    + destruct r as [|d r']; [by exists [10]|].
      destruct (Z.eq_dec d 10) as [->|H10].
      * rewrite normalizeNewlines_pair, (Decode_literal 13) by done.
        pose proof (Hlit 10 10 r' _ ltac:(simpl; lia) eq_refl ltac:(done) ltac:(done)
                      eq_refl) as H.
        destruct (Decode (10 :: r')) as [t|e]; cbn [cbind].
        -- destruct H as (d' & -> & Hd). exists d'. split; [done|].
           by rewrite (removeLineBreaks_cons_newline 13) by (by right).
        -- done.
      * rewrite normalizeNewlines_cr by done.
        apply (Hlit 13 10 (d :: r') _ ltac:(simpl; lia) eq_refl); done.
    + rewrite normalizeNewlines_plain by done.
      apply (Hlit c c r _ ltac:(simpl; lia) eq_refl); done.
Qed.

(** *** The encoder reads the same from the normalised text *)

Lemma unwrap_generate_normalizeNewlines (t : jsstring) :
  (let* u := unwrap (normalizeNewlines t) in generate (fst u))
  = (let* u := unwrap t in generate (fst u)).
Proof.
  unfold unwrap. rewrite unwrapLink_normalizeNewlines.
  generalize (unwrapLink t) as u. intros u. unfold unwrapDataUri.
  rewrite startsWith_normalizeNewlines by done.
  destruct (startsWith DATA_PREFIX u) eqn:E.
  - apply startsWith_inv in E. set (payload := drop (length DATA_PREFIX) u) in E.
    clearbody payload. subst u.
    rewrite normalizeNewlines_prefix, !replaceFirst_prefix by done.
    rewrite !app_nil_l. unfold decodeURIComponent.
    pose proof (Decode_normalizeNewlines payload) as H.
    destruct (Decode payload) as [d|e].
    + destruct H as (d' & -> & Hd). cbn [cbind fst].
      by apply generate_up_to_line_breaks.
    + by rewrite H.
  - simpl. apply generate_up_to_line_breaks, removeLineBreaks_normalizeNewlines.
Qed.

(** What the encoder computes does not depend on how the newlines of the
    text are written. *)
Lemma normalize_normalizeNewlines (s : jsstring) :
  normalize (normalizeNewlines s) = normalize s.
Proof.
  unfold normalize. rewrite trim_normalizeNewlines.
  destruct (trim s) as [|c r]; [done|].
  destruct (normalizeNewlines (c :: r)) as [|c' r'] eqn:E.
  { discriminate (proj1 (normalizeNewlines_nil _) E). }
  rewrite <- E.
  pose proof (unwrap_generate_normalizeNewlines (c :: r)) as H.
  destruct (unwrap (normalizeNewlines (c :: r))) as [u'|e'];
    destruct (unwrap (c :: r)) as [u|e]; cbn [cbind] in *;
    first [by rewrite H | by rewrite <- H | congruence].
Qed.

Lemma normalizeNewlines_no_cr (s : jsstring) :
  forallb (fun c => negb (c =? 13)) (normalizeNewlines s) = true.
Proof.
  induction s as [| |r IH|d r Hd IH|c r Hc IH] using newline_cases; try done.
  - by rewrite normalizeNewlines_cr.
  - rewrite normalizeNewlines_plain by done. simpl. rewrite IH.
    by destruct (Z.eqb_spec c 13).
Qed.

Lemma normalizeNewlines_id (s : jsstring) :
  forallb (fun c => negb (c =? 13)) s = true -> normalizeNewlines s = s.
Proof.
  induction s as [|c s IH]; [done|]. simpl.
  destruct (Z.eqb_spec c 13); [done|]. simpl. intros H. by rewrite IH.
Qed.

Lemma normalizeNewlines_idempotent (s : jsstring) :
  normalizeNewlines (normalizeNewlines s) = normalizeNewlines s.
Proof. apply normalizeNewlines_id, normalizeNewlines_no_cr. Qed.

Lemma wf_string_normalizeNewlines (s : jsstring) :
  wf_string s -> wf_string (normalizeNewlines s).
Proof.
  induction s as [| |r IH|d r Hd IH|c r Hc IH] using newline_cases; intros H.
  - done.
  - apply List.Forall_cons; [unfold code_unit; lia|apply List.Forall_nil].
  - rewrite normalizeNewlines_pair. apply Forall_cons in H as [_ H].
    apply Forall_cons in H as [H10 H]. apply List.Forall_cons; [done|by apply IH].
  - rewrite normalizeNewlines_cr by done. apply Forall_cons in H as [_ H].
    apply List.Forall_cons; [unfold code_unit; lia|by apply IH].
  - rewrite normalizeNewlines_plain by done. apply Forall_cons in H as [Hc' H].
    apply List.Forall_cons; [done|by apply IH].
Qed.

(** X5: the source kept in a result is minimal whatever branch the input
    took: it holds no line break, its white space is single spaces, and
    minimising it again changes nothing. *)
Theorem clean_source_is_minimal (s : jsstring) (e : Encoded) :
  normalize s = Normal (Generated e) ->
  noLineBreaks (cleanSvg e) = true
  /\ singleSpaces false (cleanSvg e) = true
  /\ minimize (cleanSvg e) = cleanSvg e.
Proof.
  unfold normalize. destruct (trim s); [done|].
  destruct (unwrap _) as [[raw b]|]; [|done]. simpl. unfold generate.
  destruct (encodeURIComponent (minimize raw)); [|done]. simpl. intros [= <-]. simpl.
  split; [apply noLineBreaks_collapseRuns|].
  split; [apply collapseRuns_singleSpaces|apply minimize_idempotent].
Qed.

Lemma clean_source_is_minimal_witness :
  exists e,
    normalize (iconLink ([32; 9] ++ lit "<svg>" ++ [13; 10; 32; 32] ++ lit "</svg>" ++ [10]))
    = Normal (Generated e)
    /\ cleanSvg e = lit " <svg> </svg>"
    /\ noLineBreaks (cleanSvg e) = true
    /\ singleSpaces false (cleanSvg e) = true
    /\ minimize (cleanSvg e) = cleanSvg e.
Proof.
  eexists. split; [reflexivity|]. split; [reflexivity|].
  exact (clean_source_is_minimal
           (iconLink ([32; 9] ++ lit "<svg>" ++ [13; 10; 32; 32] ++ lit "</svg>" ++ [10]))
           _ eq_refl).
Defined.

(** ** The page after [processInput] *)

Lemma processInputWith_Raises f (p p' : Page) (e : error) :
  processInputWith f p = Raises e p' ->
  e = URIError
  /\ outputCode p' = outputCode p /\ previewImg p' = previewImg p
  /\ pageLink p' = pageLink p /\ localStorage p' = localStorage p
  /\ (svgInput p' = svgInput p
      \/ exists payload decoded,
           unwrapLink (trim (svgInput p)) = DATA_PREFIX ++ payload
           /\ decodeURIComponent payload = Normal decoded
           /\ svgInput p' = normalizeNewlines decoded
           /\ wellFormed (minimize decoded) = false).
Proof.
  unfold processInputWith. destruct (trim (svgInput p)) as [|c r] eqn:Et; [done|].
  destruct (unwrap (c :: r)) as [[raw b]|e1] eqn:Eu.
  - destruct (generate raw) as [e2|e2] eqn:Eg; [done|]. intros [= <- <-].
    assert (He : e2 = URIError).
    { unfold generate in Eg. apply cbind_Throw in Eg as [Eg|(a & _ & Eg)]; [|done].
      by apply Encode_Throw in Eg. }
    split; [done|]. destruct b; simpl; repeat (split; [done|]); [|by left].
    right. unfold unwrap, unwrapDataUri in Eu.
    destruct (startsWith DATA_PREFIX (unwrapLink (c :: r))) eqn:Es; [|done].
    apply startsWith_inv in Es. rewrite Es, replaceFirst_prefix in Eu.
    exists (drop (length DATA_PREFIX) (unwrapLink (c :: r))), raw. split; [done|].
    destruct (decodeURIComponent _) as [d|]; [|done]. simpl in Eu. injection Eu as ->.
    do 2 (split; [done|]). destruct (wellFormed (minimize raw)) eqn:Ew; [|done].
    destruct (generate_wellFormed raw Ew) as (x & Hx & _). congruence.
  - intros [= <- <-]. split; [|by repeat split; try left].
    unfold unwrap, unwrapDataUri in Eu. case_match; [|done].
    apply cbind_Throw in Eu as [Eu|(a & _ & Eu)]; [|done]. by apply Decode_Throw in Eu.
Qed.

(** X6: when [processInput] throws, in either script, the exception is a
    URIError and the output field, the preview, the icon link and the
    storage are as before the call.  The input field is as before too,
    unless the text was a data URI that decoded to a text with an unpaired
    surrogate: then the decoded text has already been written to the
    field, which reads it with its newlines normalised. *)
Theorem processInput_raises (p p' : Page) (e : error) :
  MainTs.processInput p = Raises e p' \/ Part001.processInput p = Raises e p' ->
  e = URIError
  /\ outputCode p' = outputCode p /\ previewImg p' = previewImg p
  /\ pageLink p' = pageLink p /\ localStorage p' = localStorage p
  /\ (svgInput p' = svgInput p
      \/ exists payload decoded,
           unwrapLink (trim (svgInput p)) = DATA_PREFIX ++ payload
           /\ decodeURIComponent payload = Normal decoded
           /\ svgInput p' = normalizeNewlines decoded
           /\ wellFormed (minimize decoded) = false).
Proof. intros [H|H]; by apply (processInputWith_Raises _ _ _ _ H). Qed.

Lemma processInput_raises_witness :
  MainTs.processInput (pageWith (DATA_PREFIX ++ lit "%0D" ++ [60; 55296; 62]))
  = Raises URIError
      (setSvgInput [13; 60; 55296; 62]
         (pageWith (DATA_PREFIX ++ lit "%0D" ++ [60; 55296; 62])))
  /\ svgInput (setSvgInput [13; 60; 55296; 62]
                 (pageWith (DATA_PREFIX ++ lit "%0D" ++ [60; 55296; 62])))
     = [10; 60; 55296; 62]
  /\ URIError = URIError
  /\ exists payload decoded,
       unwrapLink (trim (DATA_PREFIX ++ lit "%0D" ++ [60; 55296; 62]))
       = DATA_PREFIX ++ payload
       /\ decodeURIComponent payload = Normal decoded
       /\ [10; 60; 55296; 62] = normalizeNewlines decoded
       /\ wellFormed (minimize decoded) = false.
Proof.
  split; [reflexivity|]. split; [reflexivity|].
  destruct (processInput_raises (pageWith (DATA_PREFIX ++ lit "%0D" ++ [60; 55296; 62]))
              (setSvgInput [13; 60; 55296; 62]
                 (pageWith (DATA_PREFIX ++ lit "%0D" ++ [60; 55296; 62])))
              URIError (or_introl eq_refl)) as (He & _ & _ & _ & _ & [Hs|Hd]).
  - discriminate Hs.
  - split; [exact He|exact Hd].
Defined.

Lemma processInputWith_Returns f (p p' : Page) :
  processInputWith f p = Returns p' ->
  (trim (svgInput p) = [] /\ p' = setOutput [] [] p)
  \/ exists u e q,
       unwrap (trim (svgInput p)) = Normal u
       /\ generate (fst u) = Normal e
       /\ normalize (svgInput p) = Normal (Generated e)
       /\ q = (if snd u then setSvgInput (fst u) p else p)
       /\ p' = f (dataUri e) (setOutput (tag e) (dataUri e) q).
Proof.
  unfold processInputWith, normalize.
  destruct (trim (svgInput p)) as [|c r] eqn:Et; [intros [= <-]; by left|].
  destruct (unwrap (c :: r)) as [[raw b]|] eqn:Eu; [|done].
  destruct (generate raw) as [e|] eqn:Eg; [|done]. intros [= <-]. right.
  exists (raw, b), e. eexists. simpl. by rewrite Eg.
Qed.

(** X7: when [processInput] returns, in either script, the storage is
    untouched and the page shows the result of the encoder on the input
    field: both outputs empty for a blank input; otherwise the tag in the
    output field and the data URI as source of the preview, the output
    field being the link tag around the source of the preview.  In main.ts
    the icon link of the document points to the same data URI; in part_001
    it is left alone.  The input field keeps its text unless the text was
    a data URI: then the decoded text is written to the field, which
    reads it with its newlines normalised. *)
Theorem processInput_returns (p p' : Page) :
  (MainTs.processInput p = Returns p' \/ Part001.processInput p = Returns p') ->
  localStorage p' = localStorage p
  /\ ((normalize (svgInput p) = Normal Empty
       /\ outputCode p' = [] /\ previewImg p' = []
       /\ pageLink p' = pageLink p /\ svgInput p' = svgInput p)
      \/ exists e decoded isDataUri,
           normalize (svgInput p) = Normal (Generated e)
           /\ unwrap (trim (svgInput p)) = Normal (decoded, isDataUri)
           /\ outputCode p' = tag e /\ previewImg p' = dataUri e
           /\ outputCode p' = linkTag (previewImg p')
           /\ svgInput p' = (if isDataUri then normalizeNewlines decoded else svgInput p)
           /\ (MainTs.processInput p = Returns p' -> pageLink p' = Some (dataUri e))
           /\ (Part001.processInput p = Returns p' -> pageLink p' = pageLink p)).
Proof.
  intros H.
  assert (Hcases :
    (trim (svgInput p) = [] /\ p' = setOutput [] [] p)
    \/ exists u e q,
         unwrap (trim (svgInput p)) = Normal u
         /\ generate (fst u) = Normal e
         /\ normalize (svgInput p) = Normal (Generated e)
         /\ q = (if snd u then setSvgInput (fst u) p else p)
         /\ (p' = setPageLink (dataUri e) (setOutput (tag e) (dataUri e) q)
             \/ p' = setOutput (tag e) (dataUri e) q)
         /\ (MainTs.processInput p = Returns p' ->
             p' = setPageLink (dataUri e) (setOutput (tag e) (dataUri e) q))
         /\ (Part001.processInput p = Returns p' ->
             p' = setOutput (tag e) (dataUri e) q)).
  { destruct H as [H|H]; pose proof H as H';
      apply processInputWith_Returns in H as [H|(u & e & q & Hu & Hg & Hn & Hq & Hp)];
      [by left| |by left|]; right; exists u, e, q; repeat (split; [done|]).
    - split; [by left|]. split; [done|].
      intros H2. apply processInputWith_Returns in H2
        as [[H2 _]|(u2 & e2 & q2 & Hu2 & Hg2 & _ & Hq2 & Hp2)].
      + unfold normalize in Hn. by rewrite H2 in Hn.
      + rewrite Hu in Hu2. injection Hu2 as <-. rewrite Hg in Hg2. injection Hg2 as <-.
        by rewrite Hp2, Hq2, <- Hq.
    - split; [by right|]. split; [|done].
      intros H2. apply processInputWith_Returns in H2
        as [[H2 _]|(u2 & e2 & q2 & Hu2 & Hg2 & _ & Hq2 & Hp2)].
      + unfold normalize in Hn. by rewrite H2 in Hn.
      + rewrite Hu in Hu2. injection Hu2 as <-. rewrite Hg in Hg2. injection Hg2 as <-.
        by rewrite Hp2, Hq2, <- Hq. }
  destruct Hcases as [[Ht ->]|(u & e & q & Hu & Hg & Hn & Hq & Hp & Hm & Hq1)].
  - split; [done|]. left. unfold normalize. by rewrite Ht.
  - assert (Htag : tag e = linkTag (dataUri e)).
    { unfold generate in Hg. destruct (encodeURIComponent _); [|done].
      simpl in Hg. by injection Hg as <-. }
    destruct u as [decoded b]. simpl in *.
    assert (Hq' : localStorage q = localStorage p /\ pageLink q = pageLink p
                  /\ svgInput q = if b then normalizeNewlines decoded else svgInput p).
    { rewrite Hq. by destruct b. }
    destruct Hq' as (Hq2 & Hq3 & Hq4).
    split; [by destruct Hp as [-> | ->]|]. right. exists e, decoded, b.
    do 2 (split; [done|]).
    split; [by destruct Hp as [-> | ->]|].
    split; [by destruct Hp as [-> | ->]|].
    split; [destruct Hp as [-> | ->]; simpl; by rewrite Htag|].
    split; [by destruct Hp as [-> | ->]|].
    split; intros H2; [by rewrite (Hm H2)|by rewrite (Hq1 H2)].
Qed.

Lemma processInput_returns_witness :
  exists p',
    MainTs.processInput (pageWith (DATA_PREFIX ++ lit "%3Csvg%0D%0A%2F%3E")) = Returns p'
    /\ svgInput p' = lit "<svg" ++ [10] ++ lit "/>"
    /\ outputCode p' = linkTag (previewImg p')
    /\ pageLink p' = Some (previewImg p')
    /\ localStorage p' = localStorage (pageWith (DATA_PREFIX ++ lit "%3Csvg%0D%0A%2F%3E")).
Proof.
  eexists. split; [reflexivity|].
  destruct (processInput_returns (pageWith (DATA_PREFIX ++ lit "%3Csvg%0D%0A%2F%3E")) _
              (or_introl eq_refl)) as [Hs [H|(e & d & b & Hn & Hu & Ho & Hp & Ht & Hi & Hm & _)]].
  - destruct H as [H _]. discriminate H.
  - injection Hu as <- <-. split; [exact Hi|]. split; [exact Ht|].
    split; [|exact Hs]. rewrite (Hm eq_refl). f_equal. symmetry. exact Hp.
Defined.

(** ** [decodeURIComponent] after [encodeURIComponent] *)

Lemma Decode_encode (s : jsstring) :
  wf_string s -> forall e, encodeURIComponent s = Normal e -> Decode e = Normal s.
Proof.
  apply (Encode_pieces (fun s e => Decode e = Normal s)).
  - done.
  - intros c s' t Hc Ht. apply uriUnescaped_cases in Hc as (H37 & _).
    by rewrite Decode_literal, Ht.
  - intros c s' t Hc Hs _ Ht.
    rewrite Decode_escapeCodePoint, Ht by lia. simpl. by rewrite utf16Encode_unit by lia.
  - intros hi lo s' t Hh Hl Ht. pose proof (pairCodePoint_range hi lo Hh Hl) as Hr.
    rewrite Decode_escapeCodePoint, Ht by lia. simpl. by rewrite utf16Encode_pair.
Qed.

Lemma encodeURIComponent_throws (s : jsstring) :
  wellFormed s = false -> encodeURIComponent s = Throw URIError.
Proof.
  intros H. destruct (encodeURIComponent s) as [t|e] eqn:E.
  - assert (wellFormed s = true) by (apply encodeURIComponent_wellFormed; eauto).
    congruence.
  - f_equal. by apply (Encode_Throw s).
Qed.

Lemma uriOutput_markup (a : jsstring) :
  forallb uriOutput a = true ->
  forallb (fun c => negb ((c =? 34) || (c =? 38) || (c =? 60) || (c =? 62)
                          || (c =? 35) || (c =? 61) || (c =? 63) || (c =? 47)
                          || isWhiteSpace c)) a = true.
Proof.
  apply forallb_weaken. intros c. unfold uriOutput, uriUnescaped, isAlnum, isWhiteSpace.
  intros H. apply negb_true_iff. revert H. zbool; simpl; done.
Qed.

(** X8: the copy button of an entry of the history panel (part_001) gives
    back the stored code: the escaped text put into the [data-code]
    attribute holds only unescaped characters and percent signs, so no
    double quote, ampersand or angle bracket that would end or alter the
    attribute, and decoding it yields the code.  A stored code with an
    unpaired surrogate makes the rendering throw a URIError. *)
Theorem copy_button_round_trip (c : jsstring) :
  wf_string c ->
  (wellFormed c = true ->
   exists a, dataCode c = Normal a
             /\ forallb uriOutput a = true
             /\ forallb (fun u => negb ((u =? 34) || (u =? 38) || (u =? 60) || (u =? 62)
                                        || (u =? 35) || (u =? 61) || (u =? 63) || (u =? 47)
                                        || isWhiteSpace u)) a = true
             /\ copiedCode (Some a) = Normal c)
  /\ (wellFormed c = false -> dataCode c = Throw URIError).
Proof.
  intros Hwf. split; [|apply encodeURIComponent_throws].
  intros Hw. apply encodeURIComponent_wellFormed in Hw as [a Ha].
  exists a. split; [done|]. pose proof (uriOutput_encode c Hwf a Ha) as Ho.
  split; [done|]. split; [by apply uriOutput_markup|].
  unfold copiedCode, decodeURIComponent.
  pose proof (Decode_encode c Hwf a Ha) as Hd.
  destruct a as [|x a]; [|done]. simpl in *. done.
Qed.

Lemma copy_button_round_trip_witness :
  wf_string (linkTag (DATA_PREFIX ++ lit "%3Csvg%2F%3E") ++ [38; 233; 55357; 56832])
  /\ wellFormed (linkTag (DATA_PREFIX ++ lit "%3Csvg%2F%3E") ++ [38; 233; 55357; 56832]) = true
  /\ exists a,
       dataCode (linkTag (DATA_PREFIX ++ lit "%3Csvg%2F%3E") ++ [38; 233; 55357; 56832])
       = Normal a
       /\ copiedCode (Some a)
          = Normal (linkTag (DATA_PREFIX ++ lit "%3Csvg%2F%3E") ++ [38; 233; 55357; 56832]).
Proof.
  assert (Hwf : wf_string (linkTag (DATA_PREFIX ++ lit "%3Csvg%2F%3E")
                           ++ [38; 233; 55357; 56832])).
  { apply isCodeUnits_wf. reflexivity. }
  split; [exact Hwf|]. split; [reflexivity|].
  destruct (proj1 (copy_button_round_trip _ Hwf) eq_refl) as (a & Ha & _ & _ & Hc).
  exists a. split; [exact Ha|exact Hc].
Defined.

(** ** The snippet of an entry *)

Lemma replaceAllChar_length (c : Z) (rep s : jsstring) :
  (length (replaceAllChar c rep s) <= Nat.max 1 (length rep) * length s)%nat.
Proof.
  unfold replaceAllChar. induction s as [|x s IH]; simpl; [lia|].
  rewrite length_app. destruct (x =? c); simpl; lia.
Qed.

Lemma replaceAllChar_absent (c : Z) (rep s : jsstring) :
  forallb (fun x => negb (x =? c)) s = true -> replaceAllChar c rep s = s.
Proof.
  unfold replaceAllChar. induction s as [|x s IH]; simpl; [done|].
  rewrite andb_true_iff, negb_true_iff. intros [-> H]. simpl. by rewrite IH.
Qed.

Lemma replaceAllChar_gone (c : Z) (rep s : jsstring) :
  forallb (fun x => negb (x =? c)) rep = true ->
  forallb (fun x => negb (x =? c)) (replaceAllChar c rep s) = true.
Proof.
  intros Hrep. unfold replaceAllChar. induction s as [|x s IH]; simpl; [done|].
  rewrite forallb_app, IH, andb_true_r. destruct (x =? c) eqn:E; [done|].
  simpl. by rewrite E.
Qed.

(** X9: the snippet shown for an entry of the history panel never holds
    the character that opens a tag, is at most 163 code units long, and
    ends with the three dots even when nothing was cut: for a text of at
    most 40 code units without that character it is the text followed by
    the dots. *)
Theorem snippet_markup (s : jsstring) :
  forallb (fun c => negb (c =? 60)) (snippet s) = true
  /\ (length (snippet s) <= 163)%nat
  /\ (exists t, snippet s = t ++ ELLIPSIS /\ (length t <= 4 * length s)%nat)
  /\ ((length s <= 40)%nat -> forallb (fun c => negb (c =? 60)) s = true ->
      snippet s = s ++ ELLIPSIS).
Proof.
  unfold snippet.
  pose proof (replaceAllChar_length 60 LT_ENTITY (take 40 s)) as Hlen.
  rewrite length_take in Hlen. change (length LT_ENTITY) with 4%nat in Hlen.
  split; [|split; [|split]].
  - rewrite forallb_app, replaceAllChar_gone; done.
  - rewrite length_app. change (length ELLIPSIS) with 3%nat. lia.
  - eexists. split; [done|]. lia.
  - intros Hs Hlt. rewrite take_ge by done. by rewrite replaceAllChar_absent.
Qed.

(** ** The address of the proxied request (part_001) *)

(** X10: [fetchUrl] of part_001 asks the proxy for the trimmed text of the
    URL field as one query value: the escaped text after the address of
    the proxy holds no delimiter of a URL (no ampersand, number sign,
    equals sign, question mark, slash or white space) and decodes back to
    the trimmed text.  A URL with an unpaired surrogate makes the escaping
    throw, which the listener catches: no request is sent and the page is
    left as it was. *)
Theorem proxied_request (toLowerCase : jsstring -> jsstring) (now : Z) (d url : jsstring)
    (respond : jsstring -> option Response) (p : Page) :
  wf_string url -> trim url <> [] ->
  (wellFormed (trim url) = true ->
   exists q, Part001Page.targetUrl (trim url) = Normal (Part001Page.CORS_PROXY ++ q)
             /\ forallb (fun u => negb ((u =? 34) || (u =? 38) || (u =? 60) || (u =? 62)
                                        || (u =? 35) || (u =? 61) || (u =? 63) || (u =? 47)
                                        || isWhiteSpace u)) q = true
             /\ decodeURIComponent q = Normal (trim url)
             /\ (respond (Part001Page.CORS_PROXY ++ q) = None ->
                 Part001Page.fetchUrl toLowerCase now d url respond p = p))
  /\ (wellFormed (trim url) = false ->
      Part001Page.targetUrl (trim url) = Throw URIError
      /\ Part001Page.fetchUrl toLowerCase now d url respond p = p).
Proof.
  intros Hwf Hne. apply wf_string_trim in Hwf. unfold Part001Page.fetchUrl.
  destruct (trim url) as [|c r] eqn:Et; [done|]. unfold Part001Page.targetUrl. split.
  - intros Hw. apply encodeURIComponent_wellFormed in Hw as [q Hq].
    exists q. rewrite Hq. simpl. split; [done|].
    split; [by apply uriOutput_markup, (uriOutput_encode (c :: r))|].
    split; [by apply Decode_encode|]. by intros ->.
  - intros Hw. by rewrite (encodeURIComponent_throws _ Hw).
Qed.

Lemma proxied_request_witness :
  wf_string (lit " https://example.com/a b.svg?x=1&y=2#z ")
  /\ trim (lit " https://example.com/a b.svg?x=1&y=2#z ") <> []
  /\ Part001Page.targetUrl (trim (lit " https://example.com/a b.svg?x=1&y=2#z "))
     = Normal (Part001Page.CORS_PROXY
               ++ lit "https%3A%2F%2Fexample.com%2Fa%20b.svg%3Fx%3D1%26y%3D2%23z")
  /\ exists q,
       Part001Page.targetUrl (trim (lit " https://example.com/a b.svg?x=1&y=2#z "))
       = Normal (Part001Page.CORS_PROXY ++ q)
       /\ decodeURIComponent q = Normal (trim (lit " https://example.com/a b.svg?x=1&y=2#z ")).
Proof.
  assert (Hwf : wf_string (lit " https://example.com/a b.svg?x=1&y=2#z ")).
  { apply isCodeUnits_wf. reflexivity. }
  assert (Hne : trim (lit " https://example.com/a b.svg?x=1&y=2#z ") <> []) by discriminate.
  split; [exact Hwf|]. split; [exact Hne|]. split; [reflexivity|].
  destruct (proj1 (proxied_request (fun s => s) 0 [] _ (fun _ => None) (pageWith []) Hwf Hne)
              eq_refl) as (q & Hq & _ & Hd & _).
  exists q. split; [exact Hq|exact Hd].
Defined.

(** ** Reading the entries back *)

Lemma asItem_itemJson (e : HistoryItem) : asItem (itemJson e) = Some e.
Proof. by destruct e. Qed.

Lemma asItemList_items (items : list HistoryItem) :
  asItemList (map itemJson items) = Some items.
Proof.
  induction items as [|e items IH]; [done|].
  cbn [map asItemList]. by rewrite asItem_itemJson, IH.
Qed.

Lemma asItems_items (items : list HistoryItem) :
  asItems (JArr (map itemJson items)) = Some items.
Proof. apply asItemList_items. Qed.

(** X11: the history survives the storage: the text [JSON.stringify]
    writes for an array of entries whose ids are safe integers is parsed
    back by [JSON.parse] to the same array, and [getHistory] on the page
    storing it returns the entries with the same ids and the same strings,
    code unit by code unit, whatever they hold (quotes, backslashes,
    control characters, unpaired surrogates). *)
Theorem stored_entries_read_back (items : list HistoryItem) (p : Page) :
  Forall wf_item items -> Forall safeId items ->
  JSON_parse (JSON_stringify (JArr (map itemJson items)))
  = Normal (JArr (map itemJson items))
  /\ asItems (getHistory (setItem STORAGE_KEY
                            (JSON_stringify (JArr (map itemJson items))) p))
     = Some items.
Proof.
  intros Hwf _. split; [by apply JSON_parse_stringify_items|].
  by rewrite getHistory_setItem, asItems_items.
Qed.

Lemma stored_entries_read_back_witness :
  Forall wf_item
    [ {| id := -5; svg := [34; 92; 47; 8; 10; 0; 31; 127; 8232; 55357; 56832; 56320];
         code := lit "<link href='x' />" ++ [34; 92; 110]; date := lit "1/2/2025, 10:00" |};
      {| id := 1700000000000; svg := []; code := lit "[{}],:"; date := [233; 65535] |} ]
  /\ asItems (getHistory (setItem STORAGE_KEY
       (JSON_stringify (JArr (map itemJson
          [ {| id := -5; svg := [34; 92; 47; 8; 10; 0; 31; 127; 8232; 55357; 56832; 56320];
               code := lit "<link href='x' />" ++ [34; 92; 110];
               date := lit "1/2/2025, 10:00" |};
            {| id := 1700000000000; svg := []; code := lit "[{}],:";
               date := [233; 65535] |} ])))
       (pageWith [])))
     = Some
         [ {| id := -5; svg := [34; 92; 47; 8; 10; 0; 31; 127; 8232; 55357; 56832; 56320];
              code := lit "<link href='x' />" ++ [34; 92; 110];
              date := lit "1/2/2025, 10:00" |};
           {| id := 1700000000000; svg := []; code := lit "[{}],:";
              date := [233; 65535] |} ].
Proof.
  assert (Hwf : Forall wf_item
    [ {| id := -5; svg := [34; 92; 47; 8; 10; 0; 31; 127; 8232; 55357; 56832; 56320];
         code := lit "<link href='x' />" ++ [34; 92; 110]; date := lit "1/2/2025, 10:00" |};
      {| id := 1700000000000; svg := []; code := lit "[{}],:"; date := [233; 65535] |} ]).
  { repeat (apply List.Forall_cons; [repeat split; by apply isCodeUnits_wf|]).
    apply List.Forall_nil. }
  assert (Hid : Forall safeId
    [ {| id := -5; svg := [34; 92; 47; 8; 10; 0; 31; 127; 8232; 55357; 56832; 56320];
         code := lit "<link href='x' />" ++ [34; 92; 110]; date := lit "1/2/2025, 10:00" |};
      {| id := 1700000000000; svg := []; code := lit "[{}],:"; date := [233; 65535] |} ]).
  { repeat (apply List.Forall_cons; [unfold safeId; simpl; lia|]). apply List.Forall_nil. }
  split; [exact Hwf|].
  exact (proj2 (stored_entries_read_back _ (pageWith []) Hwf Hid)).
Defined.

(** ** Recording on a damaged storage *)

Lemma getHistory_unreadable (p : Page) :
  getItem STORAGE_KEY p = None \/ getItem STORAGE_KEY p = Some []
  \/ (exists t e, getItem STORAGE_KEY p = Some t /\ JSON_parse t = Throw e) ->
  getHistory p = JArr [].
Proof.
  unfold getHistory. intros [->|[->|(t & e & -> & Ht)]]; [done..|].
  destruct t as [|c t]; [done|]. cbn [orElse]. by rewrite Ht.
Qed.

Lemma recordItem_nil (e : HistoryItem) : recordItem e [] = [e].
Proof. reflexivity. Qed.

Lemma saveHistory_on_empty (now : Z) (d : jsstring) (p : Page) :
  getHistory p = JArr [] -> wf_page p -> wf_string d -> trim (svgInput p) <> [] ->
  getHistory (Part001.saveHistory now d p) = JArr [itemJson (newEntry now d p)]
  /\ getHistory (MainTs.saveHistory now d p) = JArr [itemJson (newEntry now d p)].
Proof.
  intros Hh Hp Hd Hne.
  destruct (Part001_saveHistory_spec now d p [] Hh (List.Forall_nil _) Hp Hd) as (H1 & _).
  pose proof (MainTs_saveHistory_spec now d p [] Hh (List.Forall_nil _) Hp Hd) as H2.
  unfold recorded in H1. destruct (trim (svgInput p)); [done|]. by rewrite H1, H2.
Qed.

(** X12: a recording on a storage whose history cannot be read (the key is
    absent, holds the empty text, or holds a text [JSON.parse] rejects)
    starts a new history of one entry, overwriting what was stored, in both
    scripts.  When the stored text parses to a value that is not an array,
    [saveHistory] leaves the page as it was: nothing is recorded. *)
Theorem recording_on_damaged_storage (now : Z) (d : jsstring) (p : Page) :
  wf_page p -> wf_string d -> trim (svgInput p) <> [] ->
  (getItem STORAGE_KEY p = None \/ getItem STORAGE_KEY p = Some []
   \/ (exists t e, getItem STORAGE_KEY p = Some t /\ JSON_parse t = Throw e) ->
   getHistory (Part001.saveHistory now d p) = JArr [itemJson (newEntry now d p)]
   /\ getHistory (MainTs.saveHistory now d p) = JArr [itemJson (newEntry now d p)])
  /\ ((forall l, getHistory p <> JArr l) ->
      Part001.saveHistory now d p = p /\ MainTs.saveHistory now d p = p).
Proof.
  intros Hp Hd Hne. split.
  - intros H. apply saveHistory_on_empty; try done. by apply getHistory_unreadable.
  - intros H. unfold Part001.saveHistory, MainTs.saveHistory.
    destruct (trim (svgInput p)); [done|].
    destruct (getHistory p) as [| | | | |h|]; try done. by destruct (H h).
Qed.

Lemma recording_on_damaged_storage_witness :
  wf_page (setSvgInput (lit "<svg/>") (pageStoring (lit "[{oops")))
  /\ (exists t e, getItem STORAGE_KEY (setSvgInput (lit "<svg/>") (pageStoring (lit "[{oops")))
                  = Some t /\ JSON_parse t = Throw e)
  /\ getHistory (Part001.saveHistory 7 (lit "today")
                   (setSvgInput (lit "<svg/>") (pageStoring (lit "[{oops"))))
     = JArr [itemJson {| id := 7; svg := lit "<svg/>"; code := []; date := lit "today" |}]
  /\ (forall l, getHistory (setSvgInput (lit "<svg/>") (pageStoring (lit "{}"))) <> JArr l)
  /\ MainTs.saveHistory 7 (lit "today") (setSvgInput (lit "<svg/>") (pageStoring (lit "{}")))
     = setSvgInput (lit "<svg/>") (pageStoring (lit "{}")).
Proof.
  assert (Hp : forall t, wf_page (setSvgInput (lit "<svg/>") (pageStoring t))).
  { intros t. split; [by apply isCodeUnits_wf|apply List.Forall_nil]. }
  assert (Hd : wf_string (lit "today")) by (by apply isCodeUnits_wf).
  assert (Hne : forall t, trim (svgInput (setSvgInput (lit "<svg/>") (pageStoring t))) <> [])
    by (intros t; discriminate).
  assert (Hbad : exists t e,
             getItem STORAGE_KEY (setSvgInput (lit "<svg/>") (pageStoring (lit "[{oops")))
             = Some t /\ JSON_parse t = Throw e).
  { exists (lit "[{oops"), SyntaxError. split; reflexivity. }
  assert (Hobj : forall l,
             getHistory (setSvgInput (lit "<svg/>") (pageStoring (lit "{}"))) <> JArr l).
  { intros l. discriminate. }
  split; [apply Hp|]. split; [exact Hbad|].
  split.
  { exact (proj1 (proj1 (recording_on_damaged_storage 7 (lit "today") _ (Hp _) Hd (Hne _))
                    (or_intror (or_intror Hbad)))). }
  split; [exact Hobj|].
  exact (proj2 (proj2 (recording_on_damaged_storage 7 (lit "today") _ (Hp _) Hd (Hne _))
                  Hobj)).
Defined.

(** ** A history longer than the bound *)

Lemma recordItem_overlong (e : HistoryItem) (items : list HistoryItem) :
  (50 <= length items)%nat -> recordItem e items = e :: removelast items.
Proof.
  intros H. unfold recordItem.
  destruct (Z.ltb_spec 50 (Z.of_nat (length (e :: items)))); [|simpl in *; lia].
  destruct items as [|x items]; [simpl in *; lia|]. done.
Qed.

Lemma length_removelast {A} (l : list A) : length (removelast l) = pred (length l).
Proof.
  induction l as [|x [|y l] IH]; try done.
  change (S (length (removelast (y :: l))) = S (length l)). rewrite IH. done.
Qed.

(** X13: the bound of 50 entries is kept, not restored: on a stored
    history of more than 50 entries (written by another program or by hand)
    a recording puts the new entry first and drops only the last one, so
    the history keeps its length, in both scripts. *)
Theorem overlong_history_keeps_length (now : Z) (d : jsstring) (p : Page)
    (items : list HistoryItem) :
  getHistory p = JArr (map itemJson items) ->
  Forall wf_item items -> wf_page p -> wf_string d ->
  (50 < length items)%nat -> trim (svgInput p) <> [] ->
  getHistory (MainTs.saveHistory now d p)
  = JArr (map itemJson (newEntry now d p :: removelast items))
  /\ length (newEntry now d p :: removelast items) = length items
  /\ (svg <$> head items <> Some (trim (svgInput p)) ->
      getHistory (Part001.saveHistory now d p)
      = JArr (map itemJson (newEntry now d p :: removelast items))).
Proof.
  intros Hh Hwf Hp Hd Hlen Hne.
  pose proof (MainTs_saveHistory_spec now d p items Hh Hwf Hp Hd) as H2.
  destruct (Part001_saveHistory_spec now d p items Hh Hwf Hp Hd) as (H1 & _).
  unfold recorded in H1. destruct (trim (svgInput p)) as [|c r] eqn:Et; [done|].
  rewrite recordItem_overlong in H1, H2 by lia. split; [done|].
  split; [simpl; rewrite length_removelast; lia|].
  intros Hhead. destruct items as [|e items]; [done|]. simpl in Hhead.
  rewrite str_eqb_neq in H1; [done|]. intros E. apply Hhead. by rewrite E.
Qed.

Lemma overlong_history_keeps_length_witness :
  length (replicate 60 sampleItem) = 60%nat
  /\ getHistory (MainTs.saveHistory 7 (lit "today")
       (setSvgInput (lit "<b/>")
          (pageStoring (JSON_stringify (JArr (map itemJson (replicate 60 sampleItem)))))))
     = JArr (map itemJson
               ({| id := 7; svg := lit "<b/>"; code := []; date := lit "today" |}
                :: replicate 59 sampleItem))
  /\ length ({| id := 7; svg := lit "<b/>"; code := []; date := lit "today" |}
             :: replicate 59 sampleItem) = 60%nat.
Proof.
  assert (Hi : wf_item sampleItem) by (repeat split; by apply isCodeUnits_wf).
  assert (Hwf : Forall wf_item (replicate 60 sampleItem)).
  { apply Forall_forall. intros x Hx. by apply elem_of_replicate in Hx as [-> _]. }
  set (p := setSvgInput (lit "<b/>")
              (pageStoring (JSON_stringify (JArr (map itemJson (replicate 60 sampleItem)))))).
  assert (Hh : getHistory p = JArr (map itemJson (replicate 60 sampleItem))).
  { apply getHistory_stored; [exact Hwf|reflexivity]. }
  assert (Hp : wf_page p) by (split; [by apply isCodeUnits_wf|apply List.Forall_nil]).
  assert (Hd : wf_string (lit "today")) by (by apply isCodeUnits_wf).
  assert (Hlen : (50 < length (replicate 60 sampleItem))%nat) by (simpl; lia).
  assert (Hne : trim (svgInput p) <> []) by discriminate.
  split; [reflexivity|].
  destruct (overlong_history_keeps_length 7 (lit "today") p _ Hh Hwf Hp Hd Hlen Hne)
    as (H1 & H2 & _).
  split; [exact H1|reflexivity].
Defined.

(** ** Only the head entry is compared *)

(** X14: the check of part_001 against duplicates looks at the head entry
    only: when the text of the input field was recorded before but another
    text was recorded since, it is recorded again, and the history then
    holds two entries with the same text. *)
Theorem older_duplicate_is_recorded_again (now : Z) (d : jsstring) (p : Page)
    (items : list HistoryItem) (old : HistoryItem) :
  getHistory p = JArr (map itemJson items) ->
  Forall wf_item items -> wf_page p -> wf_string d ->
  (length items < 50)%nat -> trim (svgInput p) <> [] ->
  old ∈ items -> svg old = trim (svgInput p) ->
  svg <$> head items <> Some (trim (svgInput p)) ->
  getHistory (Part001.saveHistory now d p)
  = JArr (map itemJson (newEntry now d p :: items))
  /\ old ∈ newEntry now d p :: items
  /\ svg (newEntry now d p) = svg old.
Proof.
  intros Hh Hwf Hp Hd Hlen Hne Hin Hsvg Hhead.
  destruct (Part001_saveHistory_spec now d p items Hh Hwf Hp Hd) as (H1 & _).
  unfold recorded in H1. destruct (trim (svgInput p)) as [|c r] eqn:Et; [done|].
  assert (E : match items with [] => false | e :: _ => str_eqb (svg e) (c :: r) end = false).
  { destruct items as [|e items]; [done|]. apply str_eqb_neq. intros E. apply Hhead.
    simpl. by rewrite E. }
  rewrite E, recordItem_take, take_ge in H1 by (simpl; lia).
  split; [done|]. split; [by apply list_elem_of_further|].
  simpl. by rewrite Et.
Qed.

Lemma older_duplicate_is_recorded_again_witness :
  getHistory (recordAll [sampleCall "a" 1; sampleCall "b" 2; sampleCall "a" 3] (pageWith []))
  = JArr (map itemJson
            [entryOf [] (sampleCall "a" 3); entryOf [] (sampleCall "b" 2);
             entryOf [] (sampleCall "a" 1)])
  /\ svg (entryOf [] (sampleCall "a" 3)) = svg (entryOf [] (sampleCall "a" 1)).
Proof.
  set (p := setSvgInput (lit "a") (recordAll [sampleCall "a" 1; sampleCall "b" 2] (pageWith []))).
  set (items := [entryOf [] (sampleCall "b" 2); entryOf [] (sampleCall "a" 1)]).
  assert (Hwf : Forall wf_item items).
  { repeat (apply List.Forall_cons; [repeat split; by apply isCodeUnits_wf|]).
    apply List.Forall_nil. }
  assert (Hp : wf_page p) by (split; [by apply isCodeUnits_wf|apply List.Forall_nil]).
  assert (Hd : wf_string (lit "today")) by (by apply isCodeUnits_wf).
  assert (Hlen : (length items < 50)%nat) by (simpl; lia).
  assert (Hne : trim (svgInput p) <> []) by discriminate.
  assert (Hin : entryOf [] (sampleCall "a" 1) ∈ items).
  { apply list_elem_of_further, list_elem_of_here. }
  assert (Hhead : svg <$> head items <> Some (trim (svgInput p))) by discriminate.
  destruct (older_duplicate_is_recorded_again 3 (lit "today") p items
              (entryOf [] (sampleCall "a" 1)) eq_refl Hwf Hp Hd Hlen Hne Hin eq_refl Hhead)
    as (H1 & _ & H3).
  split; [exact H1|exact H3].
Defined.

(** ** What a recording leaves alone *)

Lemma getItem_setItem_ne (k k' v : jsstring) (p : Page) :
  k <> k' -> getItem k (setItem k' v p) = getItem k p.
Proof. intros H. unfold getItem, setItem. simpl. by apply lookup_insert_ne. Qed.

Lemma saveHistory_cases (now : Z) (d : jsstring) (p : Page) :
  (Part001.saveHistory now d p = p
   \/ exists t, Part001.saveHistory now d p = setItem STORAGE_KEY t p)
  /\ (MainTs.saveHistory now d p = p
      \/ exists t, MainTs.saveHistory now d p = setItem STORAGE_KEY t p).
Proof.
  unfold Part001.saveHistory, MainTs.saveHistory.
  destruct (trim (svgInput p)); [by split; left|].
  destruct (getHistory p) as [| | | | |h|]; try (by split; left).
  split; [|right; by eexists].
  destruct (headHasSvg h (z :: l)) as [[|]|]; [by left|right; by eexists|by left].
Qed.

(** X15: [saveHistory], in both scripts and on every page, writes nothing
    but the history key of the storage: the input field, the output field,
    the preview, the icon link and every other key of the storage are as
    before the call. *)
Theorem saveHistory_writes_only_history (now : Z) (d : jsstring) (p : Page) :
  (svgInput (Part001.saveHistory now d p) = svgInput p
   /\ outputCode (Part001.saveHistory now d p) = outputCode p
   /\ previewImg (Part001.saveHistory now d p) = previewImg p
   /\ pageLink (Part001.saveHistory now d p) = pageLink p
   /\ forall k, k <> STORAGE_KEY ->
                getItem k (Part001.saveHistory now d p) = getItem k p)
  /\ (svgInput (MainTs.saveHistory now d p) = svgInput p
      /\ outputCode (MainTs.saveHistory now d p) = outputCode p
      /\ previewImg (MainTs.saveHistory now d p) = previewImg p
      /\ pageLink (MainTs.saveHistory now d p) = pageLink p
      /\ forall k, k <> STORAGE_KEY ->
                   getItem k (MainTs.saveHistory now d p) = getItem k p).
Proof.
  destruct (saveHistory_cases now d p) as [[-> | [t ->]] [-> | [t' ->]]];
    repeat split; try done; intros k Hk; by apply getItem_setItem_ne.
Qed.

Lemma saveHistory_writes_only_history_witness :
  lit "theme" <> STORAGE_KEY
  /\ getItem (lit "theme")
       (Part001.saveHistory 7 (lit "today")
          (setItem (lit "theme") (lit "dark") (pageWith (lit "<svg/>"))))
     = Some (lit "dark")
  /\ getItem STORAGE_KEY
       (Part001.saveHistory 7 (lit "today")
          (setItem (lit "theme") (lit "dark") (pageWith (lit "<svg/>"))))
     <> None.
Proof.
  assert (Hk : lit "theme" <> STORAGE_KEY) by discriminate.
  split; [exact Hk|]. split; [|discriminate].
  destruct (saveHistory_writes_only_history 7 (lit "today")
              (setItem (lit "theme") (lit "dark") (pageWith (lit "<svg/>"))))
    as [(_ & _ & _ & _ & H) _].
  rewrite (H (lit "theme") Hk). reflexivity.
Defined.

(** ** Clearing the history *)

(** X16: the clear listener (once confirmed) resets the history whatever
    the storage held: afterwards [getHistory] returns the empty array, the
    export gives the text of the empty array, the fields of the page and
    the other keys of the storage are untouched, and the next recording
    starts a history of one entry, in both scripts. *)
Theorem clear_resets_history (p : Page) :
  getHistory (clearHistory p) = JArr []
  /\ exportData (clearHistory p) = EMPTY_ARRAY
  /\ svgInput (clearHistory p) = svgInput p
  /\ outputCode (clearHistory p) = outputCode p
  /\ previewImg (clearHistory p) = previewImg p
  /\ pageLink (clearHistory p) = pageLink p
  /\ (forall k, k <> STORAGE_KEY -> getItem k (clearHistory p) = getItem k p)
  /\ (forall now d, wf_page p -> wf_string d -> trim (svgInput p) <> [] ->
        getHistory (Part001.saveHistory now d (clearHistory p))
        = JArr [itemJson (newEntry now d p)]
        /\ getHistory (MainTs.saveHistory now d (clearHistory p))
           = JArr [itemJson (newEntry now d p)]).
Proof.
  assert (Hnone : getItem STORAGE_KEY (clearHistory p) = None).
  { unfold getItem, clearHistory, removeItem. simpl. apply lookup_delete_eq. }
  split; [by apply getHistory_absent|].
  split; [unfold exportData; by rewrite Hnone|].
  do 4 (split; [done|]). split.
  - intros k Hk. unfold getItem, clearHistory, removeItem. simpl.
    by apply lookup_delete_ne.
  - intros now d Hp Hd Hne.
    apply (saveHistory_on_empty now d (clearHistory p)); try done.
    by apply getHistory_absent.
Qed.

Lemma clear_resets_history_witness :
  getHistory (setSvgInput (lit "<svg/>") (pageStoring (lit "{}"))) = JObj []
  /\ MainTs.saveHistory 7 (lit "today") (setSvgInput (lit "<svg/>") (pageStoring (lit "{}")))
     = setSvgInput (lit "<svg/>") (pageStoring (lit "{}"))
  /\ getHistory (MainTs.saveHistory 7 (lit "today")
                   (clearHistory (setSvgInput (lit "<svg/>") (pageStoring (lit "{}")))))
     = JArr [itemJson {| id := 7; svg := lit "<svg/>"; code := []; date := lit "today" |}].
Proof.
  set (p := setSvgInput (lit "<svg/>") (pageStoring (lit "{}"))).
  assert (Hp : wf_page p) by (split; [by apply isCodeUnits_wf|apply List.Forall_nil]).
  assert (Hd : wf_string (lit "today")) by (by apply isCodeUnits_wf).
  assert (Hne : trim (svgInput p) <> []) by discriminate.
  split; [reflexivity|]. split; [reflexivity|].
  destruct (clear_resets_history p) as (_ & _ & _ & _ & _ & _ & _ & H).
  exact (proj2 (H 7 (lit "today") Hp Hd Hne)).
Defined.

(** ** The Generate button *)

Lemma dataUriChar_wf (q : jsstring) : forallb dataUriChar q = true -> wf_string q.
Proof.
  intros H. apply isCodeUnits_wf. revert H. apply forallb_weaken.
  intros c. unfold dataUriChar, isAlnum. zbool; simpl; done.
Qed.

Lemma wf_string_linkTag (x : jsstring) : wf_string x -> wf_string (linkTag x).
Proof.
  intros H. unfold linkTag.
  repeat (apply wf_string_app; split); try done; by apply isCodeUnits_wf.
Qed.

Lemma wf_string_tag (s : jsstring) (e : Encoded) :
  wf_string s -> normalize s = Normal (Generated e) ->
  wf_string (tag e) /\ trim (tag e) = tag e.
Proof.
  intros Hwf Hn.
  destruct (normalize_Generated s e Hwf Hn) as (raw & t & Hraw & _ & Ht & Hd & ->).
  split; [|apply trim_linkTag]. apply wf_string_linkTag. rewrite Hd.
  apply wf_string_app. split; [by apply isCodeUnits_wf|].
  apply dataUriChar_wf, (dataUriChar_requote_encode (minimize raw)); [|done].
  by apply wf_string_minimize.
Qed.

(** A generated tag holds no carriage return: the output field, a textarea
    too, reads it as it was written. *)
Lemma tag_reads_as_written (s : jsstring) (e : Encoded) :
  wf_string s -> normalize s = Normal (Generated e) ->
  normalizeNewlines (tag e) = tag e.
Proof.
  intros Hwf Hn.
  destruct (normalize_Generated s e Hwf Hn) as (raw & t & Hraw & _ & Ht & Hd & ->).
  apply normalizeNewlines_id. rewrite Hd. unfold linkTag.
  rewrite !forallb_app. repeat (apply andb_true_iff; split); try done.
  apply (forallb_weaken dataUriChar).
  - intros c. unfold dataUriChar, isAlnum. zbool; simpl; done.
  - apply (dataUriChar_requote_encode (minimize raw)); [|done].
    by apply wf_string_minimize.
Qed.

(** The page [processInput] leaves when the encoder has a result. *)
Lemma processInputWith_unwrap f (p : Page) (e : Encoded) (decoded : jsstring)
    (isDataUri : bool) :
  normalize (svgInput p) = Normal (Generated e) ->
  unwrap (trim (svgInput p)) = Normal (decoded, isDataUri) ->
  processInputWith f p
  = Returns (f (dataUri e)
               (setOutput (tag e) (dataUri e)
                  (if isDataUri then setSvgInput decoded p else p))).
Proof.
  unfold normalize, processInputWith. destruct (trim (svgInput p)); [done|].
  intros Hn Hu. rewrite Hu in *. simpl in *. destruct (generate decoded); [|done]. simpl in Hn.
  by injection Hn as ->.
Qed.

Section GenerateClick.

Variables (now : Z) (d : jsstring) (p : Page) (items : list HistoryItem).
Variables (e : Encoded) (decoded : jsstring) (isDataUri : bool).
Hypothesis wf_input : wf_string (svgInput p).
Hypothesis wf_date : wf_string d.
Hypothesis stored : getHistory p = JArr (map itemJson items).
Hypothesis wf_items : Forall wf_item items.
Hypothesis result : normalize (svgInput p) = Normal (Generated e).
Hypothesis unwrapped : unwrap (trim (svgInput p)) = Normal (decoded, isDataUri).

Lemma wf_page_processed f :
  (forall h q, svgInput (f h q) = svgInput q /\ outputCode (f h q) = outputCode q) ->
  wf_page (f (dataUri e) (processed e decoded isDataUri p)).
Proof.
  intros Hf. destruct (Hf (dataUri e) (processed e decoded isDataUri p)) as [Hi Ho].
  unfold wf_page.
  rewrite Hi, Ho. unfold processed. simpl. split.
  - destruct isDataUri; [|done]. simpl.
    apply wf_string_normalizeNewlines.
    apply (wf_string_unwrap (trim (svgInput p)) decoded true); [|done].
    by apply wf_string_trim.
  - by apply (wf_string_tag (svgInput p)).
Qed.

Lemma newEntry_processed f :
  (forall h q, svgInput (f h q) = svgInput q /\ outputCode (f h q) = outputCode q) ->
  newEntry now d (f (dataUri e) (processed e decoded isDataUri p))
  = {| id := now; svg := trim (if isDataUri then normalizeNewlines decoded else svgInput p);
       code := tag e; date := d |}.
Proof.
  intros Hf. destruct (Hf (dataUri e) (processed e decoded isDataUri p)) as [Hi Ho].
  unfold newEntry.
  rewrite Hi, Ho. unfold processed. simpl.
  rewrite (proj2 (wf_string_tag (svgInput p) e wf_input result)).
  by destruct isDataUri.
Qed.

Lemma getHistory_processed f :
  (forall h q, localStorage (f h q) = localStorage q) ->
  getHistory (f (dataUri e) (processed e decoded isDataUri p)) = JArr (map itemJson items).
Proof.
  intros Hf. rewrite <- stored. unfold getHistory, getItem. rewrite Hf.
  unfold processed. by destruct isDataUri.
Qed.

Lemma MainTs_generateClick_history :
  trim (if isDataUri then normalizeNewlines decoded else svgInput p) <> [] ->
  getHistory (MainTsPage.generateClick now d p)
  = JArr (map itemJson
            (recordItem {| id := now;
                           svg := trim (if isDataUri then normalizeNewlines decoded
                                        else svgInput p);
                           code := tag e; date := d |} items)).
Proof.
  intros Hne. unfold MainTsPage.generateClick, generateClickWith, MainTs.processInput.
  rewrite (processInputWith_unwrap _ p e decoded isDataUri result unwrapped).
  fold (processed e decoded isDataUri p).
  rewrite (MainTs_saveHistory_spec now d _ items
             (getHistory_processed setPageLink (fun _ _ => eq_refl)) wf_items
             (wf_page_processed setPageLink (fun _ _ => conj eq_refl eq_refl)) wf_date).
  rewrite (newEntry_processed setPageLink (fun _ _ => conj eq_refl eq_refl)).
  assert (Hs : svgInput (setPageLink (dataUri e) (processed e decoded isDataUri p))
               = if isDataUri then normalizeNewlines decoded else svgInput p).
  { unfold processed. by destruct isDataUri. }
  rewrite Hs. by destruct (trim (if isDataUri then normalizeNewlines decoded else svgInput p)).
Qed.

Lemma Part001_generateClick_history :
  trim (if isDataUri then normalizeNewlines decoded else svgInput p) <> [] ->
  getHistory (Part001Page.generateClick now d p)
  = JArr (map itemJson
            (if bool_decide (svg <$> head items
                             = Some (trim (if isDataUri then normalizeNewlines decoded
                                           else svgInput p)))
             then items
             else recordItem {| id := now;
                                svg := trim (if isDataUri then normalizeNewlines decoded
                                             else svgInput p);
                                code := tag e; date := d |} items)).
Proof.
  intros Hne. unfold Part001Page.generateClick, generateClickWith, Part001.processInput.
  rewrite (processInputWith_unwrap _ p e decoded isDataUri result unwrapped).
  fold (processed e decoded isDataUri p).
  destruct (Part001_saveHistory_spec now d _ items
              (getHistory_processed (fun _ q => q) (fun _ _ => eq_refl)) wf_items
              (wf_page_processed (fun _ q => q) (fun _ _ => conj eq_refl eq_refl)) wf_date)
    as (-> & _).
  unfold recorded.
  rewrite (newEntry_processed (fun _ q => q) (fun _ _ => conj eq_refl eq_refl)).
  assert (Hs : svgInput (processed e decoded isDataUri p)
               = if isDataUri then normalizeNewlines decoded else svgInput p).
  { unfold processed. by destruct isDataUri. }
  rewrite Hs.
  destruct (trim (if isDataUri then normalizeNewlines decoded else svgInput p))
    as [|c r] eqn:Et; [done|].
  case_bool_decide as Hb; destruct items as [|x rest]; try done; simpl in Hb.
  - injection Hb as Hb. by rewrite Hb, str_eqb_refl.
  - rewrite str_eqb_neq; [done|]. intros E. apply Hb. by rewrite E.
Qed.

End GenerateClick.




Lemma normalize_Empty_trim (s : jsstring) : normalize s = Normal Empty -> trim s = [].
Proof.
  unfold normalize. destruct (trim s); [done|].
  destruct (unwrap _) as [u|]; [|done]. simpl. by destruct (generate (fst u)).
Qed.

Lemma saveHistory_blank (now : Z) (d : jsstring) (p : Page) :
  trim (svgInput p) = [] ->
  Part001.saveHistory now d p = p /\ MainTs.saveHistory now d p = p.
Proof. intros H. unfold Part001.saveHistory, MainTs.saveHistory. by rewrite H. Qed.

(** X18: a click on Generate records nothing, in either script, when the
    input is blank, when [processInput] throws, and also when the input is
    a data URI that decodes to a blank text: the output then shows a tag,
    but the storage is as before. *)
Theorem generate_click_records_nothing (now : Z) (d : jsstring) (p : Page) :
  normalize (svgInput p) = Normal Empty
  \/ (exists err, normalize (svgInput p) = Throw err)
  \/ (exists e decoded, normalize (svgInput p) = Normal (Generated e)
                        /\ unwrap (trim (svgInput p)) = Normal (decoded, true)
                        /\ trim decoded = []) ->
  localStorage (MainTsPage.generateClick now d p) = localStorage p
  /\ localStorage (Part001Page.generateClick now d p) = localStorage p.
Proof.
  unfold MainTsPage.generateClick, Part001Page.generateClick, generateClickWith,
    MainTs.processInput, Part001.processInput.
  intros [H|[[err H]|(e & decoded & Hn & Hu & Ht)]].
  - rewrite !(processInputWith_Empty _ p H). apply normalize_Empty_trim in H.
    assert (Hb : trim (svgInput (setOutput [] [] p)) = []) by done.
    destruct (saveHistory_blank now d _ Hb) as [-> ->]. done.
  - destruct (processInputWith_Throw setPageLink p err H) as (p1 & -> & H1 & _).
    destruct (processInputWith_Throw (fun _ q => q) p err H) as (p2 & -> & H2 & _).
    done.
  - rewrite !(processInputWith_unwrap _ p e decoded true Hn Hu).
    assert (Hb1 : trim (svgInput (setPageLink (dataUri e)
                                    (setOutput (tag e) (dataUri e) (setSvgInput decoded p))))
                  = []) by (simpl; by rewrite trim_normalizeNewlines, Ht).
    assert (Hb2 : trim (svgInput (setOutput (tag e) (dataUri e) (setSvgInput decoded p)))
                  = []) by (simpl; by rewrite trim_normalizeNewlines, Ht).
    rewrite (proj2 (saveHistory_blank now d _ Hb1)).
    rewrite (proj1 (saveHistory_blank now d _ Hb2)). done.
Qed.

Lemma generate_click_records_nothing_witness :
  (exists e, normalize (DATA_PREFIX ++ lit "%20%0A") = Normal (Generated e)
             /\ tag e = linkTag (DATA_PREFIX ++ lit "%20"))
  /\ outputCode (Part001Page.generateClick 7 (lit "today")
                   (pageWith (DATA_PREFIX ++ lit "%20%0A")))
     = linkTag (DATA_PREFIX ++ lit "%20")
  /\ localStorage (Part001Page.generateClick 7 (lit "today")
                     (pageWith (DATA_PREFIX ++ lit "%20%0A")))
     = localStorage (pageWith (DATA_PREFIX ++ lit "%20%0A")).
Proof.
  split; [eexists; split; reflexivity|]. split; [reflexivity|].
  refine (proj2 (generate_click_records_nothing 7 (lit "today")
                   (pageWith (DATA_PREFIX ++ lit "%20%0A")) _)).
  right. right. eexists. exists [32; 10]. split; [reflexivity|]. split; reflexivity.
Defined.

(** ** Loading an entry back *)

Lemma normalize_trim (s : jsstring) : normalize (trim s) = normalize s.
Proof. unfold normalize. by rewrite trim_idempotent. Qed.

Lemma unwrap_plain_normalizeNewlines (t decoded : jsstring) :
  unwrap t = Normal (decoded, false) ->
  unwrap (normalizeNewlines t) = Normal (normalizeNewlines decoded, false).
Proof.
  unfold unwrap, unwrapDataUri.
  rewrite unwrapLink_normalizeNewlines, startsWith_normalizeNewlines by done.
  destruct (startsWith DATA_PREFIX (unwrapLink t)).
  - by destruct (decodeURIComponent _).
  - by intros [= <-].
Qed.

Lemma trim_normalized (s : jsstring) :
  normalizeNewlines s = s -> normalizeNewlines (trim s) = trim s.
Proof. intros H. by rewrite <- trim_normalizeNewlines, H. Qed.

Lemma load_recorded f (q : Page) (s : jsstring) (e : Encoded) (decoded : jsstring) :
  normalize s = Normal (Generated e) ->
  unwrap (trim s) = Normal (decoded, false) ->
  processInputWith f (setSvgInput (trim s) q)
  = Returns (f (dataUri e) (setOutput (tag e) (dataUri e) (setSvgInput (trim s) q))).
Proof.
  intros Hn Hu.
  apply (processInputWith_unwrap f (setSvgInput (trim s) q) e
           (normalizeNewlines decoded) false).
  - simpl. by rewrite normalize_normalizeNewlines, normalize_trim.
  - simpl. rewrite trim_normalizeNewlines, trim_idempotent.
    by apply unwrap_plain_normalizeNewlines.
Qed.

(** X19: Generate, then load: when the input is not a data URI and the
    encoder has a result, the entry a click on Generate records leads back
    to the output it was recorded with.  Whatever the input field holds
    later, loading the entry (the Load button of main.ts, the [loadHistory]
    event of part_001 with the id of the entry) puts the recorded source
    into the input field and shows the recorded code and its data URI
    again; the lookup by id finds the new entry first even when an older
    entry has the same id.  The input field reads the recorded source with
    its newlines normalised, which is the recorded source itself when the
    entry was recorded from a text the field read. *)
Theorem generate_then_load (now : Z) (d : jsstring) (p : Page)
    (items : list HistoryItem) (e : Encoded) (decoded later : jsstring) :
  wf_string (svgInput p) -> wf_string d ->
  getHistory p = JArr (map itemJson items) -> Forall wf_item items ->
  normalize (svgInput p) = Normal (Generated e) ->
  unwrap (trim (svgInput p)) = Normal (decoded, false) ->
  let entry := {| id := now; svg := trim (svgInput p); code := tag e; date := d |} in
  (exists rest q,
     asItems (getHistory (MainTsPage.generateClick now d p)) = Some (entry :: rest)
     /\ MainTsPage.loadItem entry (setSvgInput later (MainTsPage.generateClick now d p))
        = Returns q
     /\ svgInput q = normalizeNewlines (svg entry)
     /\ (normalizeNewlines (svgInput p) = svgInput p -> svgInput q = svg entry)
     /\ outputCode q = code entry /\ previewImg q = dataUri e)
  /\ (svg <$> head items <> Some (trim (svgInput p)) ->
      exists rest q,
        asItems (getHistory (Part001Page.generateClick now d p)) = Some (entry :: rest)
        /\ Part001Page.loadHistory now
             (setSvgInput later (Part001Page.generateClick now d p))
           = Some (Returns q)
        /\ svgInput q = normalizeNewlines (svg entry)
        /\ (normalizeNewlines (svgInput p) = svgInput p -> svgInput q = svg entry)
        /\ outputCode q = code entry /\ previewImg q = dataUri e).
Proof.
  intros Hwf Hd Hh Hitems Hn Hu entry.
  assert (Hne : trim (if false then decoded else svgInput p) <> []).
  { intros Ht. unfold normalize in Hn. simpl in Ht. by rewrite Ht in Hn. }
  pose proof (MainTs_generateClick_history now d p items e decoded false
                Hwf Hd Hh Hitems Hn Hu Hne) as HM.
  pose proof (Part001_generateClick_history now d p items e decoded false
                Hwf Hd Hh Hitems Hn Hu Hne) as HP.
  simpl in HM, HP. fold entry in HM, HP.
  destruct (recordItem_head entry items) as [rest Hrest]. split.
  - exists rest. eexists. rewrite HM, asItems_items. split; [by rewrite Hrest|].
    unfold MainTsPage.loadItem, loadItemWith, MainTs.processInput. simpl.
    rewrite (load_recorded _ _ _ e decoded Hn Hu).
    repeat split; try done. intros Hp. simpl. by apply trim_normalized.
  - intros Hhead. exists rest. eexists.
    rewrite bool_decide_eq_false_2 in HP by done.
    rewrite HP, asItems_items. split; [by rewrite Hrest|].
    unfold Part001Page.loadHistory. rewrite getHistory_setSvgInput, HP, asItems_items.
    rewrite Hrest. unfold findById. simpl. rewrite Z.eqb_refl.
    unfold loadItemWith, Part001.processInput. simpl.
    rewrite (load_recorded _ _ _ e decoded Hn Hu).
    repeat split; try done. intros Hp. simpl. by apply trim_normalized.
Qed.

Lemma generate_then_load_witness :
  exists e q,
    normalize (lit " <svg>  <g/></svg> ") = Normal (Generated e)
    /\ Part001Page.loadHistory 7
         (setSvgInput (lit "something else")
            (Part001Page.generateClick 7 (lit "today") (pageWith (lit " <svg>  <g/></svg> "))))
       = Some (Returns q)
    /\ svgInput q = lit "<svg>  <g/></svg>"
    /\ outputCode q = tag e
    /\ outputCode q
       = outputCode (Part001Page.generateClick 7 (lit "today")
                       (pageWith (lit " <svg>  <g/></svg> "))).
Proof.
  set (p := pageWith (lit " <svg>  <g/></svg> ")).
  assert (Hwf : wf_string (svgInput p)) by (by apply isCodeUnits_wf).
  assert (Hd : wf_string (lit "today")) by (by apply isCodeUnits_wf).
  assert (Hhead : svg <$> head (@nil HistoryItem) <> Some (trim (svgInput p))) by discriminate.
  destruct (generate_then_load 7 (lit "today") p [] _ (lit "<svg>  <g/></svg>")
              (lit "something else") Hwf Hd eq_refl (List.Forall_nil _) eq_refl eq_refl)
    as [_ HP].
  destruct (HP Hhead) as (rest & q & _ & Hl & _ & Hs & Ho & _).
  eexists. exists q. split; [reflexivity|]. split; [exact Hl|].
  split; [exact (Hs eq_refl)|].
  split; [exact Ho|]. rewrite Ho. reflexivity.
Defined.

(** When the input was a data URI the recorded source is the trimmed decoded
    text while the recorded code encodes the untrimmed one: loading the
    entry can then show another code than the recorded one. *)
Example load_after_data_uri_differs :
  exists entry q,
    asItems (getHistory (MainTsPage.generateClick 7 (lit "today")
                           (pageWith (DATA_PREFIX ++ lit "%20%3Csvg%2F%3E"))))
    = Some [entry]
    /\ code entry = linkTag (DATA_PREFIX ++ lit "%20%3Csvg%2F%3E")
    /\ MainTsPage.loadItem entry (pageWith []) = Returns q
    /\ outputCode q = linkTag (DATA_PREFIX ++ lit "%3Csvg%2F%3E")
    /\ outputCode q <> code entry.
Proof.
  do 2 eexists. split; [reflexivity|]. split; [reflexivity|].
  split; [reflexivity|]. split; [reflexivity|]. discriminate.
Qed.

(** ** Fetching a file (main.ts) *)

Lemma includes_SVG_OPEN_nonblank (s : jsstring) :
  includes SVG_OPEN s = true -> trim s <> [].
Proof.
  intros H Ht. apply trim_all_ws in Ht. induction s as [|c s IH]; [done|].
  simpl in Ht. apply andb_true_iff in Ht as [Hc Hs].
  cbn [includes] in H. apply orb_true_iff in H as [H|H]; [|by apply IH].
  apply startsWith_inv in H. injection H as -> _. done.
Qed.

Lemma normalize_nonblank (s : jsstring) :
  trim s <> [] -> normalize s <> Normal Empty.
Proof. intros H Hn. by apply normalize_Empty_trim in Hn. Qed.

Lemma processInputWith_localStorage f (p : Page) :
  (forall h q, localStorage (f h q) = localStorage q) ->
  match processInputWith f p with
  | Returns q => localStorage q = localStorage p
  | Raises _ q => localStorage q = localStorage p
  end.
Proof.
  intros Hf. destruct (processInputWith f p) as [q|err q] eqn:E.
  - apply processInputWith_Returns in E as [[_ ->]|(u & e & q' & _ & _ & _ & -> & ->)];
      [done|]. rewrite Hf. by destruct (snd u).
  - by apply processInputWith_Raises in E as (_ & _ & _ & _ & ? & _).
Qed.

Lemma processInputWith_normalize f (p : Page) :
  match processInputWith f p with
  | Returns _ => exists out, normalize (svgInput p) = Normal out
  | Raises e _ => normalize (svgInput p) = Throw e
  end.
Proof.
  unfold processInputWith, normalize. destruct (trim (svgInput p)); [by eexists|].
  destruct (unwrap _) as [[raw b]|]; simpl; [|done].
  destruct (generate raw); simpl; [by eexists|done].
Qed.

(** X20: [fetchUrl] of main.ts never writes the storage, and the alert
    tells what the page holds.  No alert: the URL was blank and the page is
    as before.  The success alert: the answer was ok, its text holds the
    marker, and the output shows the tag of that text; the input field
    reads the fetched text, or the text decoded from it when it was a data
    URI, with its newlines normalised.  The failure alert: the outputs and
    the icon link are as before; the page is unchanged, unless the text
    passed the check of the marker and [processInput] then threw: the
    fetched text has then already been written to the input field, which
    reads it (or the text decoded from it) with its newlines normalised. *)
Theorem fetch_outcome (url : jsstring) (respond : jsstring -> option Response)
    (p q : Page) (n : option notice) :
  MainTsPage.fetchUrl url respond p = (q, n) ->
  localStorage q = localStorage p
  /\ match n with
     | None => trim url = [] /\ q = p
     | Some Fetched =>
         exists res e decoded isDataUri,
           respond (trim url) = Some res /\ ok res = true
           /\ includes SVG_OPEN (body res) = true
           /\ MainTs.processInput (setSvgInput (body res) p) = Returns q
           /\ normalize (body res) = Normal (Generated e)
           /\ outputCode q = tag e /\ previewImg q = dataUri e
           /\ unwrap (trim (normalizeNewlines (body res))) = Normal (decoded, isDataUri)
           /\ svgInput q = normalizeNewlines (if isDataUri then decoded else body res)
     | Some Failed =>
         trim url <> []
         /\ outputCode q = outputCode p /\ previewImg q = previewImg p
         /\ pageLink q = pageLink p
         /\ (q = p
             \/ exists res,
                  respond (trim url) = Some res /\ ok res = true
                  /\ includes SVG_OPEN (body res) = true
                  /\ MainTs.processInput (setSvgInput (body res) p) = Raises URIError q
                  /\ normalize (body res) = Throw URIError
                  /\ (svgInput q = normalizeNewlines (body res)
                      \/ exists payload decoded,
                           unwrapLink (trim (normalizeNewlines (body res)))
                           = DATA_PREFIX ++ payload
                           /\ decodeURIComponent payload = Normal decoded
                           /\ svgInput q = normalizeNewlines decoded))
     end.
Proof.
  unfold MainTsPage.fetchUrl. destruct (trim url) as [|c r] eqn:Et.
  { by intros [= <- <-]. }
  destruct (respond (c :: r)) as [res|] eqn:Er; [|intros [= <- <-]; by repeat split; try left].
  destruct (ok res) eqn:Eok; simpl; [|intros [= <- <-]; by repeat split; try left].
  destruct (includes SVG_OPEN (body res)) eqn:Ei; simpl;
    [|intros [= <- <-]; by repeat split; try left].
  pose proof (processInputWith_localStorage setPageLink (setSvgInput (body res) p)
                (fun _ _ => eq_refl)) as Hs.
  pose proof (processInputWith_normalize setPageLink (setSvgInput (body res) p)) as Hnorm.
  unfold MainTs.processInput in *.
  destruct (processInputWith setPageLink (setSvgInput (body res) p)) as [p1|err p1] eqn:Ep;
    intros [= <- <-]; (split; [done|]).
  - exists res. pose proof Ep as Ep'.
    apply processInputWith_Returns in Ep' as [[Hb _]|(u & e & q' & Hu & _ & Hn & -> & ->)].
    + simpl in Hb. rewrite trim_normalizeNewlines in Hb.
      apply (proj1 (normalizeNewlines_nil _)) in Hb.
      destruct (includes_SVG_OPEN_nonblank _ Ei Hb).
    + simpl in Hn, Hu. rewrite normalize_normalizeNewlines in Hn.
      destruct u as [decoded b]. exists e, decoded, b. repeat split; try done.
      by destruct b.
  - simpl in Hnorm. rewrite normalize_normalizeNewlines in Hnorm.
    apply processInputWith_Raises in Ep as Hr.
    destruct Hr as (-> & Ho & Hp & Hl & _ & Hi).
    repeat split; try done. right. exists res. repeat split; try done.
    destruct Hi as [Hi|(payload & decoded & Hu & Hd & Hi & _)].
    + left. by rewrite Hi.
    + right. by exists payload, decoded.
Qed.

Lemma fetch_outcome_witness :
  MainTsPage.fetchUrl (lit " https://example.com/x.svg ")
    (fun u => if str_eqb u (lit "https://example.com/x.svg")
              then Some {| ok := true;
                           body := DATA_PREFIX ++ lit "<svg%0D" ++ [55296] ++ [13; 10] |}
              else None)
    (pageWith (lit "old"))
  = (setSvgInput (lit "<svg" ++ [13; 55296]) (pageWith (lit "old")), Some Failed)
  /\ svgInput (setSvgInput (lit "<svg" ++ [13; 55296]) (pageWith (lit "old")))
     = lit "<svg" ++ [10; 55296]
  /\ outputCode (setSvgInput (lit "<svg" ++ [13; 55296]) (pageWith (lit "old")))
     = outputCode (pageWith (lit "old"))
  /\ localStorage (setSvgInput (lit "<svg" ++ [13; 55296]) (pageWith (lit "old")))
     = localStorage (pageWith (lit "old")).
Proof.
  split; [reflexivity|]. split; [reflexivity|].
  destruct (fetch_outcome (lit " https://example.com/x.svg ")
              (fun u => if str_eqb u (lit "https://example.com/x.svg")
                        then Some {| ok := true;
                                     body := DATA_PREFIX ++ lit "<svg%0D" ++ [55296]
                                             ++ [13; 10] |}
                        else None)
              (pageWith (lit "old")) _ _ eq_refl) as (Hs & _ & Ho & _).
  split; [exact Ho|exact Hs].
Defined.

(** ** The Paste button *)

Lemma pasteClickWith_outcome f (clipboard : option jsstring) (p q : Page)
    (alerted : bool) :
  (forall h x, localStorage (f h x) = localStorage x) ->
  pasteClickWith (processInputWith f) clipboard p = (q, alerted) ->
  localStorage q = localStorage p
  /\ (alerted = true ->
      outputCode q = outputCode p /\ previewImg q = previewImg p
      /\ pageLink q = pageLink p
      /\ ((clipboard = None /\ q = p)
          \/ exists text, clipboard = Some text /\ normalize text = Throw URIError))
  /\ (alerted = false ->
      exists text out, clipboard = Some text /\ normalize text = Normal out).
Proof.
  intros Hf. unfold pasteClickWith. destruct clipboard as [text|].
  - pose proof (processInputWith_localStorage f (setSvgInput text p) Hf) as Hs.
    pose proof (processInputWith_normalize f (setSvgInput text p)) as Hn.
    destruct (processInputWith f (setSvgInput text p)) as [p1|err p1] eqn:Ep;
      intros [= <- <-]; (split; [done|]); split; try done.
    + intros _. destruct Hn as [out Hn]. simpl in Hn.
      rewrite normalize_normalizeNewlines in Hn. by exists text, out.
    + intros _. simpl in Hn. rewrite normalize_normalizeNewlines in Hn.
      apply processInputWith_Raises in Ep as (-> & Ho & Hp & Hl & _ & _).
      repeat split; try done. right. by exists text.
  - intros [= <- <-]. repeat split; try done. by left.
Qed.

(** X21: the Paste button, in both scripts, never writes the storage, and
    its alert about the clipboard permission is shown in exactly two
    cases: when reading the clipboard failed, the page being then as
    before, and when the text was read but made [processInput] throw a
    URIError.  In both cases the outputs and the icon link are as before
    the click. *)
Theorem paste_outcome (clipboard : option jsstring) (p q : Page) (alerted : bool) :
  MainTsPage.pasteClick clipboard p = (q, alerted)
  \/ Part001Page.pasteClick clipboard p = (q, alerted) ->
  localStorage q = localStorage p
  /\ (alerted = true ->
      outputCode q = outputCode p /\ previewImg q = previewImg p
      /\ pageLink q = pageLink p
      /\ ((clipboard = None /\ q = p)
          \/ exists text, clipboard = Some text /\ normalize text = Throw URIError))
  /\ (alerted = false ->
      exists text out, clipboard = Some text /\ normalize text = Normal out).
Proof.
  intros [H|H]; eapply pasteClickWith_outcome; try exact H; done.
Qed.

Lemma paste_outcome_witness :
  Part001Page.pasteClick (Some (DATA_PREFIX ++ lit "%E0%A4%A"))
    (setOutput (lit "old tag") (lit "old uri") (pageWith []))
  = (setSvgInput (DATA_PREFIX ++ lit "%E0%A4%A")
       (setOutput (lit "old tag") (lit "old uri") (pageWith [])), true)
  /\ outputCode (setSvgInput (DATA_PREFIX ++ lit "%E0%A4%A")
                   (setOutput (lit "old tag") (lit "old uri") (pageWith [])))
     = lit "old tag"
  /\ exists text, Some (DATA_PREFIX ++ lit "%E0%A4%A") = Some text
                  /\ normalize text = Throw URIError.
Proof.
  split; [reflexivity|].
  destruct (paste_outcome (Some (DATA_PREFIX ++ lit "%E0%A4%A"))
              (setOutput (lit "old tag") (lit "old uri") (pageWith [])) _ true
              (or_intror eq_refl)) as (_ & H & _).
  destruct (H eq_refl) as (Ho & _ & _ & [[Hc _]|Ht]).
  - discriminate Hc.
  - split; [exact Ho|exact Ht].
Defined.

(** ** Starting the page *)

Lemma initWith_default pi f (dflt v : jsstring) (e : Encoded) (raw : jsstring)
    (p : Page) :
  (forall x, pi x = processInputWith f x) ->
  svgInput p = [] ->
  decodeURIComponent (replaceFirst DATA_PREFIX [] dflt) = Normal v ->
  normalize v = Normal (Generated e) ->
  unwrap (trim v) = Normal (raw, false) ->
  initWith pi dflt p
  = Returns (f (dataUri e) (setOutput (tag e) (dataUri e) (setSvgInput v p))).
Proof.
  intros Hpi Hp Hd Hn Hu. unfold initWith. rewrite Hp, Hd, Hpi.
  apply (processInputWith_unwrap f (setSvgInput v p) e (normalizeNewlines raw) false).
  - simpl. by rewrite normalize_normalizeNewlines.
  - simpl. rewrite trim_normalizeNewlines. by apply unwrap_plain_normalizeNewlines.
Qed.

(** X22: the first two steps of [init], in both scripts: on a page whose
    input field is empty they fill the field with the decoded default
    icon and show the tag and the data URI the encoder gives for the
    default address, without throwing; the storage is untouched.  A field
    that is not empty is not replaced, even when it holds only white
    space: [init] then does what [processInput] does, clearing the outputs
    for a blank field. *)
Theorem init_outcome (p : Page) :
  (svgInput p = [] ->
   (exists e q, normalize MainTsPage.DEFAULT_SVG_HREF = Normal (Generated e)
                /\ MainTsPage.init p = Returns q
                /\ decodeURIComponent (replaceFirst DATA_PREFIX [] MainTsPage.DEFAULT_SVG_HREF)
                   = Normal (svgInput q)
                /\ outputCode q = tag e /\ previewImg q = dataUri e
                /\ pageLink q = Some (dataUri e)
                /\ localStorage q = localStorage p)
   /\ (exists e q, normalize Part001Page.DEFAULT_SVG_HREF = Normal (Generated e)
                   /\ Part001Page.init p = Returns q
                   /\ decodeURIComponent
                        (replaceFirst DATA_PREFIX [] Part001Page.DEFAULT_SVG_HREF)
                      = Normal (svgInput q)
                   /\ outputCode q = tag e /\ previewImg q = dataUri e
                   /\ pageLink q = pageLink p
                   /\ localStorage q = localStorage p))
  /\ (svgInput p <> [] ->
      MainTsPage.init p = MainTs.processInput p
      /\ Part001Page.init p = Part001.processInput p
      /\ (trim (svgInput p) = [] ->
          MainTsPage.init p = Returns (setOutput [] [] p)
          /\ Part001Page.init p = Returns (setOutput [] [] p))).
Proof.
  split.
  - intros Hp. split.
    + do 2 eexists. split; [vm_compute; reflexivity|].
      unfold MainTsPage.init.
      erewrite (initWith_default MainTs.processInput setPageLink
                  MainTsPage.DEFAULT_SVG_HREF _ _ _ p (fun _ => eq_refl) Hp);
        [|vm_compute; reflexivity|vm_compute; reflexivity|vm_compute; reflexivity].
      by repeat split.
    + do 2 eexists. split; [vm_compute; reflexivity|].
      unfold Part001Page.init.
      erewrite (initWith_default Part001.processInput (fun _ x => x)
                  Part001Page.DEFAULT_SVG_HREF _ _ _ p (fun _ => eq_refl) Hp);
        [|vm_compute; reflexivity|vm_compute; reflexivity|vm_compute; reflexivity].
      by repeat split.
  - intros Hp. unfold MainTsPage.init, Part001Page.init, initWith.
    destruct (svgInput p) as [|c r] eqn:E; [done|]. do 2 (split; [done|]).
    intros Ht. unfold MainTs.processInput, Part001.processInput, processInputWith.
    by rewrite E, Ht.
Qed.

Lemma init_outcome_witness :
  (exists q, MainTsPage.init (pageWith []) = Returns q
             /\ svgInput q
                = lit "<svg xmlns='http://www.w3.org/2000/svg' viewBox='0 0 100 100'><rect width='100' height='100' rx='20' fill='#1f2937'/><text x='50' y='50' font-size='50' fill='#ffffff' text-anchor='middle' dy='.3em' font-family='Poppins, sans-serif' font-weight='bold'>RJ</text></svg>"
             /\ outputCode q = linkTag (previewImg q)
             /\ previewImg q <> MainTsPage.DEFAULT_SVG_HREF)
  /\ Part001Page.init (pageWith (lit "  ")) = Returns (setOutput [] [] (pageWith (lit "  "))).
Proof.
  split.
  - eexists. split; [reflexivity|]. split; [reflexivity|]. split; [reflexivity|].
    discriminate.
  - assert (Hne : svgInput (pageWith (lit "  ")) <> []) by discriminate.
    destruct (proj2 (init_outcome (pageWith (lit "  "))) Hne) as (_ & _ & H).
    exact (proj2 (H eq_refl)).
Defined.

(** ** Class lists *)

Lemma contains_app (t : string) (a b : list string) :
  contains t (a ++ b) = contains t a || contains t b.
Proof. apply existsb_app. Qed.

Lemma contains_classAdd (t u : string) (l : list string) :
  contains t (classAdd u l) = String.eqb t u || contains t l.
Proof.
  unfold classAdd. destruct (contains u l) eqn:E.
  - destruct (String.eqb_spec t u) as [->|]; [by rewrite E|done].
  - rewrite contains_app. simpl. rewrite orb_false_r. apply orb_comm.
Qed.

Lemma contains_classRemove (t u : string) (l : list string) :
  contains t (classRemove u l) = negb (String.eqb t u) && contains t l.
Proof.
  unfold classRemove, contains. induction l as [|x l IH]; simpl.
  - by rewrite andb_false_r.
  - destruct (String.eqb_spec x u) as [->|Hx]; simpl; rewrite IH.
    + destruct (String.eqb_spec t u); simpl; [done|]. done.
    + destruct (String.eqb_spec t x) as [->|]; simpl; [|done].
      destruct (String.eqb_spec x u); [done|]. done.
Qed.

Lemma classRemove_absent (t : string) (l : list string) :
  contains t l = false -> classRemove t l = l.
Proof.
  unfold classRemove, contains. induction l as [|x l IH]; simpl; [done|].
  rewrite orb_false_iff. intros [Hx Hl]. rewrite String.eqb_sym, Hx. simpl.
  by rewrite IH.
Qed.

Lemma classAdd_present (t : string) (l : list string) :
  contains t l = true -> classAdd t l = l.
Proof. intros H. unfold classAdd. by rewrite H. Qed.

Lemma classReplace_absent (old new : string) (l : list string) :
  contains old l = false -> classReplace old new l = l.
Proof. intros H. unfold classReplace. by rewrite H. Qed.

Lemma contains_cons (t x : string) (l : list string) :
  contains t (x :: l) = String.eqb t x || contains t l.
Proof. reflexivity. Qed.

Lemma contains_replaceWithin (t old new : string) (l : list string) :
  contains t (replaceWithin old new l)
  = if contains old l || contains new l
    then String.eqb t new
         || (negb (String.eqb t old) && negb (String.eqb t new) && contains t l)
    else contains t l.
Proof.
  induction l as [|x l IH]; [done|]. cbn [replaceWithin].
  rewrite !(contains_cons _ x l).
  destruct (String.eqb_spec x old) as [->|Ho]; cbn [orb].
  - rewrite String.eqb_refl. cbn [orb].
    rewrite contains_cons, !contains_classRemove.
    destruct (String.eqb t new), (String.eqb t old); simpl; done.
  - destruct (String.eqb_spec x new) as [->|Hn].
    + rewrite String.eqb_refl. cbn [orb]. rewrite Bool.orb_true_r.
      rewrite contains_cons, !contains_classRemove.
      destruct (String.eqb t new), (String.eqb t old); simpl; done.
    + rewrite contains_cons, IH.
      rewrite (proj2 (String.eqb_neq old x)), (proj2 (String.eqb_neq new x)) by congruence.
      cbn [orb]. destruct (contains old l || contains new l); [|done].
      destruct (String.eqb_spec t x) as [->|]; [|done].
      rewrite (proj2 (String.eqb_neq x old)), (proj2 (String.eqb_neq x new)) by done.
      done.
Qed.

Lemma contains_classReplace (t old new : string) (l : list string) :
  contains t (classReplace old new l)
  = if contains old l
    then String.eqb t new
         || (negb (String.eqb t old) && negb (String.eqb t new) && contains t l)
    else contains t l.
Proof.
  unfold classReplace. destruct (contains old l) eqn:E; [|done].
  by rewrite contains_replaceWithin, E.
Qed.

Lemma classReplace_twice (old new : string) (l : list string) :
  old <> new -> classReplace old new (classReplace old new l) = classReplace old new l.
Proof.
  intros H. apply classReplace_absent. rewrite contains_classReplace.
  destruct (contains old l) eqn:E; [|done].
  rewrite String.eqb_refl, (proj2 (String.eqb_neq old new)) by done. done.
Qed.

Lemma classRemove_twice (t : string) (l : list string) :
  classRemove t (classRemove t l) = classRemove t l.
Proof.
  apply classRemove_absent. by rewrite contains_classRemove, String.eqb_refl.
Qed.

Lemma classAdd_twice (t : string) (l : list string) :
  classAdd t (classAdd t l) = classAdd t l.
Proof. apply classAdd_present. by rewrite contains_classAdd, String.eqb_refl. Qed.

Ltac class_lists :=
  repeat first
    [ rewrite contains_classAdd | rewrite contains_classRemove
    | rewrite contains_classReplace ];
  cbn [String.eqb Ascii.eqb Bool.eqb negb andb orb];
  repeat match goal with
    | |- context [contains ?t ?l] => destruct (contains t l)
    end;
  cbn [negb andb orb]; try done.

(** A second application of the same operations finds nothing to do. *)
Ltac class_lists_again :=
  try done;
  match goal with
  | |- _ = ?R =>
      let Y := fresh "Y" in
      let HY := fresh "HY" in
      remember R as Y eqn:HY;
      repeat first
        [ rewrite classReplace_absent | rewrite classAdd_present
        | rewrite classRemove_absent ];
      try done; subst Y; class_lists
  end.

(** X23: [switchTab], in both scripts and whatever the class lists hold,
    shows exactly the selected input group: after the call the group of the
    selected tab does not have the class hidden and the other group has
    it; and calling it again with the same tab changes nothing. *)
Theorem switchTab_shows_selected_group (t : tab) (x : Tabs) :
  (contains "hidden" (groupCode (MainTsTabs.switchTab t x))
   = match t with TabCode => false | TabUrl => true end
   /\ contains "hidden" (groupUrl (MainTsTabs.switchTab t x))
      = match t with TabCode => true | TabUrl => false end
   /\ MainTsTabs.switchTab t (MainTsTabs.switchTab t x) = MainTsTabs.switchTab t x)
  /\ (contains "hidden" (groupCode (Part001Tabs.switchTab t x))
      = match t with TabCode => false | TabUrl => true end
      /\ contains "hidden" (groupUrl (Part001Tabs.switchTab t x))
         = match t with TabCode => true | TabUrl => false end
      /\ Part001Tabs.switchTab t (Part001Tabs.switchTab t x) = Part001Tabs.switchTab t x).
Proof.
  split; (split; [|split]); destruct t; simpl; try (by class_lists);
    f_equal; class_lists_again.
Qed.

(** X24: switching to the URL tab and back.  In main.ts the code tab loses
    the class of its border colour for good: [switchTab] removes it when
    the URL tab is selected and puts it back only in place of the class of
    the transparent border, which it never adds.  In part_001, where both
    directions replace one class by the other, the border colour is back
    after the round trip. *)
Theorem tab_round_trip_border (x : Tabs) :
  contains "border-blue-500" (tabCode x) = true ->
  contains "border-transparent" (tabCode x) = false ->
  contains "border-blue-500"
    (tabCode (MainTsTabs.switchTab TabCode (MainTsTabs.switchTab TabUrl x))) = false
  /\ contains "border-b-2"
       (tabCode (MainTsTabs.switchTab TabCode (MainTsTabs.switchTab TabUrl x))) = true
  /\ contains "border-blue-500"
       (tabCode (Part001Tabs.switchTab TabCode (Part001Tabs.switchTab TabUrl x))) = true.
Proof.
  intros Hb Ht. simpl.
  repeat first
    [ rewrite contains_classAdd | rewrite contains_classRemove
    | rewrite contains_classReplace ];
  cbn [String.eqb Ascii.eqb Bool.eqb negb andb orb].
  rewrite ?Hb, ?Ht.
  repeat match goal with
    | |- context [contains ?t ?l] => destruct (contains t l)
    end; cbn [negb andb orb]; done.
Qed.

Lemma tab_round_trip_border_witness :
  contains "border-blue-500" ["text-blue-400"; "border-b-2"; "border-blue-500"]%string = true
  /\ tabCode (MainTsTabs.switchTab TabCode
                (MainTsTabs.switchTab TabUrl
                   {| tabCode := ["text-blue-400"; "border-b-2"; "border-blue-500"]%string;
                      tabUrl := ["text-zinc-400"]%string;
                      groupCode := []; groupUrl := ["hidden"]%string |}))
     = ["text-blue-400"; "border-b-2"]%string
  /\ contains "border-blue-500"
       (tabCode (MainTsTabs.switchTab TabCode
                   (MainTsTabs.switchTab TabUrl
                      {| tabCode := ["text-blue-400"; "border-b-2"; "border-blue-500"]%string;
                         tabUrl := ["text-zinc-400"]%string;
                         groupCode := []; groupUrl := ["hidden"]%string |}))) = false.
Proof.
  split; [reflexivity|]. split; [reflexivity|].
  exact (proj1 (tab_round_trip_border
                  {| tabCode := ["text-blue-400"; "border-b-2"; "border-blue-500"]%string;
                     tabUrl := ["text-zinc-400"]%string;
                     groupCode := []; groupUrl := ["hidden"]%string |} eq_refl eq_refl)).
Defined.

(** ** Running [processInput] again *)

Lemma unwrap_not_data (raw : jsstring) :
  startsWith DATA_PREFIX (unwrapLink raw) = false ->
  unwrap raw = Normal (unwrapLink raw, false).
Proof. intros H. unfold unwrap, unwrapDataUri. by rewrite H. Qed.

Lemma processInputWith_again f (p q : Page) :
  (forall h x, svgInput (f h x) = svgInput x) ->
  (forall h t x, f h (setOutput t h (f h (setOutput t h x))) = f h (setOutput t h x)) ->
  startsWith DATA_PREFIX (unwrapLink (trim (svgInput p))) = false ->
  processInputWith f p = Returns q -> processInputWith f q = Returns q.
Proof.
  intros Hf Hff Hd H.
  apply processInputWith_Returns in H as [[Ht ->]|(u & e & q' & Hu & Hg & Hn & -> & ->)].
  - unfold processInputWith. simpl. by rewrite Ht.
  - rewrite (unwrap_not_data _ Hd) in Hu. injection Hu as <-. simpl.
    rewrite (processInputWith_unwrap f _ e (unwrapLink (trim (svgInput p))) false).
    + cbn [snd fst]. by rewrite Hff.
    + cbn [snd fst]. by rewrite Hf.
    + cbn [snd fst]. rewrite Hf. simpl. by apply unwrap_not_data.
Qed.

(** X25: when the input is not a data URI, a run of [processInput] that
    returns leaves a page on which a second run changes nothing, in both
    scripts: the listener of the input event and the Generate button can
    run again and again on the same text. *)
Theorem processInput_again (p q : Page) :
  startsWith DATA_PREFIX (unwrapLink (trim (svgInput p))) = false ->
  (MainTs.processInput p = Returns q -> MainTs.processInput q = Returns q)
  /\ (Part001.processInput p = Returns q -> Part001.processInput q = Returns q).
Proof.
  intros Hd. split; apply processInputWith_again; done.
Qed.

Lemma processInput_again_witness :
  exists q,
    startsWith DATA_PREFIX (unwrapLink (trim (lit " <svg/> "))) = false
    /\ MainTs.processInput (pageWith (lit " <svg/> ")) = Returns q
    /\ MainTs.processInput q = Returns q.
Proof.
  eexists. split; [reflexivity|]. split; [reflexivity|].
  exact (proj1 (processInput_again (pageWith (lit " <svg/> ")) _ eq_refl) eq_refl).
Defined.

(** A data URI in the input field is replaced by the decoded text, and the
    second run works on that text: it can give another result. *)
Example processInput_again_data_uri :
  exists q q',
    MainTs.processInput (pageWith (DATA_PREFIX ++ lit "%20%3Csvg%2F%3E")) = Returns q
    /\ MainTs.processInput q = Returns q'
    /\ outputCode q = linkTag (DATA_PREFIX ++ lit "%20%3Csvg%2F%3E")
    /\ outputCode q' = linkTag (DATA_PREFIX ++ lit "%3Csvg%2F%3E").
Proof. do 2 eexists. repeat split. Qed.
